(** * Data-Quality-Auditor console: configuration edits, issue derivation
      and report comparison

    A shallow embedding of the pure logic of three React components

    - [src/components/AuditConfigForm.tsx]  (schema and rule edits),
    - [AuditReportView]                     (the [allIssues] and
                                             [issueIndicators] memos),
    - [ComparisonView]                      ([handleCompare] and the delta)

    together with the declarations of [src/types/audit.ts], and the
    properties of the specification checked against them.

    Conventions.  A JavaScript string is a [string]: a sequence of code
    units, here below 256.  A JavaScript number that the code only uses as
    an integer (row numbers, counts, array indices) is a [Z]; the one
    number used as a fraction ([missing_pct]) is a [Q], which holds every
    finite double exactly.  [NaN] is [None].  A double holds every
    integer of size below [2^53] exactly, and what is said of the row
    numbers is said of numbers in that range.  The collation of
    [localeCompare] depends on the engine and its locale: it is a
    parameter of the comparator. *)

From Stdlib Require Import ZArith QArith Qround Lia Bool.
From Stdlib Require Import Ascii String DecimalString.
From Stdlib Require Import List Permutation Sorted.
From stdpp Require list.
Import ListNotations.

Local Open Scope string_scope.
Local Open Scope Z_scope.

(** ** The JavaScript built-ins the components call *)

Module Js.

Definition code (c : ascii) : Z := Z.of_N (N_of_ascii c).

(** White space and line terminators of ECMAScript below code 256:
    TAB, LF, VT, FF, CR, SP and NBSP. *)
Definition isWhiteSpace (c : ascii) : bool :=
  let n := code c in
  ((9 <=? n) && (n <=? 13)) || (n =? 32) || (n =? 160).

Fixpoint trimStart (s : string) : string :=
  match s with
  | String c r => if isWhiteSpace c then trimStart r else s
  | EmptyString => EmptyString
  end.

Definition rev_string (s : string) : string :=
  string_of_list_ascii (rev (list_ascii_of_string s)).

Definition trimEnd (s : string) : string :=
  rev_string (trimStart (rev_string s)).

(** [String.prototype.trim] *)
Definition trim (s : string) : string := trimEnd (trimStart s).

(** [String.prototype.split] with a one-character separator: the pieces
    between the separators, empty pieces included; never the empty
    list. *)
Fixpoint split (sep : ascii) (s : string) : list string :=
  match s with
  | EmptyString => [EmptyString]
  | String c r =>
      if Ascii.eqb c sep then EmptyString :: split sep r
      else match split sep r with
           | t :: ts => String c t :: ts
           | [] => [String c EmptyString]
           end
  end.

(** [Array.prototype.join] *)
Definition join (sep : string) (l : list string) : string :=
  String.concat sep l.

(** [Boolean(s)] for a string: the empty string is the only falsy
    one. *)
Definition truthy (s : string) : bool :=
  match s with EmptyString => false | _ => true end.

(** The value of a digit in radix up to 36. *)
Definition digitValue (c : ascii) : option Z :=
  let n := code c in
  if (48 <=? n) && (n <=? 57) then Some (n - 48)
  else if (97 <=? n) && (n <=? 122) then Some (n - 87)
  else if (65 <=? n) && (n <=? 90) then Some (n - 55)
  else None.

(** The longest prefix of radix-[R] digits, read as a number; [acc] is
    [None] until a first digit has been seen. *)
Fixpoint digitsPrefix (R : Z) (s : string) (acc : option Z) : option Z :=
  match s with
  | EmptyString => acc
  | String c r =>
      match digitValue c with
      | Some d =>
          if d <? R
          then digitsPrefix R r
                 (Some (match acc with Some a => a * R + d | None => d end))
          else acc
      | None => acc
      end
  end.

(** The first code unit of [s] is [c]. *)
Definition startsWith (c : ascii) (s : string) : bool :=
  match s with
  | String d _ => Ascii.eqb d c
  | EmptyString => false
  end.

(** [s] without its first code unit. *)
Definition tail (s : string) : string :=
  match s with
  | String _ r => r
  | EmptyString => EmptyString
  end.

(** [parseInt(s)] with no radix argument, in the steps of ECMAScript:
    leading white space is skipped; a first [-] gives the sign, and a
    first [-] or [+] is removed; then a [0x] or [0X] is removed and
    selects radix 16, and anything else radix 10; the longest prefix of
    digits of that radix is read and the rest ignored.  No digit:
    [NaN].  The result is the exact integer, which is the double of the
    code for every integer of size below [2^53]. *)
Definition parseInt (s : string) : option Z :=
  let inputString := trimStart s in
  let sign := if startsWith "-" inputString then -1 else 1 in
  let unsigned :=
    if startsWith "-" inputString || startsWith "+" inputString
    then tail inputString else inputString in
  let stripPrefix :=
    startsWith "0" unsigned
    && (startsWith "x" (tail unsigned) || startsWith "X" (tail unsigned)) in
  let R := if stripPrefix then 16 else 10 in
  let digits := if stripPrefix then tail (tail unsigned) else unsigned in
  option_map (Z.mul sign) (digitsPrefix R digits None).

(** [x > y] on numbers that are not [NaN]. *)
Definition gt (x y : Q) : bool := negb (Qle_bool x y).

(** [String(n)] for an integer [n] (of fewer than 22 digits). *)
Definition numberToString (n : Z) : string :=
  NilZero.string_of_int (Z.to_int n).

(** [x.toFixed(1)]: the nearest multiple of one tenth, the larger one on
    a tie, printed with one decimal ([|x| < 10^21]). *)
Definition toFixed1 (x : Q) : string :=
  let neg := negb (Qle_bool 0 x) in
  let ax := if neg then Qopp x else x in
  let n := Qfloor (Qplus (Qmult ax (10 # 1)) (1 # 2)) in
  let m := list_ascii_of_string (numberToString n) in
  let m := if (Nat.leb (List.length m) 1) then "0"%char :: m else m in
  let k := List.length m in
  let a := firstn (k - 1) m in
  let b := skipn (k - 1) m in
  ((if neg then "-" else EmptyString) ++
   string_of_list_ascii a ++ "." ++ string_of_list_ascii b)%string.

Definition hexDigit (n : Z) : ascii :=
  ascii_of_N (Z.to_N (if n <? 10 then 48 + n else 87 + n)).

Definition quoteChar : ascii := ascii_of_nat 34.
Definition backslash : ascii := ascii_of_nat 92.

(** [QuoteJSONString], one code unit at a time. *)
Definition quoteJSONChar (c : ascii) : string :=
  let n := code c in
  if n =? 8 then String backslash "b"
  else if n =? 9 then String backslash "t"
  else if n =? 10 then String backslash "n"
  else if n =? 12 then String backslash "f"
  else if n =? 13 then String backslash "r"
  else if n =? 34 then String backslash (String quoteChar EmptyString)
  else if n =? 92 then String backslash (String backslash EmptyString)
  else if n <? 32
       then String backslash
              ("u00" ++ String (hexDigit (n / 16))
                             (String (hexDigit (n mod 16)) EmptyString))
  else String c EmptyString.

Fixpoint quoteJSONBody (s : string) : string :=
  match s with
  | EmptyString => EmptyString
  | String c r => (quoteJSONChar c ++ quoteJSONBody r)%string
  end.

Definition quoteJSONString (s : string) : string :=
  String quoteChar (quoteJSONBody s ++ String quoteChar EmptyString).

(** [Array.prototype.sort(cmp)].  The result holds the elements of the
    array, each as often as the array does.  For a comparator that
    orders the elements consistently the result is in order and stable
    (ECMAScript 2019); there is one such arrangement, and insertion
    computes it: the elements are taken from the last to the first, and
    each moves right past exactly the elements the comparator puts it
    strictly after.  For a comparator that is not consistent ECMAScript
    leaves the order to the engine; insertion is then one of the orders
    an engine may give, and nothing is concluded from it but which
    elements the result holds. *)
Section Sort.
Context {A : Type} (cmp : A -> A -> Z).

Fixpoint insert (x : A) (l : list A) : list A :=
  match l with
  | [] => [x]
  | y :: l' => if 0 <? cmp x y then y :: insert x l' else x :: l
  end.

Fixpoint sort (l : list A) : list A :=
  match l with
  | [] => []
  | x :: l' => insert x (sort l')
  end.
End Sort.

End Js.


(** ** The declarations of [src/types/audit.ts] *)

Inductive DataType :=
| DString | DInteger | DFloat | DBoolean | DDatetime | DCategory.

Definition DataType_to_string (d : DataType) : string :=
  match d with
  | DString => "string"
  | DInteger => "integer"
  | DFloat => "float"
  | DBoolean => "boolean"
  | DDatetime => "datetime"
  | DCategory => "category"
  end.

Inductive Severity := Info | Warning | Error.

Inductive Engine := Pandas | Duckdb.

Inductive SchemaStatus := StatusOk | StatusMissing | StatusTypeMismatch.

(** [Record<string, string>]: the own properties of a sample row in
    their order, a property name occurring once. *)
Definition Row := list (string * string).

(** The own property [col] of a sample row, if it has one. *)
Fixpoint get (col : string) (sample : Row) : option string :=
  match sample with
  | [] => None
  | (k, v) :: rest => if String.eqb k col then Some v else get col rest
  end.

(** The names that every object answers through [Object.prototype]. *)
Definition objectPrototypeNames : list string :=
  ["constructor"; "hasOwnProperty"; "isPrototypeOf";
   "propertyIsEnumerable"; "toLocaleString"; "toString"; "valueOf";
   "__proto__"; "__defineGetter__"; "__defineSetter__";
   "__lookupGetter__"; "__lookupSetter__"].

Definition inherited (col : string) : bool :=
  existsb (String.eqb col) objectPrototypeNames.

(** What [sample[col]] evaluates to: the row's own value, or, for a name
    the row does not have, the function or object that [Object.prototype]
    answers with, or [undefined]. *)
Inductive Property :=
| OwnValue (v : string)
| InheritedValue
| Undefined.

(** [sample[col]] *)
Definition property (col : string) (sample : Row) : Property :=
  match get col sample with
  | Some v => OwnValue v
  | None => if inherited col then InheritedValue else Undefined
  end.

(** [JSON.stringify(sample)] *)
Definition JSON_stringify (sample : Row) : string :=
  ("{" ++
   Js.join ","
     (map (fun kv => Js.quoteJSONString (fst kv) ++ ":" ++
                     Js.quoteJSONString (snd kv)) sample) ++
   "}")%string.

Module SchemaField.
Record t := mk {
  name : string;
  dtype : DataType;
  nullable : bool;
  description : option string;
  min : option Q;
  max : option Q;
  allowed_values : option (list string);
  regex : option string
}.
End SchemaField.

Module RuleDefinition.
Record t := mk {
  name : string;
  expression : string;
  severity : Severity;
  description : option string
}.
End RuleDefinition.

Module AuditConfig.
Record t := mk {
  dataset_name : string;
  primary_key : option (list string);
  schema : list SchemaField.t;
  rules : list RuleDefinition.t
}.
End AuditConfig.

Module AuditSummary.
Record t := mk {
  dataset_name : string;
  row_count : Z;
  column_count : Z;
  created_at : string;
  engine_used : Engine;
  issues_found : Z
}.
End AuditSummary.

Module SchemaResult.
Record t := mk {
  field : string;
  expected_dtype : DataType;
  actual_dtype : option string;
  status : SchemaStatus;
  details : option string
}.
End SchemaResult.

(** [sample_rows] is modelled from the spec: the optional sample rows of
    a missing-value entry (section 3), which [src/types/audit.ts] does not
    declare and [AuditReportView] reads when present. *)
Module MissingValueStat.
Record t := mk {
  column : string;
  missing_count : Z;
  missing_pct : Q;
  sample_rows : option (list Row)
}.
End MissingValueStat.

(** [sample_rows] is tested for presence before it is read
    ([rule.sample_rows] in the condition), so it is optional here. *)
Module RuleResult.
Record t := mk {
  name : string;
  severity : Severity;
  passed : bool;
  failing_rows : Z;
  sample_rows : option (list Row);
  description : option string
}.
End RuleResult.

(** Modelled from the spec: the [primary_key_result] of section 3, with
    columns, duplicate_count, null_count and sample rows.
    [src/types/audit.ts] does not declare it; these are the four
    properties [AuditReportView] reads. *)
Module PrimaryKeyResult.
Record t := mk {
  columns : list string;
  duplicate_count : Z;
  null_count : Z;
  sample_rows : list Row
}.
End PrimaryKeyResult.

Module AuditReport.
Record t := mk {
  id : string;
  summary : AuditSummary.t;
  schema_results : list SchemaResult.t;
  missing_values : list MissingValueStat.t;
  rule_results : list RuleResult.t;
  primary_key_result : option PrimaryKeyResult.t;
  sample_rows : list Row;
  config : AuditConfig.t;
  source_file : string
}.
End AuditReport.

Module StoredReportMetadata.
Record t := mk {
  id : string;
  dataset_name : string;
  created_at : string;
  issues_found : Z;
  report_path : option string
}.
End StoredReportMetadata.

(** ** [AuditReportView]: the issue log and the indicators *)

Module AuditReportView.

Module Issue.
Record t := mk {
  rowId : string;
  value : string;
  errorType : string;
  ruleOrColumn : string;
  severity : Severity
}.
End Issue.

Module Indicator.
Record t := mk {
  label : string;
  detail : string;
  severity : Severity
}.
End Indicator.

(** [enrichedSample.__line__ ?? "n/a"]; no object inherits a property
    [__line__]. *)
Definition lineOf (sample : Row) : string :=
  match get "__line__" sample with
  | Some line => line
  | None => "n/a"
  end.

(** [!v] for what [sample[col]] evaluates to: [undefined] and the empty
    string are falsy, a function or an object is not. *)
Definition falsy (v : Property) : bool :=
  match v with
  | OwnValue s => negb (Js.truthy s)
  | InheritedValue => false
  | Undefined => true
  end.

(** [mv.missing_pct > 10 ? "error" : "warning"] *)
Definition missingSeverity (missing_pct : Q) : Severity :=
  if Js.gt missing_pct (10 # 1) then Error else Warning.

(** 1. Rule failures: the callback of [report.rule_results.forEach]. *)
Definition ruleIssues (rule : RuleResult.t) : list Issue.t :=
  match negb (RuleResult.passed rule), RuleResult.sample_rows rule with
  | true, Some rows =>
      map (fun sample =>
             Issue.mk (lineOf sample) (JSON_stringify sample)
                      "Rule Failed" (RuleResult.name rule)
                      (RuleResult.severity rule))
          rows
  | _, _ => []
  end.

(** 2. Missing values: the callback of [report.missing_values.forEach]. *)
Definition missingIssues (mv : MissingValueStat.t) : list Issue.t :=
  match 0 <? MissingValueStat.missing_count mv,
        MissingValueStat.sample_rows mv with
  | true, Some rows =>
      map (fun sample =>
             Issue.mk (lineOf sample) "NULL / Empty" "Missing Value"
                      (MissingValueStat.column mv)
                      (missingSeverity (MissingValueStat.missing_pct mv)))
          rows
  | _, _ => []
  end.

(** 3. Primary key issues. *)
Definition pkIssue (pk : PrimaryKeyResult.t) (sample : Row) : Issue.t :=
  let pkCols := Js.join ", " (PrimaryKeyResult.columns pk) in
  let isNull :=
    existsb (fun col => falsy (property col sample))
            (PrimaryKeyResult.columns pk) in
  Issue.mk (lineOf sample) (JSON_stringify sample)
           (if isNull then "PK Null" else "PK Duplicate")
           pkCols Error.

Definition pkIssues (primary_key_result : option PrimaryKeyResult.t)
  : list Issue.t :=
  match primary_key_result with
  | Some pk => map (pkIssue pk) (PrimaryKeyResult.sample_rows pk)
  | None => []
  end.

(** The array [issues] when the three loops have run. *)
Definition issues (report : AuditReport.t) : list Issue.t :=
  flat_map ruleIssues (AuditReport.rule_results report) ++
  flat_map missingIssues (AuditReport.missing_values report) ++
  pkIssues (AuditReport.primary_key_result report).

(** The comparator given to [issues.sort].  [localeCompare a b] is
    [a.localeCompare(b)], negative, zero or positive by the collation of
    the engine's locale. *)
Definition compareIssues (localeCompare : string -> string -> Z)
    (a b : Issue.t) : Z :=
  match Js.parseInt (Issue.rowId a), Js.parseInt (Issue.rowId b) with
  | Some rowA, Some rowB => rowA - rowB
  | _, _ => localeCompare (Issue.rowId a) (Issue.rowId b)
  end.

Definition allIssues (localeCompare : string -> string -> Z)
    (report : option AuditReport.t) : list Issue.t :=
  match report with
  | None => []
  | Some report => Js.sort (compareIssues localeCompare) (issues report)
  end.

Definition schemaIndicators (item : SchemaResult.t) : list Indicator.t :=
  match SchemaResult.status item with
  | StatusMissing =>
      [Indicator.mk "Missing column" (SchemaResult.field item) Error]
  | StatusTypeMismatch =>
      [Indicator.mk "Type mismatch"
         (SchemaResult.field item ++ ": expected " ++
          DataType_to_string (SchemaResult.expected_dtype item) ++
          ", found " ++
          match SchemaResult.actual_dtype item with
          | Some actual => actual
          | None => "n/a"
          end)%string
         Warning]
  | StatusOk => []
  end.

Definition missingIndicators (item : MissingValueStat.t)
  : list Indicator.t :=
  if 0 <? MissingValueStat.missing_count item
  then [Indicator.mk "Missing data"
          (MissingValueStat.column item ++ ": " ++
           Js.toFixed1 (MissingValueStat.missing_pct item) ++ "%")%string
          (missingSeverity (MissingValueStat.missing_pct item))]
  else [].

Definition ruleIndicators (rule : RuleResult.t) : list Indicator.t :=
  if negb (RuleResult.passed rule)
  then [Indicator.mk "Rule failed"
          (RuleResult.name rule ++ " (" ++
           Js.numberToString (RuleResult.failing_rows rule) ++
           " rows)")%string
          (RuleResult.severity rule)]
  else [].

Definition pkIndicators (primary_key_result : option PrimaryKeyResult.t)
  : list Indicator.t :=
  match primary_key_result with
  | Some pk =>
      (if 0 <? PrimaryKeyResult.duplicate_count pk
       then [Indicator.mk "PK duplicate"
               (Js.numberToString (PrimaryKeyResult.duplicate_count pk) ++
                " rows")%string Error]
       else []) ++
      (if 0 <? PrimaryKeyResult.null_count pk
       then [Indicator.mk "PK null"
               (Js.numberToString (PrimaryKeyResult.null_count pk) ++
                " rows")%string Error]
       else [])
  | None => []
  end.

Definition issueIndicators (report : option AuditReport.t)
  : list Indicator.t :=
  match report with
  | None => []
  | Some report =>
      flat_map schemaIndicators (AuditReport.schema_results report) ++
      flat_map missingIndicators (AuditReport.missing_values report) ++
      flat_map ruleIndicators (AuditReport.rule_results report) ++
      pkIndicators (AuditReport.primary_key_result report)
  end.

End AuditReportView.

(** ** [ComparisonView]: choosing two reports and their delta *)

Module ComparisonView.

(** The component's state [compareIds] and [comparison], and the
    [message] of its parent that [setMessage] writes. *)
Record State := mkState {
  compareIds_a : option string;
  compareIds_b : option string;
  comparison : option (AuditReport.t * AuditReport.t);
  message : string
}.

(** [!compareIds.a]: nothing chosen, or the empty choice. *)
Definition unselected (id : option string) : bool :=
  match id with
  | Some s => negb (Js.truthy s)
  | None => true
  end.

Definition sameId (a b : option string) : bool :=
  match a, b with
  | Some x, Some y => String.eqb x y
  | None, None => true
  | _, _ => false
  end.

Definition reportPath (id : option string) : string :=
  ("/reports/" ++ match id with Some s => s | None => "undefined" end)%string.

Section HandleCompare.
(** The gateway: [fetchJSON] answers a path with a report, or throws
    an error with a message. *)
Variable fetchJSON : string -> string + AuditReport.t.

(** Of two rejections [Promise.all] is taken to report the one of the
    first request. *)
Definition handleCompare (st : State) : State :=
  if unselected (compareIds_a st) || unselected (compareIds_b st)
     || sameId (compareIds_a st) (compareIds_b st)
  then mkState (compareIds_a st) (compareIds_b st) (comparison st)
               "Choose two different reports to compare."
  else
    match fetchJSON (reportPath (compareIds_a st)),
          fetchJSON (reportPath (compareIds_b st)) with
    | inr reportA, inr reportB =>
        mkState (compareIds_a st) (compareIds_b st)
                (Some (reportA, reportB)) (message st)
    | inl error, _ | _, inl error =>
        mkState (compareIds_a st) (compareIds_b st) (comparison st)
                ("Comparison failed: " ++ error)%string
    end.
End HandleCompare.

(** The number shown under "Delta". *)
Definition delta (c : AuditReport.t * AuditReport.t) : Z :=
  AuditSummary.issues_found (AuditReport.summary (snd c))
  - AuditSummary.issues_found (AuditReport.summary (fst c)).

(** The [onChange] handlers of the two selects:
    [setCompareIds((prev) => ({ ...prev, a: event.target.value || undefined }))]
    and the same for [b]. *)
Definition selectA (value : string) (st : State) : State :=
  mkState (if Js.truthy value then Some value else None)
          (compareIds_b st) (comparison st) (message st).

Definition selectB (value : string) (st : State) : State :=
  mkState (compareIds_a st)
          (if Js.truthy value then Some value else None)
          (comparison st) (message st).

(** The colour of the delta:
    [delta > 0 ? "text-rose-200" : delta < 0 ? "text-emerald-200" : "text-slate-200"]. *)
Definition tone (delta : Z) : string :=
  if 0 <? delta then "text-rose-200"
  else if delta <? 0 then "text-emerald-200"
  else "text-slate-200".

End ComparisonView.

(** ** [AuditConfigForm]: edits of the schema and of the rules *)

Module PartialSchemaField.
(** [Partial<SchemaField>]: [None] is a property the object does not
    have; for an optional property [Some None] is the property set to
    [undefined]. *)
Record t := mk {
  name : option string;
  dtype : option DataType;
  nullable : option bool;
  description : option (option string);
  min : option (option Q);
  max : option (option Q);
  allowed_values : option (option (list string));
  regex : option (option string)
}.

Definition empty : t := mk None None None None None None None None.
End PartialSchemaField.

Module PartialRuleDefinition.
Record t := mk {
  name : option string;
  expression : option string;
  severity : option Severity;
  description : option (option string)
}.

Definition empty : t := mk None None None None.
End PartialRuleDefinition.

Module AuditConfigForm.
Import stdpp.base stdpp.list.
Local Open Scope Z_scope.

(** What an array position holds once [arr[index] = {...arr[index],
    ...field}] has run: an element of the declared type, an object that
    has the properties of [field] alone (the spread of [undefined] adds
    none), or nothing (a hole left by a write past the end). *)
Inductive Slot (T P : Type) :=
| Whole (x : T)
| Part (field : P)
| Hole.
Arguments Whole {T P} x.
Arguments Part {T P} field.
Arguments Hole {T P}.

(** The configuration as [setConfig] receives it from an update. *)
Record Updated := mkUpdated {
  dataset_name : string;
  primary_key : option (list string);
  schema : list (Slot SchemaField.t PartialSchemaField.t);
  rules : list (Slot RuleDefinition.t PartialRuleDefinition.t)
}.

(** A configuration of the declared type, seen as such a state. *)
Definition updatedOf (c : AuditConfig.t) : Updated :=
  mkUpdated (AuditConfig.dataset_name c) (AuditConfig.primary_key c)
            (Whole <$> AuditConfig.schema c)
            (Whole <$> AuditConfig.rules c).

(** [{ ...old, ...field }] for a schema field. *)
Definition spreadSchemaField (old : SchemaField.t)
    (field : PartialSchemaField.t) : SchemaField.t :=
  SchemaField.mk
    (default (SchemaField.name old) (PartialSchemaField.name field))
    (default (SchemaField.dtype old) (PartialSchemaField.dtype field))
    (default (SchemaField.nullable old)
             (PartialSchemaField.nullable field))
    (default (SchemaField.description old)
             (PartialSchemaField.description field))
    (default (SchemaField.min old) (PartialSchemaField.min field))
    (default (SchemaField.max old) (PartialSchemaField.max field))
    (default (SchemaField.allowed_values old)
             (PartialSchemaField.allowed_values field))
    (default (SchemaField.regex old) (PartialSchemaField.regex field)).

(** [{ ...old, ...rule }] for a rule. *)
Definition spreadRule (old : RuleDefinition.t)
    (rule : PartialRuleDefinition.t) : RuleDefinition.t :=
  RuleDefinition.mk
    (default (RuleDefinition.name old) (PartialRuleDefinition.name rule))
    (default (RuleDefinition.expression old)
             (PartialRuleDefinition.expression rule))
    (default (RuleDefinition.severity old)
             (PartialRuleDefinition.severity rule))
    (default (RuleDefinition.description old)
             (PartialRuleDefinition.description rule)).

(** [const next = [...arr]; next[index] = { ...next[index], ...field }]
    on an array of whole elements.  Inside the array the element is
    replaced by the merge.  At or past the end the array grows to
    [index + 1] positions, holes up to [index] and there the properties
    of [field] alone.  A negative [index] names a property that is not
    an element: the elements stay as they are. *)
Definition assignSpread {T P : Type} (spread : T -> P -> T)
    (arr : list T) (index : Z) (field : P) : list (Slot T P) :=
  let next := Whole <$> arr in
  if index <? 0 then next
  else
    match arr !! Z.to_nat index with
    | Some old => <[Z.to_nat index := Whole (spread old field)]> next
    | None =>
        next ++ replicate (Z.to_nat index - length arr)%nat Hole ++ [Part field]
    end.

(** [arr.filter((_, idx) => keep(idx))], positions counted from
    [from]. *)
Fixpoint filterIdx {T : Type} (keep : Z -> bool) (from : Z) (arr : list T)
  : list T :=
  match arr with
  | [] => []
  | x :: rest =>
      if keep from then x :: filterIdx keep (from + 1) rest
      else filterIdx keep (from + 1) rest
  end.

Definition updateSchemaField (index : Z) (field : PartialSchemaField.t)
    (prev : AuditConfig.t) : Updated :=
  let nextSchema :=
    assignSpread spreadSchemaField (AuditConfig.schema prev) index field in
  mkUpdated (AuditConfig.dataset_name prev) (AuditConfig.primary_key prev)
            nextSchema (Whole <$> AuditConfig.rules prev).

Definition addSchemaField (prev : AuditConfig.t) : AuditConfig.t :=
  AuditConfig.mk (AuditConfig.dataset_name prev)
    (AuditConfig.primary_key prev)
    (AuditConfig.schema prev ++
     [SchemaField.mk
        ("field_" ++
         Js.numberToString
           (Z.of_nat (length (AuditConfig.schema prev)) + 1))%string
        DString true None None None None None])
    (AuditConfig.rules prev).

Definition removeSchemaField (index : Z) (prev : AuditConfig.t)
  : AuditConfig.t :=
  AuditConfig.mk (AuditConfig.dataset_name prev)
    (AuditConfig.primary_key prev)
    (filterIdx (fun idx => negb (idx =? index)) 0 (AuditConfig.schema prev))
    (AuditConfig.rules prev).

Definition updateRule (index : Z) (rule : PartialRuleDefinition.t)
    (prev : AuditConfig.t) : Updated :=
  let nextRules :=
    assignSpread spreadRule (AuditConfig.rules prev) index rule in
  mkUpdated (AuditConfig.dataset_name prev) (AuditConfig.primary_key prev)
            (Whole <$> AuditConfig.schema prev) nextRules.

Definition addRule (prev : AuditConfig.t) : AuditConfig.t :=
  AuditConfig.mk (AuditConfig.dataset_name prev)
    (AuditConfig.primary_key prev)
    (AuditConfig.schema prev)
    (AuditConfig.rules prev ++
     [RuleDefinition.mk
        ("Rule " ++
         Js.numberToString
           (Z.of_nat (length (AuditConfig.rules prev)) + 1))%string
        "1 = 1" Warning (Some EmptyString)]).

Definition removeRule (index : Z) (prev : AuditConfig.t) : AuditConfig.t :=
  AuditConfig.mk (AuditConfig.dataset_name prev)
    (AuditConfig.primary_key prev)
    (AuditConfig.schema prev)
    (filterIdx (fun idx => negb (idx =? index)) 0 (AuditConfig.rules prev)).

(** The value the "Allowed values" input stores:
    [value.split(",").map((v) => v.trim()).filter(Boolean)]. *)
Definition allowedValuesOf (value : string) : list string :=
  List.filter Js.truthy (map Js.trim (Js.split "," value)).

(** The [onChange] handler of the "Allowed values" input of the field
    at [index]. *)
Definition onAllowedValuesChange (index : Z) (value : string)
    (prev : AuditConfig.t) : Updated :=
  updateSchemaField index
    (PartialSchemaField.mk None None None None None None
       (Some (Some (allowedValuesOf value))) None)
    prev.

(** [item.allowed_values?.join(", ") ?? ""]: the text the "Allowed
    values" input shows for a field. *)
Definition allowedValuesText (item : SchemaField.t) : string :=
  match SchemaField.allowed_values item with
  | Some values => Js.join ", " values
  | None => EmptyString
  end.

End AuditConfigForm.

(** ** [lib/api]: the gateway *)

Module Api.

(** A file chosen by the operator, taken as its content. *)
Definition File := string.

Inductive Method := GET | POST | DELETE.

(** A value of a [FormData]: a file or a text. *)
Inductive FormValue :=
| FileValue (file : File)
| TextValue (text : string).

(** What [fetch] is called with: the address, the method and the entries
    of the form it sends, if any. *)
Record Request := mkRequest {
  url : string;
  method : Method;
  body : list (string * FormValue)
}.

(** What [fetch] resolves to, as far as the console reads it:
    [response.ok] and the body. *)
Record Response := mkResponse {
  ok : bool;
  text : string
}.

(** [process.env.NEXT_PUBLIC_API_BASE_URL ?? "http://127.0.0.1:8000"] *)
Definition API_BASE_URL (NEXT_PUBLIC_API_BASE_URL : option string)
  : string :=
  match NEXT_PUBLIC_API_BASE_URL with
  | Some base => base
  | None => "http://127.0.0.1:8000"
  end.

Section Gateway.
(** The environment variable, and the network: [fetch] resolves to a
    response or is rejected with an error of some message. *)
Variable NEXT_PUBLIC_API_BASE_URL : option string.
Variable fetch : Request -> string + Response.

Definition apiUrl (path : string) : string :=
  (API_BASE_URL NEXT_PUBLIC_API_BASE_URL ++ path)%string.

(** [fetchJSON<T>(path)]; every caller leaves [init] out.  [json] is
    [response.json()] at the type [T]: the value, or the message of the
    error it throws. *)
Definition fetchJSON {T : Type} (json : string -> string + T)
    (path : string) : string + T :=
  match fetch (mkRequest (apiUrl path) GET []) with
  | inl error => inl error
  | inr response =>
      if negb (ok response)
      then inl (if Js.truthy (text response) then text response
                else "Request failed")
      else json (text response)
  end.
End Gateway.

End Api.

(** ** [Home]: the page that holds the state and talks to the gateway

    A handler is taken from its call to its end, no other handler
    running in between. *)

Module Home.

Record State := mkState {
  config : AuditConfig.t;
  file : option Api.File;
  report : option AuditReport.t;
  reports : list StoredReportMetadata.t;
  isRunning : bool;
  message : string;
  loadingTemplate : bool;
  availableColumns : list string
}.

(** The state of the first render. *)
Definition initial : State :=
  mkState (AuditConfig.mk "uploaded_dataset" (Some []) [] [])
          None None [] false EmptyString false [].

Definition setConfig (v : AuditConfig.t) (st : State) : State :=
  mkState v (file st) (report st) (reports st) (isRunning st) (message st)
          (loadingTemplate st) (availableColumns st).

Definition setReport (v : option AuditReport.t) (st : State) : State :=
  mkState (config st) (file st) v (reports st) (isRunning st) (message st)
          (loadingTemplate st) (availableColumns st).

Definition setReports (v : list StoredReportMetadata.t) (st : State)
  : State :=
  mkState (config st) (file st) (report st) v (isRunning st) (message st)
          (loadingTemplate st) (availableColumns st).

Definition setIsRunning (v : bool) (st : State) : State :=
  mkState (config st) (file st) (report st) (reports st) v (message st)
          (loadingTemplate st) (availableColumns st).

Definition setMessage (v : string) (st : State) : State :=
  mkState (config st) (file st) (report st) (reports st) (isRunning st) v
          (loadingTemplate st) (availableColumns st).

Definition setLoadingTemplate (v : bool) (st : State) : State :=
  mkState (config st) (file st) (report st) (reports st) (isRunning st)
          (message st) v (availableColumns st).

Definition setAvailableColumns (v : list string) (st : State) : State :=
  mkState (config st) (file st) (report st) (reports st) (isRunning st)
          (message st) (loadingTemplate st) v.

Section Handlers.
Variable NEXT_PUBLIC_API_BASE_URL : option string.
Variable fetch : Api.Request -> string + Api.Response.
(** [response.json()] at the four types the page reads, and
    [JSON.stringify(config)]. *)
Variable jsonConfig : string -> string + AuditConfig.t.
Variable jsonReports : string -> string + list StoredReportMetadata.t.
Variable jsonReport : string -> string + AuditReport.t.
Variable jsonColumns : string -> string + list string.
Variable stringifyConfig : AuditConfig.t -> string.

(** The three requests the page sends with [fetch] itself. *)
Definition schemaRequest (file : Api.File) : Api.Request :=
  Api.mkRequest (Api.apiUrl NEXT_PUBLIC_API_BASE_URL "/audit/schema")
                Api.POST [("file", Api.FileValue file)].

Definition auditRequest (file : Api.File) (config : AuditConfig.t)
  : Api.Request :=
  Api.mkRequest (Api.apiUrl NEXT_PUBLIC_API_BASE_URL "/audit/run") Api.POST
                [("file", Api.FileValue file);
                 ("config", Api.TextValue (stringifyConfig config))].

Definition deleteRequest (reportId : string) : Api.Request :=
  Api.mkRequest
    (Api.apiUrl NEXT_PUBLIC_API_BASE_URL ("/reports/" ++ reportId))
    Api.DELETE [].

Definition fetchTemplate (st : State) : State :=
  let st := setLoadingTemplate true st in
  let st :=
    match Api.fetchJSON NEXT_PUBLIC_API_BASE_URL fetch jsonConfig
            "/config/template" with
    | inr template => setConfig template st
    | inl error => setMessage ("Unable to load template: " ++ error) st
    end in
  setLoadingTemplate false st.

Definition refreshReports (st : State) : State :=
  match Api.fetchJSON NEXT_PUBLIC_API_BASE_URL fetch jsonReports
          "/reports" with
  | inr data => setReports data st
  | inl error => setMessage ("Unable to load reports: " ++ error) st
  end.

(** The effect that runs when [file] has changed. *)
Definition fetchColumns (st : State) : State :=
  match file st with
  | None => setAvailableColumns [] st
  | Some file =>
      match fetch (schemaRequest file) with
      | inr response =>
          if Api.ok response
          then match jsonColumns (Api.text response) with
               | inr cols => setAvailableColumns cols st
               | inl _ => st
               end
          else st
      | inl _ => st
      end
  end.

Definition runAudit (st : State) : State :=
  match file st with
  | None => setMessage "Upload a CSV/Excel file first." st
  | Some file =>
      let st := setIsRunning true st in
      let st := setMessage "Running audit..." st in
      let st :=
        match fetch (auditRequest file (config st)) with
        | inr response =>
            if negb (Api.ok response)
            then setMessage
                   ("Audit failed: " ++
                    (if Js.truthy (Api.text response)
                     then Api.text response else "Audit failed"))
                   st
            else match jsonReport (Api.text response) with
                 | inr auditReport =>
                     let st := setReport (Some auditReport) st in
                     let st :=
                       setMessage "Audit completed successfully." st in
                     refreshReports st
                 | inl error => setMessage ("Audit failed: " ++ error) st
                 end
        | inl error => setMessage ("Audit failed: " ++ error) st
        end in
      setIsRunning false st
  end.

Definition loadReport (reportId : string) (st : State) : State :=
  match Api.fetchJSON NEXT_PUBLIC_API_BASE_URL fetch jsonReport
          ("/reports/" ++ reportId) with
  | inr item => setReport (Some item) st
  | inl error => setMessage ("Unable to load report: " ++ error) st
  end.

(** The address [downloadReport] opens. *)
Definition downloadReport (reportId : string) : string :=
  Api.apiUrl NEXT_PUBLIC_API_BASE_URL ("/reports/" ++ reportId ++ "/download").

(** [report?.id === reportId] *)
Definition isReport (report : option AuditReport.t) (reportId : string)
  : bool :=
  match report with
  | Some r => String.eqb (AuditReport.id r) reportId
  | None => false
  end.

(** [confirmed] is the answer to [window.confirm]. *)
Definition deleteReport (confirmed : bool) (reportId : string) (st : State)
  : State :=
  if negb confirmed then st
  else
    match fetch (deleteRequest reportId) with
    | inr response =>
        if negb (Api.ok response)
        then setMessage ("Unable to delete report: " ++ Api.text response) st
        else
          let st := if isReport (report st) reportId
                    then setReport None st else st in
          let st := refreshReports st in
          setMessage "Report deleted." st
    | inl error => setMessage ("Unable to delete report: " ++ error) st
    end.

End Handlers.

End Home.

(** ** The specification's own words, where they are compared with the code *)

Module Spec.
Import stdpp.base stdpp.list.
Local Open Scope Z_scope.

Definition isDecimalDigit (c : ascii) : bool :=
  (48 <=? Js.code c) && (Js.code c <=? 57).

(** A string of decimal digits only, read as a number. *)
Fixpoint decimal (s : string) (acc : Z) : option Z :=
  match s with
  | EmptyString => Some acc
  | String c r =>
      if isDecimalDigit c then decimal r (acc * 10 + (Js.code c - 48))
      else None
  end.

(** "Parses as a base-10 integer", read strictly: an optional sign and
    then decimal digits, at least one, and nothing else. *)
Definition base10 (s : string) : option Z :=
  match s with
  | EmptyString => None
  | String "-" EmptyString | String "+" EmptyString => None
  | String "-" r => option_map Z.opp (decimal r 0)
  | String "+" r => decimal r 0
  | _ => decimal s 0
  end.

(** The same, read loosely: white space, an optional sign and then as
    many decimal digits as there are, at least one; the rest is
    ignored. *)
Definition base10Prefix (s : string) : option Z :=
  match Js.trimStart s with
  | String "-" r => option_map Z.opp (Js.digitsPrefix 10 r None)
  | String "+" r => Js.digitsPrefix 10 r None
  | r => Js.digitsPrefix 10 r None
  end.

(** Two row ids in order: by their numbers when [parse] reads one from
    each, and as strings otherwise. *)
Definition ordered (parse : string -> option Z) (a b : string) : bool :=
  match parse a, parse b with
  | Some x, Some y => x <=? y
  | _, _ => (a <=? b)%string
  end.

(** The issues of the row [k]. *)
Definition sameRow (k : string) (i : AuditReportView.Issue.t) : bool :=
  String.eqb (AuditReportView.Issue.rowId i) k.

(** [y] is neither before nor after [x] for the comparator. *)
Definition tie {A : Type} (cmp : A -> A -> Z) (x y : A) : bool :=
  cmp x y =? 0.

(** The issues whose row id reads as the number [n]. *)
Definition sameNumber (n : Z) (i : AuditReportView.Issue.t) : bool :=
  match Js.parseInt (AuditReportView.Issue.rowId i) with
  | Some m => m =? n
  | None => false
  end.

(** The comparator is transitive on the issues of [l]: it orders them
    consistently. *)
Definition consistentOn (localeCompare : string -> string -> Z)
    (l : list AuditReportView.Issue.t) : bool :=
  forallb (fun a =>
    forallb (fun b =>
      forallb (fun c =>
        implb ((AuditReportView.compareIssues localeCompare a b <=? 0)
               && (AuditReportView.compareIssues localeCompare b c <=? 0))
              (AuditReportView.compareIssues localeCompare a c <=? 0))
        l) l) l.

(** What every collation does: reversing the two strings reverses the
    sign of the answer, so a string compares equal to itself. *)
Definition collates (localeCompare : string -> string -> Z) : Prop :=
  forall a b : string, localeCompare a b < 0 <-> 0 < localeCompare b a.

(** The issues that come from the primary-key check. *)
Definition isPkIssue (i : AuditReportView.Issue.t) : bool :=
  String.eqb (AuditReportView.Issue.errorType i) "PK Null"
  || String.eqb (AuditReportView.Issue.errorType i) "PK Duplicate".

(** Some primary-key column has no value in the sample, or an empty
    one: "falsy or absent". *)
Definition hasNullKey (columns : list string) (sample : Row) : Prop :=
  exists col, In col columns
              /\ (get col sample = None \/ get col sample = Some EmptyString).

(** The character [c] occurs in [s]. *)
Fixpoint occurs (c : ascii) (s : string) : bool :=
  match s with
  | EmptyString => false
  | String d r => Ascii.eqb d c || occurs c r
  end.

Fixpoint allWhite (s : string) : bool :=
  match s with
  | EmptyString => true
  | String c r => Js.isWhiteSpace c && allWhite r
  end.

Definition startsWhite (s : string) : bool :=
  match s with
  | EmptyString => false
  | String c _ => Js.isWhiteSpace c
  end.

Definition endsWhite (s : string) : bool :=
  startsWhite (Js.rev_string s).

(** [token] is [piece] without the white space at its two ends. *)
Definition trimmedTo (piece token : string) : Prop :=
  exists pre post : string,
    piece = (pre ++ token ++ post)%string
    /\ allWhite pre = true /\ allWhite post = true
    /\ startsWhite token = false /\ endsWhite token = false.

(** The attribute after a merge: the one the partial names, or else the
    old one. *)
Definition mergedAttr {A : Type} (old : A) (named : option A) (new : A)
  : Prop :=
  match named with
  | Some v => new = v
  | None => new = old
  end.

Inductive Failure := IndexOutOfRange | ValidationError.

(** [update_schema_field(index, partial)] of section 4.1: the merge
    inside the bounds, a failure outside. *)
Definition update_schema_field (index : Z)
    (partial : PartialSchemaField.t) (c : AuditConfig.t)
  : Failure + AuditConfig.t :=
  if index <? 0 then inl IndexOutOfRange
  else
    match AuditConfig.schema c !! Z.to_nat index with
    | Some old =>
        inr (AuditConfig.mk (AuditConfig.dataset_name c)
               (AuditConfig.primary_key c)
               (<[Z.to_nat index :=
                    AuditConfigForm.spreadSchemaField old partial]>
                  (AuditConfig.schema c))
               (AuditConfig.rules c))
    | None => inl IndexOutOfRange
    end.

(** The state an update leaves is the one the specification asks for.
    An update always leaves a state, and a failure asks for none. *)
Definition realises (code : AuditConfigForm.Updated)
    (spec : Failure + AuditConfig.t) : Prop :=
  match spec with
  | inr c => code = AuditConfigForm.updatedOf c
  | inl _ => False
  end.


(** A token as the "Allowed values" input stores them: not empty, no
    comma, no white space at either end. *)
Definition cleanToken (token : string) : bool :=
  Js.truthy token && negb (occurs "," token)
  && negb (startsWhite token) && negb (endsWhite token).

(** The property [named] of a later partial over that of an earlier
    one. *)
Definition later {A : Type} (earlier named : option A) : option A :=
  match named with
  | Some v => Some v
  | None => earlier
  end.

(** The partial that names what [p] or [q] names, with the value of [q]
    where both do: [{ ...p, ...q }]. *)
Definition thenPartial (p q : PartialSchemaField.t) : PartialSchemaField.t :=
  PartialSchemaField.mk
    (later (PartialSchemaField.name p) (PartialSchemaField.name q))
    (later (PartialSchemaField.dtype p) (PartialSchemaField.dtype q))
    (later (PartialSchemaField.nullable p) (PartialSchemaField.nullable q))
    (later (PartialSchemaField.description p)
           (PartialSchemaField.description q))
    (later (PartialSchemaField.min p) (PartialSchemaField.min q))
    (later (PartialSchemaField.max p) (PartialSchemaField.max q))
    (later (PartialSchemaField.allowed_values p)
           (PartialSchemaField.allowed_values q))
    (later (PartialSchemaField.regex p) (PartialSchemaField.regex q)).

(** A row number as the engine writes it: decimal digits, at least
    one. *)
Fixpoint allDigits (s : string) : bool :=
  match s with
  | EmptyString => true
  | String c r => isDecimalDigit c && allDigits r
  end.

Definition plainNumeral (s : string) : bool :=
  Js.truthy s && allDigits s.

(** A plain numeral of a number below [2^53]. *)
Definition safeNumeral (s : string) : bool :=
  plainNumeral s
  && match decimal s 0 with
     | Some n => n <? 2 ^ 53
     | None => false
     end.

(** The row of a sample is numbered by a plain numeral below [2^53], or
    the sample has no row. *)
Definition safeLine (sample : Row) : Prop :=
  match get "__line__" sample with
  | Some line => safeNumeral line = true
  | None => True
  end.

(** The collation puts every plain numeral before the text [n/a]. *)
Definition numeralsFirst (localeCompare : string -> string -> Z) : Prop :=
  forall s : string, plainNumeral s = true -> localeCompare s "n/a" < 0.

(** [c] is a digit of radix [R]. *)
Definition isDigitIn (R : Z) (c : ascii) : bool :=
  match Js.digitValue c with
  | Some d => d <? R
  | None => false
  end.

Fixpoint allDigitsIn (R : Z) (s : string) : bool :=
  match s with
  | EmptyString => true
  | String c r => isDigitIn R c && allDigitsIn R r
  end.

Definition startsDigitIn (R : Z) (s : string) : bool :=
  match s with
  | EmptyString => false
  | String c _ => isDigitIn R c
  end.

(** The number that the digits [s] write in radix [R], after the digits
    that gave [acc]. *)
Fixpoint valueIn (R : Z) (s : string) (acc : Z) : Z :=
  match s with
  | EmptyString => acc
  | String c r =>
      valueIn R r (acc * R + match Js.digitValue c with
                             | Some d => d
                             | None => 0
                             end)
  end.

(** [s] starts with [0x] or [0X]. *)
Definition hexMarked (s : string) : bool :=
  match s with
  | String c (String d _) =>
      Ascii.eqb c "0" && (Ascii.eqb d "x" || Ascii.eqb d "X")
  | _ => false
  end.

(** The row id [s] reads as the number [n]: after white space and at
    most one sign come either decimal digits, not starting with [0x] or
    [0X], or one of these two marks and hexadecimal digits; the digits
    are at least one and as many as there are, what follows them is
    ignored, and [n] is the number they write, negated after the sign
    [-]. *)
Definition reads (s : string) (n : Z) : Prop :=
  exists (ws sign mark digits rest : string) (R : Z),
    s = (ws ++ sign ++ mark ++ digits ++ rest)%string
    /\ allWhite ws = true
    /\ (sign = EmptyString \/ sign = "+" \/ sign = "-")
    /\ ((mark = EmptyString /\ R = 10
         /\ hexMarked (digits ++ rest) = false)
        \/ ((mark = "0x" \/ mark = "0X") /\ R = 16))
    /\ digits <> EmptyString
    /\ allDigitsIn R digits = true
    /\ startsDigitIn R rest = false
    /\ n = (if String.eqb sign "-" then -1 else 1) * valueIn R digits 0.

(** Two row ids in the order of the log: by their numbers when both
    read as a number, and by the collation when one of them does not. *)
Definition rowOrder (localeCompare : string -> string -> Z)
    (a b : string) : Prop :=
  (exists x y : Z, reads a x /\ reads b y /\ x <= y)
  \/ (((forall x, ~ reads a x) \/ (forall y, ~ reads b y))
      /\ localeCompare a b <= 0).

(** Every number read from a row id of [l] is of size below [2^53]. *)
Definition safeNumbers (l : list AuditReportView.Issue.t) : bool :=
  forallb (fun i =>
             match Js.parseInt (AuditReportView.Issue.rowId i) with
             | Some n => Z.abs n <? 2 ^ 53
             | None => true
             end) l.

(** Every sample row a report carries, whether it gives an issue or
    not. *)
Definition sampleRows (report : AuditReport.t) : list Row :=
  flat_map (fun rule => match RuleResult.sample_rows rule with
                        | Some rows => rows
                        | None => []
                        end)
           (AuditReport.rule_results report)
  ++ flat_map (fun mv => match MissingValueStat.sample_rows mv with
                         | Some rows => rows
                         | None => []
                         end)
              (AuditReport.missing_values report)
  ++ match AuditReport.primary_key_result report with
     | Some pk => PrimaryKeyResult.sample_rows pk
     | None => []
     end.

(** Numbered rows by their numbers, and the rows without a number after
    all of them. *)
Definition lineOrder (a b : option Z) : Prop :=
  match a, b with
  | Some x, Some y => x <= y
  | Some _, None => True
  | None, Some _ => False
  | None, None => True
  end.

(** The number of issues a rule result gives: its sample rows if it did
    not pass. *)
Definition ruleCount (rule : RuleResult.t) : nat :=
  match RuleResult.passed rule, RuleResult.sample_rows rule with
  | false, Some rows => length rows
  | _, _ => 0%nat
  end.

(** The number of issues a missing-value entry gives: its sample rows if
    its count is positive. *)
Definition missingCount (mv : MissingValueStat.t) : nat :=
  match (0 <? MissingValueStat.missing_count mv)%Z,
        MissingValueStat.sample_rows mv with
  | true, Some rows => length rows
  | _, _ => 0%nat
  end.

Definition pkCount (primary_key_result : option PrimaryKeyResult.t) : nat :=
  match primary_key_result with
  | Some pk => length (PrimaryKeyResult.sample_rows pk)
  | None => 0%nat
  end.
End Spec.

(** ** Sample data *)

Module Examples.

Definition config0 : AuditConfig.t :=
  AuditConfig.mk "uploaded_dataset" (Some []) [] [].

Definition summary (issues_found : Z) : AuditSummary.t :=
  AuditSummary.mk "uploaded_dataset" 100 3 "2024-01-01T00:00:00" Pandas
                  issues_found.

Definition report (id : string) (issues_found : Z)
    (schema_results : list SchemaResult.t)
    (missing_values : list MissingValueStat.t)
    (rule_results : list RuleResult.t)
    (primary_key_result : option PrimaryKeyResult.t) : AuditReport.t :=
  AuditReport.mk id (summary issues_found) schema_results missing_values
                 rule_results primary_key_result [] config0 "data.csv".

(** Two primary-key samples, on the lines [0x1A] and [5]. *)
Definition hexLines : AuditReport.t :=
  report "r1" 2 [] [] []
    (Some (PrimaryKeyResult.mk ["id"] 2 0
             [[("id", "7"); ("__line__", "0x1A")];
              [("id", "7"); ("__line__", "5")]])).

(** Samples of all three kinds; some lines occur twice. *)
Definition mixed : AuditReport.t :=
  report "r2" 5 []
    [MissingValueStat.mk "age" 3 (15 # 1)
       (Some [[("__line__", "10")]; [("name", "bo")]])]
    [RuleResult.mk "age_positive" Warning false 2
       (Some [[("age", "-1"); ("__line__", "10")];
              [("age", "-3"); ("__line__", "9")]])
       None]
    (Some (PrimaryKeyResult.mk ["id"; "name"] 1 1
             [[("id", "4"); ("name", "al"); ("__line__", "9")];
              [("id", EmptyString); ("name", "cy"); ("__line__", "2")];
              [("name", "di"); ("__line__", "3")]])).

(** Nothing but one column the schema check reports missing. *)
Definition schemaOnly : AuditReport.t :=
  report "r3" 1
    [SchemaResult.mk "email" DString None StatusMissing None] [] [] None.

Definition fieldA : SchemaField.t :=
  SchemaField.mk "field_1" DString true None None None None None.

Definition fieldB : SchemaField.t :=
  SchemaField.mk "field_2" DInteger false None (Some (0 # 1)) None None
                 None.

Definition ruleA : RuleDefinition.t :=
  RuleDefinition.mk "Rule 1" "1 = 1" Warning (Some EmptyString).

Definition config2 : AuditConfig.t :=
  AuditConfig.mk "uploaded_dataset" (Some ["field_1"]) [fieldA; fieldB]
                 [ruleA].

Definition rename : PartialSchemaField.t :=
  PartialSchemaField.mk (Some "id") None None None None None None None.

(** A collation for the examples: the order of the code units. *)
Definition collation (a b : string) : Z :=
  match String.compare a b with
  | Lt => -1
  | Eq => 0
  | Gt => 1
  end.

(** A primary key on the column [constructor], and three sample rows:
    without the column, with an empty value and with a value. *)
Definition inheritedKey : AuditReport.t :=
  report "r6" 3 [] [] []
    (Some (PrimaryKeyResult.mk ["constructor"] 0 2
             [[("team", "Lotus"); ("__line__", "4")];
              [("constructor", EmptyString); ("__line__", "5")];
              [("constructor", "Lotus"); ("__line__", "6")]])).

(** Three row ids the comparator orders in a circle. *)
Definition circle : list AuditReportView.Issue.t :=
  map (fun line =>
         AuditReportView.Issue.mk line "NULL / Empty" "Missing Value"
                                  "age" Warning)
      ["5"; " 7"; "+"].

(** Four issues, each of which the comparator puts strictly after the
    next; the first and the last are of one row. *)
Definition descending : list AuditReportView.Issue.t :=
  [AuditReportView.Issue.mk "5" "NULL / Empty" "Missing Value" "age"
                            Warning;
   AuditReportView.Issue.mk "+" "NULL / Empty" "Missing Value" "age"
                            Warning;
   AuditReportView.Issue.mk " 7" "NULL / Empty" "Missing Value" "age"
                            Warning;
   AuditReportView.Issue.mk "5" "NULL / Empty" "Missing Value" "name"
                            Warning].

(** A gateway that knows the reports [a] and [b]. *)
Definition gateway (path : string) : string + AuditReport.t :=
  if String.eqb path "/reports/a" then inr (report "a" 5 [] [] [] None)
  else if String.eqb path "/reports/b" then inr (report "b" 3 [] [] [] None)
  else inl "Not Found".


(** A server that answers every request with an error status and an
    empty body, a network that is down, and a server that accepts every
    request. *)
Definition refusing (request : Api.Request) : string + Api.Response :=
  inr (Api.mkResponse false EmptyString).

Definition offline (request : Api.Request) : string + Api.Response :=
  inl "Failed to fetch".

Definition accepting (request : Api.Request) : string + Api.Response :=
  inr (Api.mkResponse true "{}").

(** Decoders: one that reads every body as the report [a] with 5 issues,
    one that reads every body as an empty list, and one that fails. *)
Definition readsReport (body : string) : string + AuditReport.t :=
  inr (report "a" 5 [] [] [] None).

Definition readsNone {T : Type} (body : string) : string + list T :=
  inr [].

Definition readsConfig (body : string) : string + AuditConfig.t :=
  inr config2.

Definition unreadable {T : Type} (body : string) : string + T :=
  inl "Unexpected end of JSON input".

(** A page on which a file is chosen and the report [a] is shown. *)
Definition page : Home.State :=
  Home.mkState config2 (Some "id,name") (Some (report "a" 5 [] [] [] None))
               [StoredReportMetadata.mk "a" "uploaded_dataset"
                  "2024-01-01T00:00:00" 5 None]
               false EmptyString false ["id"; "name"].
End Examples.

(** * Properties *)

(** ** The sort *)

Lemma Sorted_impl {A : Type} (R S : A -> A -> Prop) (l : list A) :
  (forall a b, R a b -> S a b) -> Sorted R l -> Sorted S l.
Proof.
  intros HRS. induction 1 as [|x l Hs IH Hhd]; constructor.
  - assumption.
  - destruct Hhd; constructor. now apply HRS.
Qed.

(** In a list in which each element and the next are in order, every
    earlier element is in order with every later one, as soon as the
    order is transitive on the elements of the list. *)
Lemma Sorted_StronglySorted_on {A : Type} (R : A -> A -> Prop)
    (l : list A) :
  (forall a b c, In a l -> In b l -> In c l -> R a b -> R b c -> R a c) ->
  Sorted R l -> StronglySorted R l.
Proof.
  intros Htrans Hs.
  induction Hs as [|x l Hs IH Hhd]; constructor.
  - apply IH. intros a b c Ha Hb Hc. apply Htrans; now right.
  - assert (Hl : StronglySorted R l).
    { apply IH. intros a b c Ha Hb Hc. apply Htrans; now right. }
    destruct Hhd as [|y l Hxy]; constructor; [assumption|].
    apply StronglySorted_inv in Hl as [_ Hy].
    rewrite Forall_forall in Hy |- *.
    intros z Hz.
    apply (Htrans x y z); simpl; auto.
Qed.

Lemma StronglySorted_impl_on {A : Type} (R S : A -> A -> Prop)
    (l : list A) :
  (forall a b, In a l -> In b l -> R a b -> S a b) ->
  StronglySorted R l -> StronglySorted S l.
Proof.
  intros HRS Hs.
  induction Hs as [|x l Hs IH Hx]; constructor.
  - apply IH. intros a b Ha Hb. apply HRS; now right.
  - rewrite Forall_forall in Hx |- *.
    intros y Hy. apply HRS; [now left | now right | now apply Hx].
Qed.

Section SortFacts.
Context {A : Type} (cmp : A -> A -> Z).

Let before (a b : A) : Prop := cmp a b <= 0.

Lemma insert_Permutation (x : A) (l : list A) :
  Permutation (x :: l) (Js.insert cmp x l).
Proof.
  induction l as [|y l IH]; simpl.
  - apply Permutation_refl.
  - destruct (0 <? cmp x y).
    + eapply perm_trans; [apply perm_swap|].
      now apply perm_skip.
    + apply Permutation_refl.
Qed.

Lemma sort_Permutation (l : list A) : Permutation l (Js.sort cmp l).
Proof.
  induction l as [|x l IH]; simpl.
  - constructor.
  - eapply perm_trans; [apply perm_skip, IH|].
    apply insert_Permutation.
Qed.

Lemma In_sort (x : A) (l : list A) : In x (Js.sort cmp l) -> In x l.
Proof.
  apply Permutation_in, Permutation_sym, sort_Permutation.
Qed.

(** An element passes only what the comparator puts it strictly after,
    so what a predicate selects keeps its order as soon as the
    comparator puts no selected element strictly after another. *)
Lemma insert_filter (p : A -> bool) (x : A) (l : list A) :
  (forall y, In y l -> p x = true -> p y = true -> cmp x y <= 0) ->
  filter p (Js.insert cmp x l) = filter p (x :: l).
Proof.
  induction l as [|y l IH]; intros Hp; [reflexivity|].
  simpl. destruct (0 <? cmp x y) eqn:Hxy; [|reflexivity].
  apply Z.ltb_lt in Hxy.
  simpl in *. rewrite IH by (intros z Hz; apply Hp; now right).
  destruct (p x) eqn:Hx; [|reflexivity].
  destruct (p y) eqn:Hy; [|reflexivity].
  specialize (Hp y (or_introl eq_refl) eq_refl Hy). lia.
Qed.

Lemma sort_filter (p : A -> bool) (l : list A) :
  (forall a b, In a l -> In b l ->
               p a = true -> p b = true -> cmp a b <= 0) ->
  filter p (Js.sort cmp l) = filter p l.
Proof.
  induction l as [|x l IH]; intros Hp; [reflexivity|].
  simpl Js.sort. rewrite insert_filter.
  - simpl. rewrite IH; [reflexivity|].
    intros a b Ha Hb. apply Hp; now right.
  - intros y Hy. apply Hp; [now left | right; now apply In_sort].
Qed.

Section Flip.
(** The comparator never puts each of two elements strictly after the
    other. *)
Hypothesis cmp_flip : forall a b, 0 < cmp a b -> cmp b a <= 0.

Lemma insert_HdRel (x y : A) (l : list A) :
  before y x -> HdRel before y l -> HdRel before y (Js.insert cmp x l).
Proof.
  intros Hyx Hl.
  destruct l as [|z l]; simpl.
  - now constructor.
  - inversion Hl; subst.
    destruct (0 <? cmp x z); now constructor.
Qed.

Lemma insert_Sorted (x : A) (l : list A) :
  Sorted before l -> Sorted before (Js.insert cmp x l).
Proof.
  induction 1 as [|y l Hs IH Hhd]; simpl.
  - repeat constructor.
  - destruct (0 <? cmp x y) eqn:Hxy.
    + apply Z.ltb_lt in Hxy.
      constructor; [assumption|].
      apply insert_HdRel; [|assumption].
      now apply cmp_flip.
    + apply Z.ltb_ge in Hxy.
      constructor; [now constructor|].
      now constructor.
Qed.

Lemma sort_Sorted (l : list A) : Sorted before (Js.sort cmp l).
Proof.
  induction l as [|x l IH]; simpl.
  - constructor.
  - now apply insert_Sorted.
Qed.
End Flip.

Section Unique.
(** Reversing the arguments reverses the sign. *)
Hypothesis cmp_sign : forall a b, cmp a b < 0 <-> 0 < cmp b a.

Lemma cmp_refl (a : A) : cmp a a = 0.
Proof.
  pose proof (cmp_sign a a). lia.
Qed.

Lemma cmp_zero_sym (a b : A) : cmp a b = 0 -> cmp b a = 0.
Proof.
  pose proof (cmp_sign a b). pose proof (cmp_sign b a). lia.
Qed.

(** Two arrangements of the same elements that are both in order and
    hold the elements of every tie in the same order are the same
    list. *)
Lemma sorted_stable_unique (l1 l2 : list A) :
  Permutation l1 l2 ->
  StronglySorted before l1 -> StronglySorted before l2 ->
  (forall x, In x l1 ->
             filter (Spec.tie cmp x) l1 = filter (Spec.tie cmp x) l2) ->
  l1 = l2.
Proof.
  revert l2.
  induction l1 as [|a t1 IH]; intros l2 Hperm Hs1 Hs2 Hst.
  - apply Permutation_nil in Hperm. now subst.
  - destruct l2 as [|b t2].
    { apply Permutation_sym, Permutation_nil in Hperm. discriminate. }
    apply StronglySorted_inv in Hs1 as [Hs1 Ha].
    apply StronglySorted_inv in Hs2 as [Hs2 Hb].
    rewrite Forall_forall in Ha, Hb.
    assert (Hab : cmp a b = 0).
    { assert (H1 : before a b).
      { assert (Hin : In b (a :: t1))
          by (eapply Permutation_in;
              [apply Permutation_sym; eassumption | now left]).
        destruct Hin as [<- | Hin].
        - unfold before. rewrite cmp_refl. lia.
        - now apply Ha. }
      assert (H2 : before b a).
      { assert (Hin : In a (b :: t2))
          by (eapply Permutation_in; [eassumption | now left]).
        destruct Hin as [<- | Hin].
        - unfold before. rewrite cmp_refl. lia.
        - now apply Hb. }
      unfold before in *. pose proof (cmp_sign a b). lia. }
    assert (Heq : a = b).
    { specialize (Hst a (or_introl eq_refl)). simpl in Hst.
      assert (Haa : Spec.tie cmp a a = true)
        by (unfold Spec.tie; now rewrite cmp_refl).
      assert (Htie : Spec.tie cmp a b = true)
        by (unfold Spec.tie; now rewrite Hab).
      rewrite Haa, Htie in Hst. congruence. }
    subst b. f_equal. apply IH; trivial.
    + now apply Permutation_cons_inv in Hperm.
    + intros x Hx. specialize (Hst x (or_intror Hx)). simpl in Hst.
      destruct (Spec.tie cmp x a); congruence.
Qed.

(** Where the comparator is transitive on the elements of [l], the
    model's result is the only arrangement of [l] that is in order and
    keeps the order of every tie. *)
Lemma sort_unique (l l' : list A) :
  (forall a b c, In a l -> In b l -> In c l ->
                 before a b -> before b c -> before a c) ->
  Permutation l l' ->
  StronglySorted before l' ->
  (forall x, In x l ->
             filter (Spec.tie cmp x) l' = filter (Spec.tie cmp x) l) ->
  l' = Js.sort cmp l.
Proof.
  intros Htrans Hperm Hs Hst.
  assert (Hflip : forall a b, 0 < cmp a b -> cmp b a <= 0).
  { intros a b Hab. pose proof (cmp_sign b a). lia. }
  apply sorted_stable_unique; trivial.
  - eapply perm_trans; [apply Permutation_sym, Hperm|].
    apply sort_Permutation.
  - apply Sorted_StronglySorted_on; [|now apply sort_Sorted].
    intros a b c Ha Hb Hc. apply Htrans; now apply In_sort.
  - intros x Hx.
    assert (Hxl : In x l)
      by (eapply Permutation_in; [apply Permutation_sym|]; eassumption).
    rewrite (Hst x Hxl). symmetry. apply sort_filter.
    intros a b Ha Hb Hta Htb. unfold Spec.tie in Hta, Htb.
    apply Z.eqb_eq in Hta, Htb.
    apply (Htrans a x b); trivial; unfold before.
    + rewrite (cmp_zero_sym x a Hta). lia.
    + lia.
Qed.
End Unique.
End SortFacts.

(** ** Row numbers *)

Section RowNumbers.

Lemma trimStart_spec (s : string) :
  exists pre : string,
    s = (pre ++ Js.trimStart s)%string
    /\ Spec.allWhite pre = true
    /\ Spec.startsWhite (Js.trimStart s) = false.
Proof.
  induction s as [|c s (pre & Hs & Hpre & Hstart)]; simpl.
  - now exists EmptyString.
  - destruct (Js.isWhiteSpace c) eqn:Hc.
    + exists (String c pre). simpl. rewrite Hc, Hpre, <- Hs. auto.
    + exists EmptyString. simpl. auto.
Qed.

Lemma trimStart_white (w s : string) :
  Spec.allWhite w = true -> Js.trimStart (w ++ s) = Js.trimStart s.
Proof.
  induction w as [|ch w IH]; simpl; [reflexivity|].
  intros H. apply andb_true_iff in H as [Hch Hw].
  now rewrite Hch, IH.
Qed.

Lemma trimStart_id (s : string) :
  Spec.startsWhite s = false -> Js.trimStart s = s.
Proof.
  destruct s as [|ch s]; simpl; [reflexivity|].
  now intros ->.
Qed.

(** A digit is neither white space nor a sign. *)
Lemma digit_not_white (R : Z) (c : ascii) :
  Spec.isDigitIn R c = true -> Js.isWhiteSpace c = false.
Proof.
  destruct c as [[] [] [] [] [] [] [] []]; intros H;
    first [reflexivity | vm_compute in H; discriminate H].
Qed.

Lemma digit_not_sign (R : Z) (c : ascii) :
  Spec.isDigitIn R c = true ->
  Ascii.eqb c "-" = false /\ Ascii.eqb c "+" = false.
Proof.
  intros H.
  split; apply Ascii.eqb_neq; intros ->; vm_compute in H; discriminate H.
Qed.

Lemma startsWith_true (c : ascii) (s : string) :
  Js.startsWith c s = true -> s = String c (Js.tail s).
Proof.
  destruct s as [|d s]; simpl; [discriminate|].
  intros H. apply Ascii.eqb_eq in H. now subst.
Qed.

Lemma hexMarked_startsWith (s : string) :
  Js.startsWith "0" s
  && (Js.startsWith "x" (Js.tail s) || Js.startsWith "X" (Js.tail s))
  = Spec.hexMarked s.
Proof.
  destruct s as [|c [|d s]]; simpl; try reflexivity.
  apply andb_false_r.
Qed.

Lemma hexMarked_true (s : string) :
  Spec.hexMarked s = true ->
  s = ("0x" ++ Js.tail (Js.tail s))%string
  \/ s = ("0X" ++ Js.tail (Js.tail s))%string.
Proof.
  destruct s as [|c [|d s]]; simpl; try discriminate.
  intros H. apply andb_true_iff in H as [Hc Hd].
  apply Ascii.eqb_eq in Hc. subst c.
  apply orb_true_iff in Hd as [Hd | Hd]; apply Ascii.eqb_eq in Hd; subst d;
    auto.
Qed.

(** What [digitsPrefix] reads is the value of the longest prefix of
    digits. *)
Lemma digitsPrefix_Some (R : Z) (s : string) (acc : option Z) (v : Z) :
  Js.digitsPrefix R s acc = Some v ->
  exists digits rest : string,
    s = (digits ++ rest)%string
    /\ Spec.allDigitsIn R digits = true
    /\ Spec.startsDigitIn R rest = false
    /\ match acc with
       | Some a => v = Spec.valueIn R digits a
       | None => digits <> EmptyString /\ v = Spec.valueIn R digits 0
       end.
Proof.
  revert acc. induction s as [|c s IH]; intros acc H; simpl in H.
  - exists EmptyString, EmptyString.
    destruct acc; [|discriminate]. injection H as ->. simpl. auto.
  - assert (Hstop : Spec.isDigitIn R c = false -> acc = Some v ->
      exists digits rest : string,
        String c s = (digits ++ rest)%string
        /\ Spec.allDigitsIn R digits = true
        /\ Spec.startsDigitIn R rest = false
        /\ match acc with
           | Some a => v = Spec.valueIn R digits a
           | None => digits <> EmptyString /\ v = Spec.valueIn R digits 0
           end).
    { intros Hc ->. exists EmptyString, (String c s). simpl. auto. }
    unfold Spec.isDigitIn in Hstop.
    destruct (Js.digitValue c) as [d|] eqn:Hd; [|now apply Hstop].
    destruct (d <? R) eqn:HdR; [|now apply Hstop].
    clear Hstop.
    apply IH in H as (digits & rest & -> & Hall & Hrest & Hv).
    exists (String c digits), rest. simpl.
    unfold Spec.isDigitIn. rewrite Hd, HdR, Hall.
    repeat split; trivial.
    destruct acc as [a|]; simpl in *.
    + exact Hv.
    + split; [discriminate | exact Hv].
Qed.

Lemma digitsPrefix_stop (R : Z) (s : string) (acc : option Z) :
  Spec.startsDigitIn R s = false -> Js.digitsPrefix R s acc = acc.
Proof.
  destruct s as [|c s]; simpl; [reflexivity|].
  unfold Spec.isDigitIn.
  destruct (Js.digitValue c); [|reflexivity]. now intros ->.
Qed.

Lemma digitsPrefix_digits (R : Z) (digits rest : string) (a : Z) :
  Spec.allDigitsIn R digits = true -> Spec.startsDigitIn R rest = false ->
  Js.digitsPrefix R (digits ++ rest) (Some a)
  = Some (Spec.valueIn R digits a).
Proof.
  intros Hall Hrest. revert a Hall.
  induction digits as [|c digits IH]; simpl; intros a Hall.
  - now apply digitsPrefix_stop.
  - apply andb_true_iff in Hall as [Hc Hall].
    unfold Spec.isDigitIn in Hc.
    destruct (Js.digitValue c) as [d|]; [|discriminate].
    rewrite Hc. now apply IH.
Qed.

Lemma digitsPrefix_first (R : Z) (digits rest : string) :
  digits <> EmptyString ->
  Spec.allDigitsIn R digits = true -> Spec.startsDigitIn R rest = false ->
  Js.digitsPrefix R (digits ++ rest) None
  = Some (Spec.valueIn R digits 0).
Proof.
  destruct digits as [|c digits]; [congruence|].
  intros _ Hall Hrest. simpl in *.
  apply andb_true_iff in Hall as [Hc Hall].
  unfold Spec.isDigitIn in Hc.
  destruct (Js.digitValue c) as [d|]; [|discriminate].
  rewrite Hc. now apply digitsPrefix_digits.
Qed.

(** [parseInt] reads a number from a row id exactly when the row id
    reads as that number. *)
Lemma parseInt_reads (s : string) (n : Z) :
  Js.parseInt s = Some n <-> Spec.reads s n.
Proof.
  unfold Js.parseInt. split.
  - destruct (trimStart_spec s) as (ws & Hs & Hws & Hstart).
    set (t := Js.trimStart s) in *.
    rewrite hexMarked_startsWith.
    set (unsigned := if Js.startsWith "-" t || Js.startsWith "+" t
                     then Js.tail t else t).
    assert (Hsign : exists sign : string,
      t = (sign ++ unsigned)%string
      /\ (sign = EmptyString \/ sign = "+" \/ sign = "-")
      /\ (if Js.startsWith "-" t then -1 else 1)
         = (if String.eqb sign "-" then -1 else 1)).
    { subst unsigned.
      destruct (Js.startsWith "-" t) eqn:Hneg.
      - exists "-". apply startsWith_true in Hneg. simpl. auto.
      - destruct (Js.startsWith "+" t) eqn:Hpos.
        + exists "+". apply startsWith_true in Hpos. simpl. auto.
        + exists EmptyString. simpl. auto. }
    destruct Hsign as (sign & Ht & Hsign & ->).
    destruct (Spec.hexMarked unsigned) eqn:Hhex.
    + destruct (Js.digitsPrefix 16 _ None) as [v|] eqn:Hv; [|discriminate].
      simpl. intros [= <-].
      apply digitsPrefix_Some in Hv
        as (digits & rest & Hbody & Hall & Hrest & Hne & ->).
      apply hexMarked_true in Hhex.
      rewrite Hbody in Hhex.
      destruct Hhex as [Hu | Hu].
      * exists ws, sign, "0x", digits, rest, 16.
        rewrite Hs, Ht, Hu. repeat split; auto.
      * exists ws, sign, "0X", digits, rest, 16.
        rewrite Hs, Ht, Hu. repeat split; auto.
    + destruct (Js.digitsPrefix 10 _ None) as [v|] eqn:Hv; [|discriminate].
      simpl. intros [= <-].
      apply digitsPrefix_Some in Hv
        as (digits & rest & Hbody & Hall & Hrest & Hne & ->).
      exists ws, sign, EmptyString, digits, rest, 10.
      rewrite Hs, Ht, Hbody. rewrite Hbody in Hhex.
      repeat split; auto.
  - intros (ws & sign & mark & digits & rest & R & -> & Hws & Hsign & Hmark
            & Hne & Hall & Hrest & ->).
    rewrite trimStart_white by assumption.
    destruct digits as [|c digits]; [congruence|].
    pose proof Hall as Hc. simpl in Hc.
    apply andb_true_iff in Hc as [Hc _].
    pose proof (digit_not_white R c Hc) as Hcw.
    destruct (digit_not_sign R c Hc) as [Hcm Hcp].
    rewrite hexMarked_startsWith.
    destruct Hsign as [-> | [-> | ->]];
      destruct Hmark as [(-> & -> & Hhex) | ([-> | ->] & ->)];
      simpl String.append;
      try (change (String c digits ++ rest)%string
             with (String c (digits ++ rest)) in Hhex);
      (rewrite trimStart_id; [|simpl; first [exact Hcw | reflexivity]]);
      simpl Js.startsWith; rewrite ?Hcm, ?Hcp; simpl orb; cbv iota;
      simpl Js.tail; rewrite ?Hhex; simpl Spec.hexMarked; cbv iota;
      simpl Js.tail;
      change (String c (digits ++ rest))
        with (String c digits ++ rest)%string;
      rewrite digitsPrefix_first by (trivial; discriminate);
      reflexivity.
Qed.

Lemma reads_unique (s : string) (x y : Z) :
  Spec.reads s x -> Spec.reads s y -> x = y.
Proof.
  intros Hx Hy. apply parseInt_reads in Hx, Hy. congruence.
Qed.

End RowNumbers.

(** ** The issue log *)

Section IssueLog.
Import AuditReportView.

(** [String.prototype.localeCompare] of the engine that runs the page. *)
Variable localeCompare : string -> string -> Z.

Section Collation.
Hypothesis localeCompare_sign : Spec.collates localeCompare.

Lemma compareIssues_sign (a b : Issue.t) :
  compareIssues localeCompare a b < 0
  <-> 0 < compareIssues localeCompare b a.
Proof.
  unfold compareIssues.
  destruct (Js.parseInt (Issue.rowId a)), (Js.parseInt (Issue.rowId b));
    try apply localeCompare_sign.
  lia.
Qed.

Lemma compareIssues_flip (a b : Issue.t) :
  0 < compareIssues localeCompare a b ->
  compareIssues localeCompare b a <= 0.
Proof.
  intros H. pose proof (compareIssues_sign b a). lia.
Qed.

(** Two issues of one row id compare equal. *)
Lemma compareIssues_same_row (a b : Issue.t) :
  Issue.rowId a = Issue.rowId b -> compareIssues localeCompare a b = 0.
Proof.
  unfold compareIssues. intros ->.
  destruct (Js.parseInt (Issue.rowId b)); [lia|].
  pose proof (localeCompare_sign (Issue.rowId b) (Issue.rowId b)). lia.
Qed.
End Collation.

(** The comparator puts [a] no later than [b] exactly when their row
    ids are in the order of the log. *)
Lemma compareIssues_rowOrder (a b : Issue.t) :
  compareIssues localeCompare a b <= 0
  <-> Spec.rowOrder localeCompare (Issue.rowId a) (Issue.rowId b).
Proof.
  unfold compareIssues, Spec.rowOrder.
  destruct (Js.parseInt (Issue.rowId a)) as [x|] eqn:Ha.
  - destruct (Js.parseInt (Issue.rowId b)) as [y|] eqn:Hb.
    + apply parseInt_reads in Ha, Hb. split.
      * intros H. left. exists x, y. repeat split; trivial. lia.
      * intros [(x' & y' & Hx & Hy & H) | ([H | H] & _)].
        -- pose proof (reads_unique _ _ _ Ha Hx).
           pose proof (reads_unique _ _ _ Hb Hy). lia.
        -- now apply H in Ha.
        -- now apply H in Hb.
    + split.
      * intros H. right. split; [right | exact H].
        intros y Hy. apply parseInt_reads in Hy. congruence.
      * intros [(x' & y' & _ & Hy & _) | (_ & H)]; [|exact H].
        apply parseInt_reads in Hy. congruence.
  - split.
    + intros H. right. split; [left | exact H].
      intros x Hx. apply parseInt_reads in Hx. congruence.
    + intros [(x' & y' & Hx & _) | (_ & H)]; [|exact H].
      apply parseInt_reads in Hx. congruence.
Qed.

Lemma sameNumber_reads (n : Z) (i : Issue.t) :
  Spec.sameNumber n i = true <-> Spec.reads (Issue.rowId i) n.
Proof.
  unfold Spec.sameNumber. rewrite <- parseInt_reads.
  destruct (Js.parseInt (Issue.rowId i)) as [m|]; split; intros H;
    try discriminate.
  - apply Z.eqb_eq in H. now subst.
  - injection H as ->. apply Z.eqb_refl.
Qed.

Lemma consistentOn_trans (l : list Issue.t) :
  Spec.consistentOn localeCompare l = true ->
  forall a b c, In a l -> In b l -> In c l ->
    compareIssues localeCompare a b <= 0 ->
    compareIssues localeCompare b c <= 0 ->
    compareIssues localeCompare a c <= 0.
Proof.
  unfold Spec.consistentOn. intros H a b c Ha Hb Hc Hab Hbc.
  rewrite forallb_forall in H. specialize (H a Ha).
  rewrite forallb_forall in H. specialize (H b Hb).
  rewrite forallb_forall in H. specialize (H c Hc).
  apply Z.leb_le in Hab, Hbc. rewrite Hab, Hbc in H. simpl in H.
  now apply Z.leb_le.
Qed.

(** C1, as amended.  Take a report whose emitted issues (rule failures,
    then missing values, then primary-key issues) the comparator orders
    consistently and whose row ids read as numbers of size below [2^53]
    or as no number, on an engine whose collation reverses its sign with
    its arguments.  The issue log is a rearrangement of the emitted
    issues in which every earlier issue is in order with every later
    one: by number when both row ids read as a number, by the collation
    when one does not.  A row id reads as a number when, after white
    space and at most one sign, it has decimal digits, or hexadecimal
    ones after [0x] or [0X]; what follows the digits is ignored.  The
    issues of one row id, the issues of one number, and the issues of
    any tie of the comparator keep their order of emission.  No other
    arrangement of the emitted issues is in order and keeps the order of
    emission in every tie, so the log is the same however the engine
    sorts. *)
Theorem allIssues_sorted_stable (report : AuditReport.t) :
  Spec.collates localeCompare ->
  Spec.safeNumbers (issues report) = true ->
  Spec.consistentOn localeCompare (issues report) = true ->
  Permutation (issues report) (allIssues localeCompare (Some report))
  /\ StronglySorted
       (fun a b =>
          Spec.rowOrder localeCompare (Issue.rowId a) (Issue.rowId b))
       (allIssues localeCompare (Some report))
  /\ (forall k : string,
        filter (Spec.sameRow k) (allIssues localeCompare (Some report))
        = (filter (Spec.sameRow k)
             (flat_map ruleIssues (AuditReport.rule_results report))
           ++ filter (Spec.sameRow k)
                (flat_map missingIssues
                   (AuditReport.missing_values report))
           ++ filter (Spec.sameRow k)
                (pkIssues (AuditReport.primary_key_result report)))%list)
  /\ (forall n : Z,
        filter (Spec.sameNumber n) (allIssues localeCompare (Some report))
        = filter (Spec.sameNumber n) (issues report))
  /\ (forall (i : Issue.t) (n : Z),
        In i (allIssues localeCompare (Some report)) ->
        (Spec.sameNumber n i = true <-> Spec.reads (Issue.rowId i) n)
        /\ (Spec.reads (Issue.rowId i) n -> Z.abs n < 2 ^ 53))
  /\ (forall x : Issue.t,
        In x (issues report) ->
        filter (Spec.tie (compareIssues localeCompare) x)
               (allIssues localeCompare (Some report))
        = filter (Spec.tie (compareIssues localeCompare) x)
                 (issues report))
  /\ (forall log : list Issue.t,
        Permutation (issues report) log ->
        StronglySorted
          (fun a b =>
             Spec.rowOrder localeCompare (Issue.rowId a) (Issue.rowId b))
          log ->
        (forall x : Issue.t,
            In x (issues report) ->
            filter (Spec.tie (compareIssues localeCompare) x) log
            = filter (Spec.tie (compareIssues localeCompare) x)
                     (issues report)) ->
        log = allIssues localeCompare (Some report)).
Proof.
  intros Hsign Hsafe Hcons.
  pose proof (consistentOn_trans _ Hcons) as Htrans.
  assert (Hties : forall x : Issue.t,
    In x (issues report) ->
    filter (Spec.tie (compareIssues localeCompare) x)
           (Js.sort (compareIssues localeCompare) (issues report))
    = filter (Spec.tie (compareIssues localeCompare) x) (issues report)).
  { intros x Hx. apply sort_filter.
    intros a b Ha Hb Hta Htb. unfold Spec.tie in Hta, Htb.
    apply Z.eqb_eq in Hta, Htb.
    apply (Htrans a x b); trivial; [|lia].
    rewrite (cmp_zero_sym _ (compareIssues_sign Hsign) x a Hta). lia. }
  simpl allIssues.
  split; [|split; [|split; [|split; [|split; [|split]]]]].
  - apply sort_Permutation.
  - apply StronglySorted_impl_on
      with (R := fun a b => compareIssues localeCompare a b <= 0).
    + intros a b _ _. apply compareIssues_rowOrder.
    + apply Sorted_StronglySorted_on.
      * intros a b c Ha Hb Hc. apply Htrans; now apply In_sort in Ha, Hb, Hc.
      * apply sort_Sorted. exact (compareIssues_flip Hsign).
  - intros k. rewrite sort_filter.
    + unfold issues. now rewrite !filter_app.
    + intros a b _ _ Ha Hb. unfold Spec.sameRow in *.
      apply String.eqb_eq in Ha, Hb.
      rewrite (compareIssues_same_row Hsign); [lia | congruence].
  - intros n. apply sort_filter.
    intros a b _ _. unfold Spec.sameNumber, compareIssues.
    destruct (Js.parseInt (Issue.rowId a)); [|discriminate].
    destruct (Js.parseInt (Issue.rowId b)); [|discriminate].
    rewrite !Z.eqb_eq. lia.
  - intros i n Hi. split; [apply sameNumber_reads|].
    intros Hn. apply parseInt_reads in Hn.
    apply In_sort in Hi.
    unfold Spec.safeNumbers in Hsafe. rewrite forallb_forall in Hsafe.
    specialize (Hsafe i Hi). rewrite Hn in Hsafe.
    now apply Z.ltb_lt.
  - exact Hties.
  - intros log Hperm Hs Hst.
    apply (sort_unique _ (compareIssues_sign Hsign)); trivial.
    apply StronglySorted_impl_on
      with (R := fun a b =>
                   Spec.rowOrder localeCompare (Issue.rowId a)
                                 (Issue.rowId b)); [|exact Hs].
    intros a b _ _. apply compareIssues_rowOrder.
Qed.

Lemma filter_Permutation {A : Type} (p : A -> bool) (l l' : list A) :
  Permutation l l' -> Permutation (filter p l) (filter p l').
Proof.
  induction 1 as [|x l l' _ IH|x y l|l l' l'' _ IH1 _ IH2]; simpl.
  - constructor.
  - destruct (p x); [now constructor | assumption].
  - destruct (p x), (p y); try apply Permutation_refl. apply perm_swap.
  - now apply perm_trans with (filter p l').
Qed.

Lemma filter_none {A : Type} (p : A -> bool) (l : list A) :
  (forall x, In x l -> p x = false) -> filter p l = [].
Proof.
  induction l as [|x l IH]; intros H; [reflexivity|].
  simpl. rewrite (H x) by now left.
  apply IH. intros y Hy. apply H. now right.
Qed.

Lemma filter_all {A : Type} (p : A -> bool) (l : list A) :
  (forall x, In x l -> p x = true) -> filter p l = l.
Proof.
  induction l as [|x l IH]; intros H; [reflexivity|].
  simpl. rewrite (H x) by now left.
  f_equal. apply IH. intros y Hy. apply H. now right.
Qed.

Lemma ruleIssues_errorType (rule : RuleResult.t) (i : Issue.t) :
  In i (ruleIssues rule) -> Issue.errorType i = "Rule Failed".
Proof.
  unfold ruleIssues.
  destruct (negb (RuleResult.passed rule)), (RuleResult.sample_rows rule);
    simpl; try tauto.
  rewrite in_map_iff. now intros (sample & <- & _).
Qed.

Lemma missingIssues_errorType (mv : MissingValueStat.t) (i : Issue.t) :
  In i (missingIssues mv) -> Issue.errorType i = "Missing Value".
Proof.
  unfold missingIssues.
  destruct (0 <? MissingValueStat.missing_count mv),
           (MissingValueStat.sample_rows mv); simpl; try tauto.
  rewrite in_map_iff. now intros (sample & <- & _).
Qed.

Lemma falsy_property (col : string) (sample : Row) :
  inherited col = false ->
  falsy (property col sample) = true
  <-> get col sample = None \/ get col sample = Some EmptyString.
Proof.
  intros Hcol. unfold property. rewrite Hcol.
  destruct (get col sample) as [[|c s]|]; simpl; split; intros H; auto;
    try discriminate; destruct H; discriminate.
Qed.

(** For primary-key columns that no object inherits, the code's test is
    "falsy or absent". *)
Lemma pkIssue_isNull (pk : PrimaryKeyResult.t) (sample : Row) :
  Forall (fun col => inherited col = false) (PrimaryKeyResult.columns pk) ->
  existsb (fun col => falsy (property col sample))
          (PrimaryKeyResult.columns pk) = true
  <-> Spec.hasNullKey (PrimaryKeyResult.columns pk) sample.
Proof.
  intros Hcols. rewrite Forall_forall in Hcols.
  rewrite existsb_exists. unfold Spec.hasNullKey.
  split; intros (col & Hin & H); exists col; split; trivial;
    now apply (falsy_property col sample (Hcols col Hin)).
Qed.

Lemma pkIssue_isPkIssue (pk : PrimaryKeyResult.t) (sample : Row) :
  Spec.isPkIssue (pkIssue pk sample) = true.
Proof.
  unfold Spec.isPkIssue, pkIssue. simpl.
  now destruct (existsb _ _).
Qed.

(** When the report has a primary-key result, the issues of the log
    that come from the primary-key check are, up to the order of the
    log, one per sample row of that result; the issue of a sample names
    the primary-key columns joined by a comma and a space and has
    severity [error]; and when no primary-key column has a name that
    every object inherits, its type is "PK Null" exactly when some
    primary-key column has no value or an empty value in the sample, and
    "PK Duplicate" exactly when none has. *)
Theorem allIssues_primary_key (report : AuditReport.t)
    (pk : PrimaryKeyResult.t) :
  AuditReport.primary_key_result report = Some pk ->
  Permutation (filter Spec.isPkIssue (allIssues localeCompare (Some report)))
              (map (pkIssue pk) (PrimaryKeyResult.sample_rows pk))
  /\ length (filter Spec.isPkIssue (allIssues localeCompare (Some report)))
     = length (PrimaryKeyResult.sample_rows pk)
  /\ forall sample : Row,
       Issue.ruleOrColumn (pkIssue pk sample)
       = Js.join ", " (PrimaryKeyResult.columns pk)
       /\ Issue.severity (pkIssue pk sample) = Error
       /\ (Forall (fun col => inherited col = false)
                  (PrimaryKeyResult.columns pk) ->
           (Issue.errorType (pkIssue pk sample) = "PK Null"
            <-> Spec.hasNullKey (PrimaryKeyResult.columns pk) sample)
           /\ (Issue.errorType (pkIssue pk sample) = "PK Duplicate"
               <-> ~ Spec.hasNullKey (PrimaryKeyResult.columns pk) sample)).
Proof.
  intros Hpk.
  assert (Hperm :
    Permutation
      (filter Spec.isPkIssue (allIssues localeCompare (Some report)))
      (map (pkIssue pk) (PrimaryKeyResult.sample_rows pk))).
  { simpl allIssues.
    eapply perm_trans.
    - apply filter_Permutation, Permutation_sym, sort_Permutation.
    - unfold issues. rewrite Hpk, !filter_app. simpl pkIssues.
      rewrite (filter_none _ (flat_map ruleIssues _)).
      + rewrite (filter_none _ (flat_map missingIssues _)).
        * simpl. rewrite filter_all; [apply Permutation_refl|].
          intros i Hi. apply in_map_iff in Hi as (sample & <- & _).
          apply pkIssue_isPkIssue.
        * intros i Hi. apply in_flat_map in Hi as (mv & _ & Hi).
          unfold Spec.isPkIssue.
          now rewrite (missingIssues_errorType _ _ Hi).
      + intros i Hi. apply in_flat_map in Hi as (rule & _ & Hi).
        unfold Spec.isPkIssue.
        now rewrite (ruleIssues_errorType _ _ Hi). }
  split; [exact Hperm | split].
  - rewrite (Permutation_length Hperm). apply length_map.
  - intros sample. split; [reflexivity | split; [reflexivity|]].
    intros Hcols.
    rewrite <- (pkIssue_isNull pk sample Hcols). unfold pkIssue; simpl.
    destruct (existsb _ _); split; split; intros H; try reflexivity;
      try discriminate; congruence.
Qed.

Lemma In_allIssues (report : AuditReport.t) (i : Issue.t) :
  In i (issues report) <-> In i (allIssues localeCompare (Some report)).
Proof.
  simpl; split; apply Permutation_in;
    [|apply Permutation_sym]; apply sort_Permutation.
Qed.

Lemma missingSeverity_Error (pct : Q) :
  missingSeverity pct = Error <-> (10 # 1 < pct)%Q.
Proof.
  unfold missingSeverity, Js.gt.
  destruct (Qle_bool pct (10 # 1)) eqn:H; simpl.
  - apply Qle_bool_iff in H. split; [discriminate|].
    intros Hlt. now apply Qlt_not_le in Hlt.
  - split; [intros _ | reflexivity].
    apply Qnot_le_lt. intros Hle.
    apply Qle_bool_iff in Hle. congruence.
Qed.

Lemma missingSeverity_Warning (pct : Q) :
  missingSeverity pct = Warning <-> (pct <= 10 # 1)%Q.
Proof.
  unfold missingSeverity, Js.gt.
  destruct (Qle_bool pct (10 # 1)) eqn:H; simpl.
  - apply Qle_bool_iff in H. now split.
  - split; [discriminate|].
    intros Hle. apply Qle_bool_iff in Hle. congruence.
Qed.

(** C3.  For an entry of [missing_values] with a positive
    [missing_count], every issue the log holds for it and its one
    indicator carry the same severity: [error] exactly when
    [missing_pct] exceeds 10 and [warning] exactly when it does not; 15
    gives [error] and 5 gives [warning]. *)
Theorem missing_value_severity (report : AuditReport.t)
    (mv : MissingValueStat.t) :
  In mv (AuditReport.missing_values report) ->
  0 < MissingValueStat.missing_count mv ->
  (forall i : Issue.t,
      In i (missingIssues mv) ->
      In i (allIssues localeCompare (Some report))
      /\ Issue.errorType i = "Missing Value"
      /\ Issue.ruleOrColumn i = MissingValueStat.column mv
      /\ Issue.severity i
         = missingSeverity (MissingValueStat.missing_pct mv))
  /\ (exists ind : Indicator.t,
        missingIndicators mv = [ind]
        /\ In ind (issueIndicators (Some report))
        /\ Indicator.label ind = "Missing data"
        /\ Indicator.severity ind
           = missingSeverity (MissingValueStat.missing_pct mv))
  /\ (missingSeverity (MissingValueStat.missing_pct mv) = Error
      <-> (10 # 1 < MissingValueStat.missing_pct mv)%Q)
  /\ (missingSeverity (MissingValueStat.missing_pct mv) = Warning
      <-> (MissingValueStat.missing_pct mv <= 10 # 1)%Q)
  /\ missingSeverity (15 # 1) = Error
  /\ missingSeverity (5 # 1) = Warning.
Proof.
  intros Hin Hcount.
  split; [|split; [|split; [|split; [|split]]]].
  - intros i Hi. split.
    + apply In_allIssues. unfold issues.
      apply in_or_app; right. apply in_or_app; left.
      apply in_flat_map. now exists mv.
    + unfold missingIssues in Hi.
      destruct (0 <? MissingValueStat.missing_count mv),
               (MissingValueStat.sample_rows mv); simpl in Hi; try tauto.
      apply in_map_iff in Hi as (sample & <- & _). now simpl.
  - unfold missingIndicators.
    apply Z.ltb_lt in Hcount. rewrite Hcount.
    eexists; split; [reflexivity|].
    split; [|now simpl].
    simpl. apply in_or_app; right. apply in_or_app; left.
    apply in_flat_map. exists mv. split; [assumption|].
    unfold missingIndicators. rewrite Hcount. now left.
  - apply missingSeverity_Error.
  - apply missingSeverity_Warning.
  - reflexivity.
  - reflexivity.
Qed.

(** C4.  A rule result that did not pass and has no sample rows, absent
    or empty, puts no issue in the log and one indicator in the
    indicators: "Rule failed", the rule's name with its count of
    failing rows, and the rule's own severity. *)
Theorem failed_rule_without_samples (report : AuditReport.t)
    (rule : RuleResult.t) :
  In rule (AuditReport.rule_results report) ->
  RuleResult.passed rule = false ->
  RuleResult.sample_rows rule = None
  \/ RuleResult.sample_rows rule = Some [] ->
  ruleIssues rule = []
  /\ ruleIndicators rule
     = [Indicator.mk "Rule failed"
          (RuleResult.name rule ++ " (" ++
           Js.numberToString (RuleResult.failing_rows rule) ++
           " rows)")%string
          (RuleResult.severity rule)]
  /\ In (Indicator.mk "Rule failed"
          (RuleResult.name rule ++ " (" ++
           Js.numberToString (RuleResult.failing_rows rule) ++
           " rows)")%string
          (RuleResult.severity rule))
        (issueIndicators (Some report)).
Proof.
  intros Hin Hfailed Hrows.
  assert (Hind : ruleIndicators rule
     = [Indicator.mk "Rule failed"
          (RuleResult.name rule ++ " (" ++
           Js.numberToString (RuleResult.failing_rows rule) ++
           " rows)")%string
          (RuleResult.severity rule)]).
  { unfold ruleIndicators. now rewrite Hfailed. }
  split; [|split].
  - unfold ruleIssues. rewrite Hfailed.
    destruct Hrows as [-> | ->]; reflexivity.
  - exact Hind.
  - simpl. apply in_or_app; right. apply in_or_app; right.
    apply in_or_app; left.
    apply in_flat_map. exists rule. split; [assumption|].
    rewrite Hind. now left.
Qed.

Lemma schemaIndicators_nil (item : SchemaResult.t) :
  schemaIndicators item = [] <-> SchemaResult.status item = StatusOk.
Proof.
  unfold schemaIndicators.
  destruct (SchemaResult.status item); split; intros H;
    try reflexivity; discriminate.
Qed.

Lemma flat_map_nil {A B : Type} (f : A -> list B) (l : list A) :
  flat_map f l = [] <-> Forall (fun x => f x = []) l.
Proof.
  induction l as [|x l IH]; simpl.
  - split; [constructor | reflexivity].
  - split.
    + intros H. apply app_eq_nil in H as [Hx Hl].
      constructor; [assumption | now apply IH].
    + intros H. inversion H as [|? ? Hx Hl]; subst.
      rewrite Hx. now apply IH.
Qed.

(** C5, as amended.  A report with no missing-value entry, no rule
    result and no primary-key result has an empty issue log; its
    indicators are those of its schema results, and they are empty
    exactly when every schema result has the status [ok], as when there
    is none. *)
Theorem empty_report (report : AuditReport.t) :
  AuditReport.missing_values report = [] ->
  AuditReport.rule_results report = [] ->
  AuditReport.primary_key_result report = None ->
  allIssues localeCompare (Some report) = []
  /\ issueIndicators (Some report)
     = flat_map schemaIndicators (AuditReport.schema_results report)
  /\ (issueIndicators (Some report) = []
      <-> Forall (fun item => SchemaResult.status item = StatusOk)
                 (AuditReport.schema_results report))
  /\ (AuditReport.schema_results report = [] ->
      issueIndicators (Some report) = []).
Proof.
  intros Hmv Hrules Hpk.
  assert (Hind : issueIndicators (Some report)
     = flat_map schemaIndicators (AuditReport.schema_results report)).
  { simpl. rewrite Hmv, Hrules, Hpk. simpl. apply app_nil_r. }
  split; [|split; [exact Hind | split]].
  - simpl. unfold issues. now rewrite Hmv, Hrules, Hpk.
  - rewrite Hind, flat_map_nil.
    split; apply Forall_impl; intros item; apply schemaIndicators_nil.
  - intros Hschema. now rewrite Hind, Hschema.
Qed.

End IssueLog.

(** ** The issue log of the sample reports *)

Lemma collation_collates : Spec.collates Examples.collation.
Proof.
  intros a b. unfold Examples.collation.
  rewrite (String.compare_antisym b a).
  destruct (String.compare a b); simpl; lia.
Qed.

Lemma allIssues_sorted_stable_witness :
  Spec.collates Examples.collation
  /\ Spec.safeNumbers (AuditReportView.issues Examples.mixed) = true
  /\ Spec.consistentOn Examples.collation
       (AuditReportView.issues Examples.mixed) = true
  /\ map AuditReportView.Issue.errorType
       (filter (Spec.sameRow "9")
          (AuditReportView.allIssues Examples.collation
             (Some Examples.mixed)))
     = ["Rule Failed"; "PK Duplicate"].
Proof.
  assert (H1 : Spec.collates Examples.collation)
    by exact collation_collates.
  assert (H2 : Spec.safeNumbers (AuditReportView.issues Examples.mixed)
               = true) by reflexivity.
  assert (H3 : Spec.consistentOn Examples.collation
                 (AuditReportView.issues Examples.mixed) = true)
    by reflexivity.
  split; [exact H1 | split; [exact H2 | split; [exact H3|]]].
  destruct (allIssues_sorted_stable Examples.collation Examples.mixed
              H1 H2 H3) as (_ & _ & Hrow & _).
  rewrite (Hrow "9"). reflexivity.
Defined.

(** The comparator is not transitive on every list: it puts [5] before
    [ 7] as numbers, and by the order of the code units [ 7] before [+]
    and [+] before [5]; the mixed report of the examples it orders
    consistently. *)
Lemma compareIssues_circle :
  Spec.consistentOn Examples.collation Examples.circle = false
  /\ Spec.consistentOn Examples.collation
       (AuditReportView.issues Examples.mixed) = true.
Proof.
  split; vm_compute; reflexivity.
Qed.

(** Where the comparator is not consistent, being in order by pairs and
    holding the same issues does not determine the log: of four issues
    in a descending run both the run reversed and the result of
    insertion have each issue and the next in order, they differ, and
    the reversed run has the two issues of row [5] in the other
    order. *)
Lemma descending_run_two_orders :
  Spec.consistentOn Examples.collation Examples.descending = false
  /\ Permutation Examples.descending (rev Examples.descending)
  /\ Sorted (fun a b =>
               AuditReportView.compareIssues Examples.collation a b <= 0)
            (rev Examples.descending)
  /\ Sorted (fun a b =>
               AuditReportView.compareIssues Examples.collation a b <= 0)
            (Js.sort (AuditReportView.compareIssues Examples.collation)
                     Examples.descending)
  /\ map AuditReportView.Issue.rowId (rev Examples.descending)
     = ["5"; " 7"; "+"; "5"]
  /\ map AuditReportView.Issue.rowId
         (Js.sort (AuditReportView.compareIssues Examples.collation)
                  Examples.descending)
     = ["+"; "5"; "5"; " 7"]
  /\ filter (Spec.sameRow "5") (rev Examples.descending)
     <> filter (Spec.sameRow "5") Examples.descending.
Proof.
  split; [reflexivity|].
  split; [apply Permutation_rev|].
  split; [repeat constructor; vm_compute; discriminate|].
  split; [|split; [reflexivity | split; [reflexivity | discriminate]]].
  apply sort_Sorted. exact (compareIssues_flip _ collation_collates).
Qed.

(** Row ids and the numbers they read as. *)
Lemma reads_examples :
  Spec.reads "42" 42
  /\ Spec.reads "0x1A" 26
  /\ Spec.reads " 7" 7
  /\ Spec.reads "-12px" (-12)
  /\ Spec.reads "+08" 8
  /\ (forall n : Z, ~ Spec.reads "n/a" n)
  /\ (forall n : Z, ~ Spec.reads "+" n)
  /\ (forall n : Z, ~ Spec.reads "0x" n)
  /\ (forall n : Z, ~ Spec.reads "- 5" n).
Proof.
  repeat (split; [now apply parseInt_reads|]).
  repeat split; intros n H; apply parseInt_reads in H; discriminate H.
Qed.

(** C1, as the specification words it, fails on the lines [0x1A] and
    [5], whatever the collation: [parseInt] reads [0x1A] as 26 and the
    log has [5] first, while [0x1A] is no base-10 integer and sorts
    before [5] as a string, and read loosely in base 10 it is 0, again
    before 5. *)
Lemma allIssues_not_base10_sorted :
  (forall localeCompare : string -> string -> Z,
      map AuditReportView.Issue.rowId
          (AuditReportView.allIssues localeCompare (Some Examples.hexLines))
      = ["5"; "0x1A"])
  /\ (forall localeCompare : string -> string -> Z,
         ~ Sorted (fun a b =>
                     Spec.ordered Spec.base10
                       (AuditReportView.Issue.rowId a)
                       (AuditReportView.Issue.rowId b) = true)
                  (AuditReportView.allIssues localeCompare
                     (Some Examples.hexLines)))
  /\ (forall localeCompare : string -> string -> Z,
         ~ Sorted (fun a b =>
                     Spec.ordered Spec.base10Prefix
                       (AuditReportView.Issue.rowId a)
                       (AuditReportView.Issue.rowId b) = true)
                  (AuditReportView.allIssues localeCompare
                     (Some Examples.hexLines))).
Proof.
  split; [reflexivity | split]; intros localeCompare.
  - remember (AuditReportView.allIssues localeCompare
                (Some Examples.hexLines)) as log eqn:Hlog.
    vm_compute in Hlog. subst log. intros H.
    inversion H as [|? ? _ Hhd]; subst.
    inversion Hhd as [|? ? Hord]; subst.
    vm_compute in Hord. discriminate.
  - remember (AuditReportView.allIssues localeCompare
                (Some Examples.hexLines)) as log eqn:Hlog.
    vm_compute in Hlog. subst log. intros H.
    inversion H as [|? ? _ Hhd]; subst.
    inversion Hhd as [|? ? Hord]; subst.
    vm_compute in Hord. discriminate.
Qed.

(** C2.  The code does not type the issue as the claim says when the
    primary key is a column named as a property that every object
    inherits.  For the primary key [constructor] the sample row of line
    4 has no value in that column, but [sample[col]] answers with the
    constructor every object inherits, which is not falsy, and the issue
    of that row is typed "PK Duplicate" where the claim says "PK Null";
    the rows of lines 5 and 6, which have the column, empty and not
    empty, are typed as the claim says.  On the columns [id] and [name]
    the three sample rows of the mixed report are typed as the claim
    says: "PK Duplicate" with both values, "PK Null" with an empty [id],
    "PK Null" without an [id]. *)
Theorem pkIssue_inherited_key :
  AuditReport.primary_key_result Examples.inheritedKey
  = Some (PrimaryKeyResult.mk ["constructor"] 0 2
            [[("team", "Lotus"); ("__line__", "4")];
             [("constructor", EmptyString); ("__line__", "5")];
             [("constructor", "Lotus"); ("__line__", "6")]])
  /\ Spec.hasNullKey ["constructor"] [("team", "Lotus"); ("__line__", "4")]
  /\ Spec.hasNullKey ["constructor"]
       [("constructor", EmptyString); ("__line__", "5")]
  /\ ~ Spec.hasNullKey ["constructor"]
         [("constructor", "Lotus"); ("__line__", "6")]
  /\ (forall localeCompare : string -> string -> Z,
         map (fun i => (AuditReportView.Issue.rowId i,
                        AuditReportView.Issue.errorType i))
             (AuditReportView.allIssues localeCompare
                (Some Examples.inheritedKey))
         = [("4", "PK Duplicate"); ("5", "PK Null"); ("6", "PK Duplicate")])
  /\ map (fun i => (AuditReportView.Issue.rowId i,
                    AuditReportView.Issue.errorType i))
         (AuditReportView.pkIssues
            (AuditReport.primary_key_result Examples.mixed))
     = [("9", "PK Duplicate"); ("2", "PK Null"); ("3", "PK Null")].
Proof.
  split; [reflexivity|].
  split; [exists "constructor"; simpl; auto|].
  split; [exists "constructor"; simpl; auto|].
  split; [|split; [intros localeCompare; reflexivity | reflexivity]].
  intros (col & [<- | []] & [H | H]); discriminate H.
Qed.

Lemma allIssues_primary_key_witness :
  Forall (fun col => inherited col = false) ["id"; "name"]
  /\ (AuditReportView.Issue.errorType
        (AuditReportView.pkIssue
           (PrimaryKeyResult.mk ["id"; "name"] 1 1 [])
           [("name", "di"); ("__line__", "3")]) = "PK Null"
      <-> Spec.hasNullKey ["id"; "name"] [("name", "di"); ("__line__", "3")]).
Proof.
  assert (Hcols : Forall (fun col => inherited col = false) ["id"; "name"])
    by (repeat constructor).
  split; [exact Hcols|].
  apply (allIssues_primary_key Examples.collation
           (Examples.report "r7" 0 [] [] []
              (Some (PrimaryKeyResult.mk ["id"; "name"] 1 1 [])))
           _ eq_refl); exact Hcols.
Defined.

Lemma missing_value_severity_witness :
  In (MissingValueStat.mk "age" 3 (15 # 1)
        (Some [[("__line__", "10")]; [("name", "bo")]]))
     (AuditReport.missing_values Examples.mixed)
  /\ 0 < 3
  /\ In (AuditReportView.Issue.mk "n/a" "NULL / Empty" "Missing Value" "age" Error)
        (AuditReportView.allIssues Examples.collation (Some Examples.mixed)).
Proof.
  assert (Hin : In (MissingValueStat.mk "age" 3 (15 # 1)
                      (Some [[("__line__", "10")]; [("name", "bo")]]))
                   (AuditReport.missing_values Examples.mixed))
    by (simpl; auto).
  assert (Hpos : 0 < 3) by lia.
  split; [exact Hin | split; [exact Hpos|]].
  apply (missing_value_severity Examples.collation Examples.mixed _ Hin Hpos).
  simpl. auto.
Defined.


Lemma failed_rule_without_samples_witness :
  AuditReportView.allIssues Examples.collation (Some (Examples.report "r4" 7 [] []
                     [RuleResult.mk "unique_email" Error false 7 None None]
                     None)) = []
  /\ AuditReportView.issueIndicators
       (Some (Examples.report "r4" 7 [] []
                [RuleResult.mk "unique_email" Error false 7 None None]
                None))
     = [AuditReportView.Indicator.mk "Rule failed" "unique_email (7 rows)" Error]
  /\ AuditReportView.ruleIssues (RuleResult.mk "unique_email" Error false 7 None None) = [].
Proof.
  split; [reflexivity | split; [reflexivity|]].
  apply (failed_rule_without_samples
           (Examples.report "r4" 7 [] []
              [RuleResult.mk "unique_email" Error false 7 None None] None)
           (RuleResult.mk "unique_email" Error false 7 None None)).
  - simpl. auto.
  - reflexivity.
  - left. reflexivity.
Defined.


Lemma empty_report_witness :
  AuditReportView.allIssues Examples.collation (Some (Examples.report "r5" 0 [] [] [] None)) = []
  /\ AuditReportView.issueIndicators (Some (Examples.report "r5" 0 [] [] [] None)) = [].
Proof.
  pose proof (empty_report Examples.collation
                (Examples.report "r5" 0 [] [] [] None)
                eq_refl eq_refl eq_refl) as (Hlog & _ & _ & Hind).
  split; [exact Hlog | exact (Hind eq_refl)].
Defined.

(** C5, as the specification words it, fails on a report that has
    nothing but a schema result with the status [missing]: the
    indicators hold "Missing column". *)
Lemma empty_report_has_indicator :
  AuditReport.missing_values Examples.schemaOnly = []
  /\ AuditReport.rule_results Examples.schemaOnly = []
  /\ AuditReport.primary_key_result Examples.schemaOnly = None
  /\ AuditReportView.issueIndicators (Some Examples.schemaOnly)
     = [AuditReportView.Indicator.mk "Missing column" "email" Error]
  /\ AuditReportView.issueIndicators (Some Examples.schemaOnly) <> [].
Proof.
  repeat (split; [reflexivity|]). discriminate.
Qed.


(** ** The comparison *)

Section Comparison.
Import ComparisonView.

Lemma sameId_refl (a : option string) : sameId a a = true.
Proof.
  destruct a as [s|]; simpl; [apply String.eqb_refl | reflexivity].
Qed.

Lemma unselected_Some (s : string) :
  s <> EmptyString -> unselected (Some s) = false.
Proof.
  destruct s; simpl; congruence.
Qed.

(** C7.  [handleCompare] refuses to compare when either report is not
    chosen or both choices are the same report: it asks for nothing,
    leaves the comparison as it was and sets the message that says to
    choose two different reports.  With two different reports chosen
    and both delivered by the gateway, the comparison holds the two,
    and the delta shown is the issue count of B less that of A; counts
    of 5 and 3 give -2. *)
Theorem handleCompare_delta
    (fetchJSON : string -> string + AuditReport.t) (st : State) :
  (unselected (compareIds_a st) = true
   \/ unselected (compareIds_b st) = true
   \/ compareIds_a st = compareIds_b st ->
   handleCompare fetchJSON st
   = mkState (compareIds_a st) (compareIds_b st) (comparison st)
             "Choose two different reports to compare.")
  /\ (forall (a b : string) (reportA reportB : AuditReport.t),
        compareIds_a st = Some a -> compareIds_b st = Some b ->
        a <> EmptyString -> b <> EmptyString -> a <> b ->
        fetchJSON ("/reports/" ++ a)%string = inr reportA ->
        fetchJSON ("/reports/" ++ b)%string = inr reportB ->
        handleCompare fetchJSON st
        = mkState (Some a) (Some b) (Some (reportA, reportB)) (message st)
        /\ delta (reportA, reportB)
           = AuditSummary.issues_found (AuditReport.summary reportB)
             - AuditSummary.issues_found (AuditReport.summary reportA))
  /\ (forall reportA reportB : AuditReport.t,
        AuditSummary.issues_found (AuditReport.summary reportA) = 5 ->
        AuditSummary.issues_found (AuditReport.summary reportB) = 3 ->
        delta (reportA, reportB) = -2).
Proof.
  split; [|split].
  - intros H. unfold handleCompare.
    destruct H as [-> | [-> | ->]].
    + reflexivity.
    + now rewrite orb_true_r.
    + now rewrite sameId_refl, orb_true_r.
  - intros a b reportA reportB Ha Hb Hna Hnb Hab HA HB.
    split; [|reflexivity].
    unfold handleCompare, reportPath. rewrite Ha, Hb, HA, HB.
    rewrite !unselected_Some by assumption.
    apply String.eqb_neq in Hab. unfold sameId. now rewrite Hab.
  - intros reportA reportB HA HB. unfold delta. simpl. lia.
Qed.

Lemma handleCompare_delta_witness :
  option_map delta
    (comparison
       (handleCompare Examples.gateway
          (mkState (Some "a") (Some "b") None EmptyString)))
  = Some (-2)
  /\ handleCompare Examples.gateway
       (mkState (Some "a") (Some "a") None EmptyString)
     = mkState (Some "a") (Some "a") None
               "Choose two different reports to compare.".
Proof.
  split.
  - destruct (handleCompare_delta Examples.gateway
                (mkState (Some "a") (Some "b") None EmptyString))
      as (_ & Hcmp & _).
    destruct (Hcmp "a" "b" (Examples.report "a" 5 [] [] [] None)
                (Examples.report "b" 3 [] [] [] None)) as (-> & _);
      try reflexivity; discriminate.
  - apply (handleCompare_delta Examples.gateway
             (mkState (Some "a") (Some "a") None EmptyString)).
    right; right; reflexivity.
Defined.

End Comparison.

(** ** Strings: [split] and [trim] *)

Section StringFacts.

Lemma split_not_nil (sep : ascii) (s : string) : Js.split sep s <> [].
Proof.
  destruct s as [|c r]; simpl; [discriminate|].
  destruct (Ascii.eqb c sep); [discriminate|].
  destruct (Js.split sep r); discriminate.
Qed.

(** Joining the pieces with the separator gives the string back. *)
Lemma join_split (sep : ascii) (s : string) :
  Js.join (String sep EmptyString) (Js.split sep s) = s.
Proof.
  unfold Js.join.
  induction s as [|c r IH]; [reflexivity|].
  simpl Js.split.
  destruct (Ascii.eqb c sep) eqn:Hc.
  - apply Ascii.eqb_eq in Hc; subst c.
    pose proof (split_not_nil sep r) as Hne.
    destruct (Js.split sep r) as [|t ts]; [congruence|].
    change (String.concat (String sep EmptyString) (EmptyString :: t :: ts))
      with (String sep (String.concat (String sep EmptyString) (t :: ts))).
    now rewrite IH.
  - pose proof (split_not_nil sep r) as Hne.
    destruct (Js.split sep r) as [|t ts]; [congruence|].
    rewrite <- IH.
    destruct ts; reflexivity.
Qed.

(** No piece holds the separator. *)
Lemma split_no_sep (sep : ascii) (s : string) :
  Forall (fun piece => Spec.occurs sep piece = false) (Js.split sep s).
Proof.
  induction s as [|c r IH]; simpl.
  - now repeat constructor.
  - destruct (Ascii.eqb c sep) eqn:Hc.
    + now constructor.
    + destruct (Js.split sep r) as [|t ts].
      * repeat constructor. simpl. now rewrite Hc.
      * inversion IH as [|? ? Ht Hts]; subst.
        constructor; [|assumption].
        simpl. now rewrite Hc.
Qed.

Lemma list_ascii_app (a b : string) :
  list_ascii_of_string (a ++ b)
  = (list_ascii_of_string a ++ list_ascii_of_string b)%list.
Proof.
  induction a as [|c a IH]; simpl; [reflexivity | now rewrite IH].
Qed.

Lemma string_of_list_app (a b : list ascii) :
  string_of_list_ascii (a ++ b)
  = (string_of_list_ascii a ++ string_of_list_ascii b)%string.
Proof.
  induction a as [|c a IH]; simpl; [reflexivity | now rewrite IH].
Qed.

Lemma rev_string_app (a b : string) :
  Js.rev_string (a ++ b) = (Js.rev_string b ++ Js.rev_string a)%string.
Proof.
  unfold Js.rev_string.
  now rewrite list_ascii_app, rev_app_distr, string_of_list_app.
Qed.

Lemma rev_string_involutive (s : string) :
  Js.rev_string (Js.rev_string s) = s.
Proof.
  unfold Js.rev_string.
  now rewrite list_ascii_of_string_of_list_ascii, rev_involutive,
    string_of_list_ascii_of_string.
Qed.

Lemma allWhite_app (a b : string) :
  Spec.allWhite (a ++ b) = Spec.allWhite a && Spec.allWhite b.
Proof.
  induction a as [|c a IH]; simpl; [reflexivity|].
  now rewrite IH, andb_assoc.
Qed.

Lemma allWhite_rev (s : string) :
  Spec.allWhite (Js.rev_string s) = Spec.allWhite s.
Proof.
  induction s as [|c s IH]; [reflexivity|].
  change (String c s) with (String c EmptyString ++ s)%string.
  rewrite rev_string_app, !allWhite_app, IH.
  apply andb_comm.
Qed.

Lemma trimEnd_spec (s : string) :
  exists post : string,
    s = (Js.trimEnd s ++ post)%string
    /\ Spec.allWhite post = true
    /\ Spec.endsWhite (Js.trimEnd s) = false.
Proof.
  destruct (trimStart_spec (Js.rev_string s)) as (pre & Hs & Hpre & Hstart).
  exists (Js.rev_string pre). unfold Js.trimEnd, Spec.endsWhite.
  rewrite <- rev_string_app, <- Hs, !rev_string_involutive, allWhite_rev.
  auto.
Qed.

Lemma startsWhite_prefix (a b : string) :
  Spec.startsWhite (a ++ b) = false -> Spec.startsWhite a = false.
Proof.
  destruct a; simpl; auto.
Qed.

(** [trim] takes the white space off both ends and nothing else. *)
Lemma trim_spec (s : string) : Spec.trimmedTo s (Js.trim s).
Proof.
  unfold Js.trim.
  destruct (trimStart_spec s) as (pre & Hs & Hpre & Hstart).
  destruct (trimEnd_spec (Js.trimStart s)) as (post & Ht & Hpost & Hend).
  exists pre, post. repeat split; trivial.
  - now rewrite <- Ht.
  - rewrite Ht in Hstart. now apply startsWhite_prefix in Hstart.
Qed.

End StringFacts.

(** ** The edits of the configuration *)

Section ConfigEdits.
Import stdpp.base stdpp.list.
Import AuditConfigForm.
Local Open Scope Z_scope.

Lemma assignSpread_inside {T P : Type} (spread : T -> P -> T)
    (arr : list T) (index : Z) (field : P) (old : T) :
  0 <= index -> arr !! Z.to_nat index = Some old ->
  assignSpread spread arr index field
  = Whole <$> <[Z.to_nat index := spread old field]> arr.
Proof.
  intros Hpos Hold. unfold assignSpread.
  apply Z.ltb_ge in Hpos. rewrite Hpos, Hold.
  now rewrite list_fmap_insert.
Qed.

Lemma assignSpread_beyond {T P : Type} (spread : T -> P -> T)
    (arr : list T) (index : Z) (field : P) :
  Z.of_nat (length arr) <= index ->
  assignSpread spread arr index field
  = (Whole <$> arr)
    ++ replicate (Z.to_nat index - length arr)%nat Hole ++ [Part field].
Proof.
  intros Hlen. unfold assignSpread.
  assert (Hpos : (index <? 0) = false) by (apply Z.ltb_ge; lia).
  rewrite Hpos.
  assert (Hnone : arr !! Z.to_nat index = None)
    by (apply lookup_ge_None; lia).
  now rewrite Hnone.
Qed.

Lemma assignSpread_negative {T P : Type} (spread : T -> P -> T)
    (arr : list T) (index : Z) (field : P) :
  index < 0 -> assignSpread spread arr index field = Whole <$> arr.
Proof.
  intros Hneg. unfold assignSpread.
  apply Z.ltb_lt in Hneg. now rewrite Hneg.
Qed.

Lemma lookup_inside {T : Type} (arr : list T) (index : Z) :
  0 <= index < Z.of_nat (length arr) ->
  exists old, arr !! Z.to_nat index = Some old.
Proof.
  intros Hin.
  destruct (lookup_lt_is_Some_2 arr (Z.to_nat index)) as [old Hold];
    [lia | now exists old].
Qed.

(** C6, as amended.  Inside the bounds [updateSchemaField] merges the
    partial into the field at the index, as the specification asks, and
    the schema keeps its length.  Outside the bounds it does not fail.
    At or past the end the schema grows to [index + 1] positions: the
    fields as they were, then empty positions, and at the index an
    object with the attributes of the partial alone; the rest of the
    configuration is as it was.  With a negative index the
    configuration is as it was. *)
Theorem updateSchemaField_total (index : Z) (field : PartialSchemaField.t)
    (c : AuditConfig.t) :
  (0 <= index < Z.of_nat (length (AuditConfig.schema c)) ->
   Spec.realises (updateSchemaField index field c)
                 (Spec.update_schema_field index field c)
   /\ exists old : SchemaField.t,
        AuditConfig.schema c !! Z.to_nat index = Some old
        /\ schema (updateSchemaField index field c)
           = Whole <$> <[Z.to_nat index := spreadSchemaField old field]>
                         (AuditConfig.schema c)
        /\ length (schema (updateSchemaField index field c))
           = length (AuditConfig.schema c))
  /\ (Z.of_nat (length (AuditConfig.schema c)) <= index ->
      schema (updateSchemaField index field c)
      = (Whole <$> AuditConfig.schema c)
        ++ replicate (Z.to_nat index - length (AuditConfig.schema c))%nat
             Hole
        ++ [Part field]
      /\ Z.of_nat (length (schema (updateSchemaField index field c)))
         = index + 1
      /\ dataset_name (updateSchemaField index field c)
         = AuditConfig.dataset_name c
      /\ primary_key (updateSchemaField index field c)
         = AuditConfig.primary_key c
      /\ rules (updateSchemaField index field c)
         = Whole <$> AuditConfig.rules c)
  /\ (index < 0 -> updateSchemaField index field c = updatedOf c).
Proof.
  split; [|split].
  - intros Hin.
    destruct (lookup_inside (AuditConfig.schema c) index Hin)
      as [old Hold].
    assert (Hpos : (index <? 0) = false) by (apply Z.ltb_ge; lia).
    split.
    + unfold Spec.realises, Spec.update_schema_field.
      rewrite Hpos, Hold.
      unfold updateSchemaField, updatedOf. simpl.
      now rewrite (assignSpread_inside _ _ _ _ old) by (lia || assumption).
    + exists old. split; [assumption|].
      unfold updateSchemaField. simpl.
      rewrite (assignSpread_inside _ _ _ _ old) by (lia || assumption).
      split; [reflexivity|].
      now rewrite length_fmap, length_insert.
  - intros Hlen. unfold updateSchemaField. simpl.
    rewrite assignSpread_beyond by assumption.
    repeat split.
    rewrite !length_app, length_fmap, length_replicate. simpl. lia.
  - intros Hneg. unfold updateSchemaField, updatedOf.
    now rewrite assignSpread_negative.
Qed.

Lemma updateSchemaField_total_witness :
  schema (updateSchemaField 1 Examples.rename Examples.config2)
  = [Whole Examples.fieldA;
     Whole (SchemaField.mk "id" DInteger false None (Some (0 # 1)) None
                           None None)]
  /\ length (schema (updateSchemaField 1 Examples.rename Examples.config2))
     = 2%nat.
Proof.
  split; [reflexivity|].
  destruct (updateSchemaField_total 1 Examples.rename Examples.config2)
    as (Hin & _ & _).
  destruct Hin as (_ & old & _ & _ & Hlen).
  - simpl. lia.
  - exact Hlen.
Defined.

(** C6, as the specification words it, fails past the end of the
    schema: the specification asks index 3 of two fields to fail with
    IndexOutOfRange, and [updateSchemaField] returns a configuration
    whose schema has four positions. *)
Lemma updateSchemaField_does_not_fail :
  Spec.update_schema_field 3 Examples.rename Examples.config2
  = inl Spec.IndexOutOfRange
  /\ schema (updateSchemaField 3 Examples.rename Examples.config2)
     = [Whole Examples.fieldA; Whole Examples.fieldB; Hole;
        Part Examples.rename]
  /\ ~ Spec.realises
         (updateSchemaField 3 Examples.rename Examples.config2)
         (Spec.update_schema_field 3 Examples.rename Examples.config2).
Proof.
  split; [reflexivity | split; [reflexivity|]].
  intros H. exact H.
Qed.

Lemma filterIdx_all {T : Type} (keep : Z -> bool) (arr : list T)
    (from : Z) :
  (forall idx, from <= idx < from + Z.of_nat (length arr) ->
               keep idx = true) ->
  filterIdx keep from arr = arr.
Proof.
  revert from.
  induction arr as [|x arr IH]; intros from Hkeep; [reflexivity|].
  simpl in *. rewrite Hkeep by lia.
  f_equal. apply IH. intros idx Hidx. apply Hkeep. lia.
Qed.

Lemma filterIdx_outside {T : Type} (arr : list T) (index : Z) :
  index < 0 \/ Z.of_nat (length arr) <= index ->
  filterIdx (fun idx => negb (idx =? index)) 0 arr = arr.
Proof.
  intros Hout. apply filterIdx_all.
  intros idx Hidx. apply negb_true_iff, Z.eqb_neq. lia.
Qed.

(** C9.  With an index outside the positions of the schema
    [removeSchemaField] returns the configuration it was given, and
    with an index outside the positions of the rules so does
    [removeRule]; neither can fail. *)
Theorem remove_outside_is_identity (index : Z) (c : AuditConfig.t) :
  (index < 0 \/ Z.of_nat (length (AuditConfig.schema c)) <= index ->
   removeSchemaField index c = c)
  /\ (index < 0 \/ Z.of_nat (length (AuditConfig.rules c)) <= index ->
      removeRule index c = c).
Proof.
  destruct c as [name pk fields rs].
  unfold removeSchemaField, removeRule. simpl.
  split; intros Hout; now rewrite filterIdx_outside.
Qed.

Lemma remove_outside_is_identity_witness :
  removeSchemaField 2 Examples.config2 = Examples.config2
  /\ removeRule (-1) Examples.config2 = Examples.config2
  /\ removeSchemaField 0 Examples.config2
     = AuditConfig.mk "uploaded_dataset" (Some ["field_1"])
                      [Examples.fieldB] [Examples.ruleA].
Proof.
  split; [|split; [|reflexivity]].
  - apply (remove_outside_is_identity 2 Examples.config2).
    right. simpl. lia.
  - apply (remove_outside_is_identity (-1) Examples.config2).
    left. lia.
Defined.

Lemma mergedAttr_default {A : Type} (old : A) (named : option A) :
  Spec.mergedAttr old named (default old named).
Proof.
  now destruct named.
Qed.

(** C10.  Inside the bounds [updateSchemaField] keeps the length of the
    schema, every field at another index, the dataset name, the primary
    key and the rules; in the field at the index each attribute the
    partial names takes the partial's value and every other attribute
    keeps its own. *)
Theorem updateSchemaField_frame (index : Z) (field : PartialSchemaField.t)
    (c : AuditConfig.t) :
  0 <= index < Z.of_nat (length (AuditConfig.schema c)) ->
  length (schema (updateSchemaField index field c))
  = length (AuditConfig.schema c)
  /\ (forall j : nat,
        j <> Z.to_nat index ->
        schema (updateSchemaField index field c) !! j
        = Whole <$> AuditConfig.schema c !! j)
  /\ dataset_name (updateSchemaField index field c)
     = AuditConfig.dataset_name c
  /\ primary_key (updateSchemaField index field c)
     = AuditConfig.primary_key c
  /\ rules (updateSchemaField index field c) = Whole <$> AuditConfig.rules c
  /\ exists old new : SchemaField.t,
       AuditConfig.schema c !! Z.to_nat index = Some old
       /\ schema (updateSchemaField index field c) !! Z.to_nat index
          = Some (Whole new)
       /\ Spec.mergedAttr (SchemaField.name old)
            (PartialSchemaField.name field) (SchemaField.name new)
       /\ Spec.mergedAttr (SchemaField.dtype old)
            (PartialSchemaField.dtype field) (SchemaField.dtype new)
       /\ Spec.mergedAttr (SchemaField.nullable old)
            (PartialSchemaField.nullable field) (SchemaField.nullable new)
       /\ Spec.mergedAttr (SchemaField.description old)
            (PartialSchemaField.description field)
            (SchemaField.description new)
       /\ Spec.mergedAttr (SchemaField.min old)
            (PartialSchemaField.min field) (SchemaField.min new)
       /\ Spec.mergedAttr (SchemaField.max old)
            (PartialSchemaField.max field) (SchemaField.max new)
       /\ Spec.mergedAttr (SchemaField.allowed_values old)
            (PartialSchemaField.allowed_values field)
            (SchemaField.allowed_values new)
       /\ Spec.mergedAttr (SchemaField.regex old)
            (PartialSchemaField.regex field) (SchemaField.regex new).
Proof.
  intros Hin.
  destruct (lookup_inside (AuditConfig.schema c) index Hin) as [old Hold].
  assert (Hschema :
    schema (updateSchemaField index field c)
    = Whole <$> <[Z.to_nat index := spreadSchemaField old field]>
                  (AuditConfig.schema c)).
  { unfold updateSchemaField. simpl.
    now rewrite (assignSpread_inside _ _ _ _ old) by (lia || assumption). }
  rewrite Hschema.
  split; [|split; [|split; [|split; [|split]]]]; try reflexivity.
  - now rewrite length_fmap, length_insert.
  - intros j Hj.
    now rewrite list_lookup_fmap, list_lookup_insert_ne.
  - exists old, (spreadSchemaField old field).
    split; [assumption|]. split.
    + rewrite list_lookup_fmap, list_lookup_insert_eq by lia.
      reflexivity.
    + unfold spreadSchemaField; simpl.
      repeat split; apply mergedAttr_default.
Qed.

Lemma updateSchemaField_frame_witness :
  0 <= 1 < Z.of_nat (length (AuditConfig.schema Examples.config2))
  /\ schema (updateSchemaField 1 Examples.rename Examples.config2) !! 0%nat
     = Some (Whole Examples.fieldA)
  /\ schema (updateSchemaField 1 Examples.rename Examples.config2) !! 1%nat
     = Some (Whole (SchemaField.mk "id" DInteger false None (Some (0 # 1))
                                   None None None)).
Proof.
  assert (Hin : 0 <= 1
                < Z.of_nat (length (AuditConfig.schema Examples.config2)))
    by (simpl; lia).
  split; [exact Hin | split; [|reflexivity]].
  destruct (updateSchemaField_frame 1 Examples.rename Examples.config2 Hin)
    as (_ & Hothers & _).
  rewrite (Hothers 0%nat); [reflexivity | discriminate].
Defined.

Lemma Forall2_map_r {A B : Type} (R : A -> B -> Prop) (f : A -> B)
    (l : list A) :
  (forall x, R x (f x)) -> Forall2 R l (List.map f l).
Proof.
  intros H. induction l; simpl; constructor; auto.
Qed.

(** C8.  The list stored for a raw string of allowed values is made of
    the pieces between its commas (no piece holds a comma, and joined
    by commas they are the string), each without the white space at its
    two ends, the empty ones left out; [updateSchemaField] puts that
    list in the field at the index.  ["a, b ,, c"] gives [a], [b], [c],
    and ["a, ,b"] gives [a], [b]. *)
Theorem allowed_values_from_string (value : string) :
  (exists pieces tokens : list string,
      Js.join "," pieces = value
      /\ Forall (fun piece => Spec.occurs "," piece = false) pieces
      /\ Forall2 Spec.trimmedTo pieces tokens
      /\ allowedValuesOf value
         = List.filter (fun token => negb (String.eqb token EmptyString))
                       tokens)
  /\ Forall (fun token => token <> EmptyString
                          /\ Spec.occurs "," token = false
                          /\ Spec.startsWhite token = false
                          /\ Spec.endsWhite token = false)
            (allowedValuesOf value)
  /\ (forall (index : Z) (c : AuditConfig.t) (old : SchemaField.t),
        0 <= index ->
        AuditConfig.schema c !! Z.to_nat index = Some old ->
        schema (onAllowedValuesChange index value c) !! Z.to_nat index
        = Some (Whole (SchemaField.mk
                         (SchemaField.name old) (SchemaField.dtype old)
                         (SchemaField.nullable old)
                         (SchemaField.description old)
                         (SchemaField.min old) (SchemaField.max old)
                         (Some (allowedValuesOf value))
                         (SchemaField.regex old))))
  /\ allowedValuesOf "a, b ,, c" = ["a"; "b"; "c"]
  /\ allowedValuesOf "a, ,b" = ["a"; "b"].
Proof.
  split; [|split; [|split; [|split; reflexivity]]].
  - exists (Js.split "," value), (List.map Js.trim (Js.split "," value)).
    split; [apply join_split | split; [apply split_no_sep | split]].
    + apply Forall2_map_r, trim_spec.
    + unfold allowedValuesOf. apply List.filter_ext.
      now intros [|ch token].
  - unfold allowedValuesOf.
    apply List.Forall_forall. intros token Hin.
    apply List.filter_In in Hin as [Hin Htruthy].
    apply List.in_map_iff in Hin as (piece & <- & Hin).
    pose proof (split_no_sep "," value) as Hsep.
    rewrite List.Forall_forall in Hsep. specialize (Hsep piece Hin).
    destruct (trim_spec piece)
      as (pre & post & Hpiece & _ & _ & Hstart & Hend).
    split; [now destruct (Js.trim piece) | split; [|now split]].
    rewrite Hpiece in Hsep.
    revert Hsep. clear.
    generalize (Js.trim piece) as token. intros token.
    induction pre as [|ch pre IH]; simpl.
    * induction token as [|ch token IH]; simpl; [reflexivity|].
      intros H. apply orb_false_iff in H as [-> H]. simpl. auto.
    * intros H. apply orb_false_iff in H as [_ H]. auto.
  - intros index c old Hpos Hold.
    unfold onAllowedValuesChange, updateSchemaField. simpl.
    rewrite (assignSpread_inside _ _ _ _ old) by assumption.
    rewrite list_lookup_fmap, list_lookup_insert_eq
      by (eapply lookup_lt_Some; eassumption).
    reflexivity.
Qed.

End ConfigEdits.


(** ** More on the edits of the configuration *)

Section ConfigEditsMore.
Import stdpp.base stdpp.list.
Import AuditConfigForm.
Local Open Scope Z_scope.

(** Dropping the position [index] is what the filter on positions does,
    whatever the position the count starts from. *)
Lemma filterIdx_delete {T : Type} (arr : list T) (index from : Z) :
  from <= index ->
  filterIdx (fun idx => negb (idx =? index)) from arr
  = delete (Z.to_nat (index - from)) arr.
Proof.
  revert from.
  induction arr as [|x arr IH]; intros from Hle; [reflexivity|].
  simpl filterIdx.
  destruct (from =? index) eqn:Heq; simpl negb; cbv iota.
  - apply Z.eqb_eq in Heq. subst from.
    rewrite Z.sub_diag. simpl.
    apply filterIdx_all. intros idx Hidx.
    apply negb_true_iff, Z.eqb_neq. lia.
  - apply Z.eqb_neq in Heq.
    rewrite IH by lia.
    replace (Z.to_nat (index - from)) with (S (Z.to_nat (index - (from + 1))))
      by lia.
    reflexivity.
Qed.

Lemma delete_last {T : Type} (arr : list T) (x : T) :
  delete (length arr) (arr ++ [x]) = arr.
Proof.
  induction arr as [|y arr IH]; simpl; [reflexivity | now rewrite IH].
Qed.

(** Inside the bounds [removeSchemaField] takes out the one field at the
    index: the schema is one shorter, the fields before the index stay
    where they are and each later one moves down by one; the dataset
    name, the primary key and the rules are as they were. *)
Theorem removeSchemaField_inside (index : Z) (c : AuditConfig.t) :
  0 <= index < Z.of_nat (length (AuditConfig.schema c)) ->
  S (length (AuditConfig.schema (removeSchemaField index c)))
  = length (AuditConfig.schema c)
  /\ (forall j : nat,
        (j < Z.to_nat index)%nat ->
        AuditConfig.schema (removeSchemaField index c) !! j
        = AuditConfig.schema c !! j)
  /\ (forall j : nat,
        (Z.to_nat index <= j)%nat ->
        AuditConfig.schema (removeSchemaField index c) !! j
        = AuditConfig.schema c !! S j)
  /\ AuditConfig.dataset_name (removeSchemaField index c)
     = AuditConfig.dataset_name c
  /\ AuditConfig.primary_key (removeSchemaField index c)
     = AuditConfig.primary_key c
  /\ AuditConfig.rules (removeSchemaField index c) = AuditConfig.rules c.
Proof.
  intros Hin. unfold removeSchemaField. simpl.
  rewrite filterIdx_delete, Z.sub_0_r by lia.
  split; [|split; [|split; [|repeat split]]].
  - destruct (lookup_inside (AuditConfig.schema c) index Hin) as [old Hold].
    rewrite length_delete; [|eauto].
    apply lookup_lt_Some in Hold. lia.
  - intros j Hj. now apply list_lookup_delete_lt.
  - intros j Hj. now apply list_lookup_delete_ge.
Qed.

Lemma removeSchemaField_inside_witness :
  0 <= 0 < Z.of_nat (length (AuditConfig.schema Examples.config2))
  /\ AuditConfig.schema (removeSchemaField 0 Examples.config2) !! 0%nat
     = Some Examples.fieldB.
Proof.
  assert (Hin : 0 <= 0
                < Z.of_nat (length (AuditConfig.schema Examples.config2)))
    by (simpl; lia).
  split; [exact Hin|].
  destruct (removeSchemaField_inside 0 Examples.config2 Hin)
    as (_ & _ & Hlater & _).
  rewrite (Hlater 0%nat); [reflexivity | simpl; lia].
Defined.

(** Inside the bounds [removeRule] takes out the one rule at the index:
    the rules are one fewer, those before the index stay where they are
    and each later one moves down by one; the dataset name, the primary
    key and the schema are as they were. *)
Theorem removeRule_inside (index : Z) (c : AuditConfig.t) :
  0 <= index < Z.of_nat (length (AuditConfig.rules c)) ->
  S (length (AuditConfig.rules (removeRule index c)))
  = length (AuditConfig.rules c)
  /\ (forall j : nat,
        (j < Z.to_nat index)%nat ->
        AuditConfig.rules (removeRule index c) !! j
        = AuditConfig.rules c !! j)
  /\ (forall j : nat,
        (Z.to_nat index <= j)%nat ->
        AuditConfig.rules (removeRule index c) !! j
        = AuditConfig.rules c !! S j)
  /\ AuditConfig.dataset_name (removeRule index c)
     = AuditConfig.dataset_name c
  /\ AuditConfig.primary_key (removeRule index c)
     = AuditConfig.primary_key c
  /\ AuditConfig.schema (removeRule index c) = AuditConfig.schema c.
Proof.
  intros Hin. unfold removeRule. simpl.
  rewrite filterIdx_delete, Z.sub_0_r by lia.
  split; [|split; [|split; [|repeat split]]].
  - destruct (lookup_inside (AuditConfig.rules c) index Hin) as [old Hold].
    rewrite length_delete; [|eauto].
    apply lookup_lt_Some in Hold. lia.
  - intros j Hj. now apply list_lookup_delete_lt.
  - intros j Hj. now apply list_lookup_delete_ge.
Qed.

Lemma removeRule_inside_witness :
  0 <= 0 < Z.of_nat (length (AuditConfig.rules Examples.config2))
  /\ AuditConfig.rules (removeRule 0 Examples.config2) = [].
Proof.
  assert (Hin : 0 <= 0
                < Z.of_nat (length (AuditConfig.rules Examples.config2)))
    by (simpl; lia).
  split; [exact Hin|].
  destruct (removeRule_inside 0 Examples.config2 Hin) as (Hlen & _).
  destruct (AuditConfig.rules (removeRule 0 Examples.config2));
    [reflexivity | discriminate Hlen].
Defined.

(** [addSchemaField] puts one field after the others, named [field_]
    and the new length, of type string, nullable, with no optional
    attribute; the fields already there keep their positions; and
    removing the new position gives the configuration back. *)
Theorem addSchemaField_then_remove (c : AuditConfig.t) :
  AuditConfig.schema (addSchemaField c) !! length (AuditConfig.schema c)
  = Some (SchemaField.mk
            ("field_" ++
             Js.numberToString
               (Z.of_nat (length (AuditConfig.schema c)) + 1))%string
            DString true None None None None None)
  /\ length (AuditConfig.schema (addSchemaField c))
     = S (length (AuditConfig.schema c))
  /\ (forall j : nat,
        (j < length (AuditConfig.schema c))%nat ->
        AuditConfig.schema (addSchemaField c) !! j
        = AuditConfig.schema c !! j)
  /\ removeSchemaField (Z.of_nat (length (AuditConfig.schema c)))
                       (addSchemaField c)
     = c.
Proof.
  destruct c as [name pk fields rs]. unfold addSchemaField. simpl.
  split; [|split; [|split]].
  - now rewrite list_lookup_middle.
  - rewrite length_app. simpl. lia.
  - intros j Hj. now apply lookup_app_l.
  - unfold removeSchemaField. simpl.
    rewrite filterIdx_delete, Z.sub_0_r, Nat2Z.id by lia.
    now rewrite delete_last.
Qed.

(** [addRule] puts one rule after the others, named [Rule] and the new
    count, with the expression [1 = 1], the severity [warning] and an
    empty description; the rules already there keep their positions; and
    removing the new position gives the configuration back. *)
Theorem addRule_then_remove (c : AuditConfig.t) :
  AuditConfig.rules (addRule c) !! length (AuditConfig.rules c)
  = Some (RuleDefinition.mk
            ("Rule " ++
             Js.numberToString
               (Z.of_nat (length (AuditConfig.rules c)) + 1))%string
            "1 = 1" Warning (Some EmptyString))
  /\ length (AuditConfig.rules (addRule c))
     = S (length (AuditConfig.rules c))
  /\ (forall j : nat,
        (j < length (AuditConfig.rules c))%nat ->
        AuditConfig.rules (addRule c) !! j = AuditConfig.rules c !! j)
  /\ removeRule (Z.of_nat (length (AuditConfig.rules c))) (addRule c) = c.
Proof.
  destruct c as [name pk fields rs]. unfold addRule. simpl.
  split; [|split; [|split]].
  - now rewrite list_lookup_middle.
  - rewrite length_app. simpl. lia.
  - intros j Hj. now apply lookup_app_l.
  - unfold removeRule. simpl.
    rewrite filterIdx_delete, Z.sub_0_r, Nat2Z.id by lia.
    now rewrite delete_last.
Qed.

(** [addSchemaField] does not keep the names apart: add a field to a
    schema that is not empty, remove the first field, add again, and the
    last two fields have one name. *)
Theorem addSchemaField_repeats_name (c : AuditConfig.t) :
  AuditConfig.schema c <> [] ->
  exists (earlier : list SchemaField.t) (f g : SchemaField.t),
    AuditConfig.schema
      (addSchemaField (removeSchemaField 0 (addSchemaField c)))
    = earlier ++ [f; g]
    /\ SchemaField.name f = SchemaField.name g
    /\ SchemaField.name g
       = ("field_" ++
          Js.numberToString
            (Z.of_nat (length (AuditConfig.schema c)) + 1))%string.
Proof.
  destruct c as [name pk fields rs]. simpl. intros Hne.
  destruct fields as [|x fields]; [congruence|].
  unfold addSchemaField, removeSchemaField. simpl.
  rewrite filterIdx_all.
  - eexists fields, _, _. rewrite <- app_assoc. simpl.
    split; [reflexivity|]. simpl.
    rewrite length_app. simpl.
    replace (Z.of_nat (length fields + 1)) with (Z.pos (Pos.of_succ_nat (length fields))) by lia.
    split; reflexivity.
  - intros idx Hidx. apply negb_true_iff, Z.eqb_neq. lia.
Qed.

Lemma addSchemaField_repeats_name_witness :
  AuditConfig.schema Examples.config2 <> []
  /\ exists (earlier : list SchemaField.t) (f g : SchemaField.t),
       AuditConfig.schema
         (addSchemaField
            (removeSchemaField 0 (addSchemaField Examples.config2)))
       = earlier ++ [f; g]
       /\ SchemaField.name f = SchemaField.name g
       /\ SchemaField.name g = "field_3".
Proof.
  assert (Hne : AuditConfig.schema Examples.config2 <> [])
    by discriminate.
  split; [exact Hne|].
  exact (addSchemaField_repeats_name Examples.config2 Hne).
Defined.

Lemma spreadSchemaField_twice (old : SchemaField.t)
    (p q : PartialSchemaField.t) :
  spreadSchemaField (spreadSchemaField old p) q
  = spreadSchemaField old (Spec.thenPartial p q).
Proof.
  destruct p, q. unfold spreadSchemaField, Spec.thenPartial. simpl.
  f_equal;
    match goal with
    | |- context [Spec.later _ ?named] => now destruct named
    end.
Qed.

Lemma thenPartial_same (p : PartialSchemaField.t) :
  Spec.thenPartial p p = p.
Proof.
  destruct p as [n d b ds mn mx av rx]. unfold Spec.thenPartial. simpl.
  now destruct n, d, b, ds, mn, mx, av, rx.
Qed.

Lemma updateSchemaField_inside (index : Z) (field : PartialSchemaField.t)
    (c : AuditConfig.t) (old : SchemaField.t) :
  0 <= index ->
  AuditConfig.schema c !! Z.to_nat index = Some old ->
  updateSchemaField index field c
  = updatedOf
      (AuditConfig.mk (AuditConfig.dataset_name c)
         (AuditConfig.primary_key c)
         (<[Z.to_nat index := spreadSchemaField old field]>
            (AuditConfig.schema c))
         (AuditConfig.rules c)).
Proof.
  intros Hpos Hold. unfold updateSchemaField, updatedOf. simpl.
  now rewrite (assignSpread_inside _ _ _ _ old).
Qed.

(** Two updates of one field, one after the other, are the one update
    with both partials, the later one first where both name an
    attribute; and the same update a second time changes nothing. *)
Theorem updateSchemaField_twice (index : Z) (p q : PartialSchemaField.t)
    (c : AuditConfig.t) :
  0 <= index < Z.of_nat (length (AuditConfig.schema c)) ->
  exists c1 : AuditConfig.t,
    updateSchemaField index p c = updatedOf c1
    /\ updateSchemaField index q c1
       = updateSchemaField index (Spec.thenPartial p q) c
    /\ updateSchemaField index p c1 = updatedOf c1.
Proof.
  intros Hin.
  destruct (lookup_inside (AuditConfig.schema c) index Hin) as [old Hold].
  assert (Hlt : (Z.to_nat index < length (AuditConfig.schema c))%nat)
    by lia.
  eexists. split; [apply (updateSchemaField_inside _ _ _ old); [lia|assumption]|].
  assert (Hnew :
    <[Z.to_nat index := spreadSchemaField old p]> (AuditConfig.schema c)
      !! Z.to_nat index = Some (spreadSchemaField old p))
    by now apply list_lookup_insert_eq.
  split.
  - rewrite (updateSchemaField_inside index q _ (spreadSchemaField old p))
      by (simpl; (lia || assumption)).
    rewrite (updateSchemaField_inside index _ c old) by (lia || assumption).
    simpl. now rewrite list_insert_insert_eq, spreadSchemaField_twice.
  - rewrite (updateSchemaField_inside index p _ (spreadSchemaField old p))
      by (simpl; (lia || assumption)).
    simpl.
    now rewrite list_insert_insert_eq, spreadSchemaField_twice,
      thenPartial_same.
Qed.

Lemma updateSchemaField_twice_witness :
  0 <= 1 < Z.of_nat (length (AuditConfig.schema Examples.config2))
  /\ exists c1 : AuditConfig.t,
       updateSchemaField 1 Examples.rename Examples.config2 = updatedOf c1
       /\ updateSchemaField 1 Examples.rename c1
          = updateSchemaField 1
              (Spec.thenPartial Examples.rename Examples.rename)
              Examples.config2
       /\ updateSchemaField 1 Examples.rename c1 = updatedOf c1.
Proof.
  assert (Hin : 0 <= 1
                < Z.of_nat (length (AuditConfig.schema Examples.config2)))
    by (simpl; lia).
  split; [exact Hin|].
  exact (updateSchemaField_twice 1 Examples.rename Examples.rename
           Examples.config2 Hin).
Defined.

(** Updates of two different fields can be made in either order. *)
Theorem updateSchemaField_commute (i j : Z) (p q : PartialSchemaField.t)
    (c : AuditConfig.t) :
  0 <= i < Z.of_nat (length (AuditConfig.schema c)) ->
  0 <= j < Z.of_nat (length (AuditConfig.schema c)) ->
  i <> j ->
  exists c1 c2 : AuditConfig.t,
    updateSchemaField i p c = updatedOf c1
    /\ updateSchemaField j q c = updatedOf c2
    /\ updateSchemaField j q c1 = updateSchemaField i p c2.
Proof.
  intros Hi Hj Hij.
  destruct (lookup_inside (AuditConfig.schema c) i Hi) as [fi Hfi].
  destruct (lookup_inside (AuditConfig.schema c) j Hj) as [fj Hfj].
  assert (Hne : Z.to_nat i <> Z.to_nat j) by lia.
  eexists _, _.
  split; [apply (updateSchemaField_inside _ _ _ fi); [lia|assumption]|].
  split; [apply (updateSchemaField_inside _ _ _ fj); [lia|assumption]|].
  rewrite (updateSchemaField_inside j q _ fj);
    [|lia | simpl; now rewrite list_lookup_insert_ne].
  rewrite (updateSchemaField_inside i p _ fi);
    [|lia | simpl; rewrite list_lookup_insert_ne; [assumption | lia]].
  simpl. now rewrite list_insert_insert_ne.
Qed.

Lemma updateSchemaField_commute_witness :
  0 <= 0 < Z.of_nat (length (AuditConfig.schema Examples.config2))
  /\ 0 <= 1 < Z.of_nat (length (AuditConfig.schema Examples.config2))
  /\ 0 <> 1
  /\ exists c1 c2 : AuditConfig.t,
       updateSchemaField 0 Examples.rename Examples.config2 = updatedOf c1
       /\ updateSchemaField 1 Examples.rename Examples.config2
          = updatedOf c2
       /\ updateSchemaField 1 Examples.rename c1
          = updateSchemaField 0 Examples.rename c2.
Proof.
  assert (H0 : 0 <= 0
               < Z.of_nat (length (AuditConfig.schema Examples.config2)))
    by (simpl; lia).
  assert (H1 : 0 <= 1
               < Z.of_nat (length (AuditConfig.schema Examples.config2)))
    by (simpl; lia).
  assert (Hne : 0 <> 1) by lia.
  split; [exact H0 | split; [exact H1 | split; [exact Hne|]]].
  exact (updateSchemaField_commute 0 1 Examples.rename Examples.rename
           Examples.config2 H0 H1 Hne).
Defined.

(** Inside the bounds [updateRule] keeps the number of rules, every rule
    at another index, the dataset name, the primary key and the schema;
    in the rule at the index each attribute the partial names takes the
    partial's value and every other attribute keeps its own. *)
Theorem updateRule_inside (index : Z) (rule : PartialRuleDefinition.t)
    (c : AuditConfig.t) :
  0 <= index < Z.of_nat (length (AuditConfig.rules c)) ->
  length (rules (updateRule index rule c)) = length (AuditConfig.rules c)
  /\ (forall j : nat,
        j <> Z.to_nat index ->
        rules (updateRule index rule c) !! j
        = Whole <$> AuditConfig.rules c !! j)
  /\ dataset_name (updateRule index rule c) = AuditConfig.dataset_name c
  /\ primary_key (updateRule index rule c) = AuditConfig.primary_key c
  /\ schema (updateRule index rule c) = Whole <$> AuditConfig.schema c
  /\ exists old new : RuleDefinition.t,
       AuditConfig.rules c !! Z.to_nat index = Some old
       /\ rules (updateRule index rule c) !! Z.to_nat index
          = Some (Whole new)
       /\ Spec.mergedAttr (RuleDefinition.name old)
            (PartialRuleDefinition.name rule) (RuleDefinition.name new)
       /\ Spec.mergedAttr (RuleDefinition.expression old)
            (PartialRuleDefinition.expression rule)
            (RuleDefinition.expression new)
       /\ Spec.mergedAttr (RuleDefinition.severity old)
            (PartialRuleDefinition.severity rule)
            (RuleDefinition.severity new)
       /\ Spec.mergedAttr (RuleDefinition.description old)
            (PartialRuleDefinition.description rule)
            (RuleDefinition.description new).
Proof.
  intros Hin.
  destruct (lookup_inside (AuditConfig.rules c) index Hin) as [old Hold].
  assert (Hrules :
    rules (updateRule index rule c)
    = Whole <$> <[Z.to_nat index := spreadRule old rule]>
                  (AuditConfig.rules c)).
  { unfold updateRule. simpl.
    now rewrite (assignSpread_inside _ _ _ _ old) by (lia || assumption). }
  rewrite Hrules.
  split; [|split; [|split; [|split; [|split]]]]; try reflexivity.
  - now rewrite length_fmap, length_insert.
  - intros j Hj.
    now rewrite list_lookup_fmap, list_lookup_insert_ne.
  - exists old, (spreadRule old rule).
    split; [assumption|]. split.
    + rewrite list_lookup_fmap, list_lookup_insert_eq by lia.
      reflexivity.
    + unfold spreadRule; simpl.
      repeat split; apply mergedAttr_default.
Qed.

Lemma updateRule_inside_witness :
  0 <= 0 < Z.of_nat (length (AuditConfig.rules Examples.config2))
  /\ length
       (rules (updateRule 0
                 (PartialRuleDefinition.mk None (Some "age >= 0") None None)
                 Examples.config2))
     = 1%nat.
Proof.
  assert (Hin : 0 <= 0
                < Z.of_nat (length (AuditConfig.rules Examples.config2)))
    by (simpl; lia).
  split; [exact Hin|].
  apply (updateRule_inside 0
           (PartialRuleDefinition.mk None (Some "age >= 0") None None)
           Examples.config2 Hin).
Defined.

(** At or past the end of the rules [updateRule] does not fail: the
    rules grow to [index + 1] positions, those that were there, then
    empty positions, and at the index an object with the attributes of
    the partial alone; the rest of the configuration is as it was. *)
Theorem updateRule_beyond (index : Z) (rule : PartialRuleDefinition.t)
    (c : AuditConfig.t) :
  Z.of_nat (length (AuditConfig.rules c)) <= index ->
  rules (updateRule index rule c)
  = (Whole <$> AuditConfig.rules c)
    ++ replicate (Z.to_nat index - length (AuditConfig.rules c))%nat Hole
    ++ [Part rule]
  /\ Z.of_nat (length (rules (updateRule index rule c))) = index + 1
  /\ dataset_name (updateRule index rule c) = AuditConfig.dataset_name c
  /\ primary_key (updateRule index rule c) = AuditConfig.primary_key c
  /\ schema (updateRule index rule c) = Whole <$> AuditConfig.schema c.
Proof.
  intros Hlen. unfold updateRule. simpl.
  rewrite assignSpread_beyond by assumption.
  repeat split.
  rewrite !length_app, length_fmap, length_replicate. simpl. lia.
Qed.

Lemma updateRule_beyond_witness :
  Z.of_nat (length (AuditConfig.rules Examples.config2)) <= 2
  /\ rules (updateRule 2 PartialRuleDefinition.empty Examples.config2)
     = [Whole Examples.ruleA; Hole; Part PartialRuleDefinition.empty].
Proof.
  assert (Hlen : Z.of_nat (length (AuditConfig.rules Examples.config2)) <= 2)
    by (simpl; lia).
  split; [exact Hlen|].
  apply (updateRule_beyond 2 PartialRuleDefinition.empty Examples.config2
           Hlen).
Defined.

End ConfigEditsMore.

(** ** The "Allowed values" input: what it shows and what it stores *)

Section AllowedValuesInput.
Import AuditConfigForm.

Lemma append_assoc (a b c : string) :
  ((a ++ b) ++ c)%string = (a ++ b ++ c)%string.
Proof.
  induction a as [|ch a IH]; simpl; [reflexivity | now rewrite IH].
Qed.

Lemma append_empty_r (a : string) : (a ++ EmptyString)%string = a.
Proof.
  induction a as [|ch a IH]; simpl; [reflexivity | now rewrite IH].
Qed.

Lemma occurs_app (ch : ascii) (a b : string) :
  Spec.occurs ch (a ++ b) = Spec.occurs ch a || Spec.occurs ch b.
Proof.
  induction a as [|d a IH]; simpl; [reflexivity|].
  now rewrite IH, orb_assoc.
Qed.

Lemma split_single (sep : ascii) (t : string) :
  Spec.occurs sep t = false -> Js.split sep t = [t].
Proof.
  induction t as [|ch t IH]; simpl; [reflexivity|].
  intros H. apply orb_false_iff in H as [Hch Ht].
  rewrite Hch, IH by assumption. reflexivity.
Qed.

Lemma split_app_sep (sep : ascii) (t rest : string) :
  Spec.occurs sep t = false ->
  Js.split sep (t ++ String sep rest) = t :: Js.split sep rest.
Proof.
  induction t as [|ch t IH]; simpl.
  - intros _. now rewrite Ascii.eqb_refl.
  - intros H. apply orb_false_iff in H as [Hch Ht].
    rewrite Hch, IH by assumption. reflexivity.
Qed.

Lemma white_is_no_comma (ch : ascii) :
  Js.isWhiteSpace ch = true -> Ascii.eqb ch "," = false.
Proof.
  intros Hw. apply Ascii.eqb_neq. intros ->. discriminate Hw.
Qed.

Lemma allWhite_no_comma (w : string) :
  Spec.allWhite w = true -> Spec.occurs "," w = false.
Proof.
  induction w as [|ch w IH]; simpl; [reflexivity|].
  intros H. apply andb_true_iff in H as [Hch Hw].
  now rewrite (white_is_no_comma ch Hch), IH.
Qed.

Lemma startsWhite_app (a b : string) :
  a <> EmptyString -> Spec.startsWhite (a ++ b) = Spec.startsWhite a.
Proof.
  destruct a; simpl; congruence.
Qed.

Lemma rev_string_not_empty (s : string) :
  s <> EmptyString -> Js.rev_string s <> EmptyString.
Proof.
  intros Hs Hrev. apply Hs.
  rewrite <- (rev_string_involutive s), Hrev. reflexivity.
Qed.

(** White space around a token that has none at its own ends is what
    [trim] takes off. *)
Lemma trim_padded (w1 w2 v : string) :
  Spec.allWhite w1 = true -> Spec.allWhite w2 = true ->
  v <> EmptyString ->
  Spec.startsWhite v = false -> Spec.endsWhite v = false ->
  Js.trim (w1 ++ v ++ w2) = v.
Proof.
  intros Hw1 Hw2 Hv Hstart Hend.
  unfold Js.trim. rewrite trimStart_white by assumption.
  rewrite trimStart_id by (rewrite startsWhite_app; assumption).
  unfold Js.trimEnd.
  rewrite rev_string_app, trimStart_white by (now rewrite allWhite_rev).
  rewrite trimStart_id by exact Hend.
  apply rev_string_involutive.
Qed.

Lemma cleanToken_spec (v : string) :
  Spec.cleanToken v = true ->
  v <> EmptyString /\ Spec.occurs "," v = false
  /\ Spec.startsWhite v = false /\ Spec.endsWhite v = false.
Proof.
  unfold Spec.cleanToken. intros H.
  apply andb_true_iff in H as [H Hend].
  apply andb_true_iff in H as [H Hstart].
  apply andb_true_iff in H as [Hne Hcomma].
  apply negb_true_iff in Hend, Hstart, Hcomma.
  repeat split; trivial. now destruct v.
Qed.

(** One comma-free piece in front of a comma gives its token, if it has
    one, in front of the tokens of the rest. *)
Lemma allowedValuesOf_piece (piece rest : string) :
  Spec.occurs "," piece = false ->
  allowedValuesOf (piece ++ String "," rest)
  = ((if Js.truthy (Js.trim piece) then [Js.trim piece] else [])
     ++ allowedValuesOf rest)%list.
Proof.
  intros Hpiece. unfold allowedValuesOf.
  rewrite split_app_sep by assumption. simpl.
  now destruct (Js.truthy (Js.trim piece)).
Qed.

Lemma allowedValuesOf_last (piece : string) :
  Spec.occurs "," piece = false ->
  allowedValuesOf piece
  = if Js.truthy (Js.trim piece) then [Js.trim piece] else [].
Proof.
  intros Hpiece. unfold allowedValuesOf.
  now rewrite split_single by assumption.
Qed.

Lemma padded_no_comma (w1 w2 v : string) :
  Spec.allWhite w1 = true -> Spec.allWhite w2 = true ->
  Spec.occurs "," v = false ->
  Spec.occurs "," (w1 ++ v ++ w2) = false.
Proof.
  intros Hw1 Hw2 Hv.
  now rewrite !occurs_app, Hv, !allWhite_no_comma.
Qed.

Lemma truthy_clean (v : string) : v <> EmptyString -> Js.truthy v = true.
Proof.
  now destruct v.
Qed.

(** The text of a list of clean tokens, with white space in front and
    either white space or a comma behind, holds exactly these tokens. *)
Lemma allowedValuesOf_join (values : list string) (lead tail : string) :
  values <> [] ->
  forallb Spec.cleanToken values = true ->
  Spec.allWhite lead = true ->
  Spec.allWhite tail = true \/ tail = "," ->
  allowedValuesOf (lead ++ Js.join ", " values ++ tail) = values.
Proof.
  revert lead.
  induction values as [|v values IH]; intros lead Hne Hclean Hlead Htail;
    [congruence|].
  simpl in Hclean. apply andb_true_iff in Hclean as [Hv Hclean].
  apply cleanToken_spec in Hv as (Hvne & Hcomma & Hstart & Hend).
  assert (Htrim : Js.trim (lead ++ v) = v).
  { pose proof (trim_padded lead EmptyString v Hlead eq_refl Hvne Hstart Hend)
      as H.
    now rewrite append_empty_r in H. }
  assert (Hpiece : Spec.occurs "," (lead ++ v) = false)
    by now rewrite occurs_app, Hcomma, allWhite_no_comma.
  destruct values as [|v' values].
  - change (Js.join ", " [v]) with v.
    destruct Htail as [Htail | ->].
    + rewrite allowedValuesOf_last by now apply padded_no_comma.
      rewrite trim_padded by assumption.
      now rewrite truthy_clean.
    + rewrite <- append_assoc.
      rewrite allowedValuesOf_piece, Htrim by assumption.
      now rewrite truthy_clean.
  - assert (Heq :
      (lead ++ Js.join ", " (v :: v' :: values) ++ tail)%string
      = ((lead ++ v)
         ++ String ","
              (String " " EmptyString ++ Js.join ", " (v' :: values) ++ tail))
        %string).
    { change (Js.join ", " (v :: v' :: values))
        with (v ++ String "," (String " " (Js.join ", " (v' :: values))))
               %string.
      now rewrite !append_assoc. }
    rewrite Heq, allowedValuesOf_piece, Htrim by assumption.
    rewrite truthy_clean by assumption.
    change ([v] ++ ?l)%list with (v :: l).
    f_equal. apply IH; trivial. discriminate.
Qed.

Lemma allowedValuesOf_text (values : list string) :
  forallb Spec.cleanToken values = true ->
  allowedValuesOf (Js.join ", " values) = values
  /\ allowedValuesOf (Js.join ", " values ++ ",") = values
  /\ allowedValuesOf (Js.join ", " values ++ " ") = values.
Proof.
  intros Hclean.
  destruct values as [|v values]; [now repeat split|].
  pose proof (allowedValuesOf_join (v :: values) EmptyString) as H.
  simpl append in H.
  split; [|split].
  - rewrite <- (append_empty_r (Js.join ", " (v :: values))).
    apply H; trivial; [discriminate | now left].
  - apply H; trivial; [discriminate | now right].
  - apply H; trivial; [discriminate | now left].
Qed.

(** Reading back the text of a list of clean tokens gives the list, in
    its order and with its repetitions; so does the text with a comma or
    a space typed at its end. *)
Theorem allowedValues_round_trip (values : list string) :
  forallb Spec.cleanToken values = true ->
  allowedValuesOf (Js.join ", " values) = values
  /\ allowedValuesOf (Js.join ", " values ++ ",") = values
  /\ allowedValuesOf (Js.join ", " values ++ " ") = values.
Proof.
  exact (allowedValuesOf_text values).
Qed.

Lemma allowedValues_round_trip_witness :
  forallb Spec.cleanToken ["a"; "b c"; "a"] = true
  /\ allowedValuesOf "a, b c, a," = ["a"; "b c"; "a"].
Proof.
  assert (Hclean : forallb Spec.cleanToken ["a"; "b c"; "a"] = true)
    by reflexivity.
  split; [exact Hclean|].
  apply (allowedValues_round_trip ["a"; "b c"; "a"] Hclean).
Defined.

Lemma allowedValuesOf_clean (value : string) :
  forallb Spec.cleanToken (allowedValuesOf value) = true.
Proof.
  apply forallb_forall. intros token Hin.
  unfold allowedValuesOf in Hin.
  apply filter_In in Hin as [Hin Htruthy].
  apply in_map_iff in Hin as (piece & <- & Hin).
  pose proof (split_no_sep "," value) as Hsep.
  rewrite Forall_forall in Hsep. specialize (Hsep piece Hin).
  destruct (trim_spec piece) as (pre & post & Hpiece & _ & _ & Hstart & Hend).
  rewrite Hpiece, !occurs_app in Hsep.
  apply orb_false_iff in Hsep as [_ Hsep].
  apply orb_false_iff in Hsep as [Hsep _].
  unfold Spec.cleanToken. now rewrite Htruthy, Hsep, Hstart, Hend.
Qed.

End AllowedValuesInput.

Section AllowedValuesTyping.
Import stdpp.base stdpp.list.
Import AuditConfigForm.
Local Open Scope Z_scope.

(** After any change of the "Allowed values" input of a field, the text
    the input shows reads back as the list just stored, and so does that
    text with a comma or a space typed at its end: the handler stores the
    same list again and the typed separator is not kept. *)
Theorem allowedValues_typed_separator_lost (index : Z) (value : string)
    (c : AuditConfig.t) :
  0 <= index < Z.of_nat (length (AuditConfig.schema c)) ->
  exists item : SchemaField.t,
    schema (onAllowedValuesChange index value c) !! Z.to_nat index
    = Some (Whole item)
    /\ SchemaField.allowed_values item = Some (allowedValuesOf value)
    /\ allowedValuesOf (allowedValuesText item) = allowedValuesOf value
    /\ allowedValuesOf (allowedValuesText item ++ ",")
       = allowedValuesOf value
    /\ allowedValuesOf (allowedValuesText item ++ " ")
       = allowedValuesOf value.
Proof.
  intros Hin.
  destruct (lookup_inside (AuditConfig.schema c) index Hin) as [old Hold].
  eexists. split.
  - unfold onAllowedValuesChange.
    rewrite (updateSchemaField_inside _ _ _ old) by (lia || assumption).
    simpl. rewrite list_lookup_fmap, list_lookup_insert_eq by lia.
    reflexivity.
  - split; [reflexivity|].
    unfold allowedValuesText. simpl.
    apply allowedValuesOf_text, allowedValuesOf_clean.
Qed.

Lemma allowedValues_typed_separator_lost_witness :
  0 <= 0 < Z.of_nat (length (AuditConfig.schema Examples.config2))
  /\ exists item : SchemaField.t,
       schema (onAllowedValuesChange 0 "a," Examples.config2) !! 0%nat
       = Some (Whole item)
       /\ SchemaField.allowed_values item = Some ["a"]
       /\ allowedValuesOf (allowedValuesText item) = ["a"]
       /\ allowedValuesOf (allowedValuesText item ++ ",") = ["a"]
       /\ allowedValuesOf (allowedValuesText item ++ " ") = ["a"].
Proof.
  assert (Hin : 0 <= 0
                < Z.of_nat (length (AuditConfig.schema Examples.config2)))
    by (simpl; lia).
  split; [exact Hin|].
  exact (allowedValues_typed_separator_lost 0 "a," Examples.config2 Hin).
Defined.

End AllowedValuesTyping.

(** ** More on the issue log and the indicators *)

Section IssueLogMore.
Import AuditReportView.

Variable localeCompare : string -> string -> Z.

Lemma ruleIssues_In (rule : RuleResult.t) (i : Issue.t) :
  In i (ruleIssues rule) <->
  RuleResult.passed rule = false
  /\ exists (rows : list Row) (sample : Row),
       RuleResult.sample_rows rule = Some rows /\ In sample rows
       /\ i = Issue.mk (lineOf sample) (JSON_stringify sample) "Rule Failed"
                       (RuleResult.name rule) (RuleResult.severity rule).
Proof.
  unfold ruleIssues.
  destruct (RuleResult.passed rule), (RuleResult.sample_rows rule) as [rows|];
    simpl; split; try tauto;
    try (intros (H & _); discriminate);
    try (intros (_ & rows' & sample & H & _); discriminate).
  - rewrite in_map_iff. intros (sample & <- & Hin).
    split; [reflexivity|]. now exists rows, sample.
  - intros (_ & rows' & sample & Hrows & Hin & ->).
    injection Hrows as <-. apply in_map_iff. now exists sample.
Qed.

Lemma missingIssues_In (mv : MissingValueStat.t) (i : Issue.t) :
  In i (missingIssues mv) <->
  0 < MissingValueStat.missing_count mv
  /\ exists (rows : list Row) (sample : Row),
       MissingValueStat.sample_rows mv = Some rows /\ In sample rows
       /\ i = Issue.mk (lineOf sample) "NULL / Empty" "Missing Value"
                       (MissingValueStat.column mv)
                       (missingSeverity (MissingValueStat.missing_pct mv)).
Proof.
  unfold missingIssues.
  destruct (0 <? MissingValueStat.missing_count mv) eqn:Hcount;
    [apply Z.ltb_lt in Hcount | apply Z.ltb_ge in Hcount];
    destruct (MissingValueStat.sample_rows mv) as [rows|];
    simpl; split; try tauto;
    try (intros (H & _); lia);
    try (intros (_ & rows' & sample & H & _); discriminate).
  - rewrite in_map_iff. intros (sample & <- & Hin).
    split; [assumption|]. now exists rows, sample.
  - intros (_ & rows' & sample & Hrows & Hin & ->).
    injection Hrows as <-. apply in_map_iff. now exists sample.
Qed.

(** An issue is in the log exactly when it comes from a sample row of a
    rule result that did not pass, from a sample row of a missing-value
    entry with a positive count, or from a sample row of the primary-key
    result: a rule that passed and an entry with no missing value give
    nothing, whatever sample rows they carry. *)
Theorem allIssues_sources (report : AuditReport.t) (i : Issue.t) :
  In i (allIssues localeCompare (Some report)) <->
  (exists (rule : RuleResult.t) (rows : list Row) (sample : Row),
      In rule (AuditReport.rule_results report)
      /\ RuleResult.passed rule = false
      /\ RuleResult.sample_rows rule = Some rows /\ In sample rows
      /\ i = Issue.mk (lineOf sample) (JSON_stringify sample) "Rule Failed"
                      (RuleResult.name rule) (RuleResult.severity rule))
  \/ (exists (mv : MissingValueStat.t) (rows : list Row) (sample : Row),
         In mv (AuditReport.missing_values report)
         /\ 0 < MissingValueStat.missing_count mv
         /\ MissingValueStat.sample_rows mv = Some rows /\ In sample rows
         /\ i = Issue.mk (lineOf sample) "NULL / Empty" "Missing Value"
                         (MissingValueStat.column mv)
                         (missingSeverity (MissingValueStat.missing_pct mv)))
  \/ (exists (pk : PrimaryKeyResult.t) (sample : Row),
         AuditReport.primary_key_result report = Some pk
         /\ In sample (PrimaryKeyResult.sample_rows pk)
         /\ i = pkIssue pk sample).
Proof.
  rewrite <- In_allIssues. unfold issues.
  rewrite !in_app_iff, !in_flat_map.
  split.
  - intros [(rule & Hin & Hi) | [(mv & Hin & Hi) | Hi]].
    + left. apply ruleIssues_In in Hi as (Hp & rows & sample & H1 & H2 & H3).
      now exists rule, rows, sample.
    + right; left.
      apply missingIssues_In in Hi as (Hp & rows & sample & H1 & H2 & H3).
      now exists mv, rows, sample.
    + right; right. unfold pkIssues in Hi.
      destruct (AuditReport.primary_key_result report) as [pk|];
        [|contradiction].
      apply in_map_iff in Hi as (sample & <- & Hin).
      now exists pk, sample.
  - intros [(rule & rows & sample & Hin & Hp & H1 & H2 & H3)
           | [(mv & rows & sample & Hin & Hp & H1 & H2 & H3)
             | (pk & sample & Hpk & Hin & ->)]].
    + left. exists rule. split; [assumption|].
      apply ruleIssues_In. split; [assumption|]. now exists rows, sample.
    + right; left. exists mv. split; [assumption|].
      apply missingIssues_In. split; [assumption|]. now exists rows, sample.
    + right; right. rewrite Hpk. simpl. apply in_map_iff. now exists sample.
Qed.

Lemma length_flat_map {A B : Type} (f : A -> list B) (l : list A) :
  length (flat_map f l) = list_sum (map (fun x => length (f x)) l).
Proof.
  induction l as [|x l IH]; simpl; [reflexivity|].
  now rewrite length_app, IH.
Qed.

Lemma ruleIssues_length (rule : RuleResult.t) :
  length (ruleIssues rule) = Spec.ruleCount rule.
Proof.
  unfold ruleIssues, Spec.ruleCount.
  destruct (RuleResult.passed rule), (RuleResult.sample_rows rule);
    simpl; trivial. apply length_map.
Qed.

Lemma missingIssues_length (mv : MissingValueStat.t) :
  length (missingIssues mv) = Spec.missingCount mv.
Proof.
  unfold missingIssues, Spec.missingCount.
  destruct (0 <? MissingValueStat.missing_count mv),
           (MissingValueStat.sample_rows mv); simpl; trivial.
  apply length_map.
Qed.

(** The log has one entry for each sample row of each rule result that
    did not pass, of each missing-value entry with a positive count and
    of the primary-key result; with none of these it is empty. *)
Theorem allIssues_length (report : AuditReport.t) :
  length (allIssues localeCompare (Some report))
  = (list_sum (map Spec.ruleCount (AuditReport.rule_results report))
     + list_sum (map Spec.missingCount (AuditReport.missing_values report))
     + Spec.pkCount (AuditReport.primary_key_result report))%nat.
Proof.
  simpl allIssues.
  rewrite <- (Permutation_length (sort_Permutation (compareIssues localeCompare) _)).
  unfold issues. rewrite !length_app, !length_flat_map.
  rewrite (map_ext _ _ ruleIssues_length).
  rewrite (map_ext _ _ missingIssues_length).
  rewrite Nat.add_assoc. f_equal.
  unfold pkIssues, Spec.pkCount.
  destruct (AuditReport.primary_key_result report); [apply length_map|].
  reflexivity.
Qed.

(** Every issue of the log has one of the four error types; a missing
    value shows "NULL / Empty" and is never of severity [info]; a
    primary-key issue is always of severity [error]; so an issue of
    severity [info] can only be a failed rule. *)
Theorem allIssues_fields (report : AuditReport.t) (i : Issue.t) :
  In i (allIssues localeCompare (Some report)) ->
  (Issue.errorType i = "Rule Failed"
   \/ (Issue.errorType i = "Missing Value"
       /\ Issue.value i = "NULL / Empty"
       /\ Issue.severity i <> Info)
   \/ ((Issue.errorType i = "PK Null" \/ Issue.errorType i = "PK Duplicate")
       /\ Issue.severity i = Error))
  /\ (Issue.severity i = Info -> Issue.errorType i = "Rule Failed").
Proof.
  intros Hin.
  assert (H : Issue.errorType i = "Rule Failed"
   \/ (Issue.errorType i = "Missing Value"
       /\ Issue.value i = "NULL / Empty"
       /\ Issue.severity i <> Info)
   \/ ((Issue.errorType i = "PK Null" \/ Issue.errorType i = "PK Duplicate")
       /\ Issue.severity i = Error)).
  { apply In_allIssues in Hin. unfold issues in Hin.
    rewrite !in_app_iff, !in_flat_map in Hin.
    destruct Hin as [(rule & _ & Hi) | [(mv & _ & Hi) | Hi]].
    - left. now apply ruleIssues_errorType in Hi.
    - right; left.
      apply missingIssues_In in Hi as (_ & rows & sample & _ & _ & ->).
      simpl. repeat split. unfold missingSeverity.
      now destruct (Js.gt _ _).
    - right; right. unfold pkIssues in Hi.
      destruct (AuditReport.primary_key_result report) as [pk|];
        [|contradiction].
      apply in_map_iff in Hi as (sample & <- & _).
      unfold pkIssue. simpl. split; [|reflexivity].
      destruct (existsb _ _); auto. }
  split; [exact H|].
  intros Hinfo.
  destruct H as [H | [(_ & _ & H) | (_ & H)]]; [assumption | | ]; congruence.
Qed.

Lemma digit_cases (c : ascii) :
  Spec.isDecimalDigit c = true ->
  In c ["0"; "1"; "2"; "3"; "4"; "5"; "6"; "7"; "8"; "9"]%char.
Proof.
  destruct c as [[] [] [] [] [] [] [] []]; intros H;
    vm_compute in H; try discriminate H; simpl; tauto.
Qed.

Lemma decimal_Some (s : string) (acc : Z) :
  Spec.allDigits s = true -> exists n, Spec.decimal s acc = Some n.
Proof.
  revert acc. induction s as [|c s IH]; simpl; intros acc H.
  - now exists acc.
  - apply andb_true_iff in H as [Hc Hs]. rewrite Hc. now apply IH.
Qed.

Lemma digitValue_digit (c : ascii) :
  Spec.isDecimalDigit c = true ->
  Js.digitValue c = Some (Js.code c - 48) /\ (Js.code c - 48 <? 10) = true.
Proof.
  unfold Spec.isDecimalDigit, Js.digitValue. intros H. rewrite H.
  split; [reflexivity|].
  apply andb_true_iff in H as [_ H]. apply Z.leb_le in H.
  apply Z.ltb_lt. lia.
Qed.

Lemma digitsPrefix_decimal (s : string) (acc : Z) :
  Spec.allDigits s = true ->
  Js.digitsPrefix 10 s (Some acc) = Spec.decimal s acc.
Proof.
  revert acc. induction s as [|c s IH]; simpl; intros acc H;
    [reflexivity|].
  apply andb_true_iff in H as [Hc Hs]. rewrite Hc.
  destruct (digitValue_digit c Hc) as [-> ->].
  now apply IH.
Qed.

Lemma digitsPrefix_plain (s : string) :
  Spec.plainNumeral s = true ->
  Js.digitsPrefix 10 s None = Spec.decimal s 0.
Proof.
  unfold Spec.plainNumeral. destruct s as [|c s]; [discriminate|].
  simpl. intros H. apply andb_true_iff in H as [Hc Hs]. rewrite Hc.
  destruct (digitValue_digit c Hc) as [-> ->].
  now apply digitsPrefix_decimal.
Qed.

(** [parseInt] reads a plain numeral as its decimal value. *)
Lemma parseInt_plain (s : string) :
  Spec.plainNumeral s = true ->
  Js.parseInt s = Spec.decimal s 0
  /\ exists n, Js.parseInt s = Some n.
Proof.
  intros Hplain.
  assert (Hparse : Js.parseInt s = Js.digitsPrefix 10 s None).
  { unfold Spec.plainNumeral in Hplain.
    destruct s as [|c s]; [discriminate|].
    simpl in Hplain. apply andb_true_iff in Hplain as [Hc Hs].
    assert (Hopt : forall o : option Z, option_map (Z.mul 1) o = o).
    { intros [n|]; simpl; [|reflexivity]. f_equal. now destruct n. }
    apply digit_cases in Hc.
    simpl in Hc.
    destruct Hc as [<- | Hc].
    - destruct s as [|d s].
      + reflexivity.
      + simpl in Hs. apply andb_true_iff in Hs as [Hd _].
        apply digit_cases in Hd. simpl in Hd.
        unfold Js.parseInt.
        repeat (destruct Hd as [<- | Hd]; [apply Hopt|]).
        contradiction.
    - unfold Js.parseInt.
      repeat (destruct Hc as [<- | Hc]; [apply Hopt|]).
      contradiction. }
  rewrite Hparse, digitsPrefix_plain by assumption.
  split; [reflexivity|].
  apply decimal_Some.
  unfold Spec.plainNumeral in Hplain.
  now apply andb_true_iff in Hplain as [_ H].
Qed.

Lemma decimal_nonneg (s : string) (acc n : Z) :
  0 <= acc -> Spec.decimal s acc = Some n -> 0 <= n.
Proof.
  revert acc. induction s as [|c s IH]; simpl; intros acc Hacc H.
  - injection H as <-. exact Hacc.
  - destruct (Spec.isDecimalDigit c) eqn:Hc; [|discriminate].
    apply (IH (acc * 10 + (Js.code c - 48))); [|exact H].
    unfold Spec.isDecimalDigit in Hc.
    apply andb_true_iff in Hc as [Hc _].
    apply Z.leb_le in Hc. lia.
Qed.

(** A numeral below [2^53] is a plain numeral, and [parseInt] reads its
    decimal value, which is not negative and below [2^53]. *)
Lemma parseInt_safe (s : string) :
  Spec.safeNumeral s = true ->
  Spec.plainNumeral s = true
  /\ Js.parseInt s = Spec.decimal s 0
  /\ exists n, Js.parseInt s = Some n /\ 0 <= n < 2 ^ 53.
Proof.
  unfold Spec.safeNumeral. intros H.
  apply andb_true_iff in H as [Hplain Hbound].
  destruct (parseInt_plain s Hplain) as [Hparse _].
  split; [exact Hplain | split; [exact Hparse|]].
  rewrite Hparse.
  destruct (Spec.decimal s 0) as [n|] eqn:Hn; [|discriminate].
  exists n. split; [reflexivity|].
  apply Z.ltb_lt in Hbound.
  split; [|exact Hbound].
  now apply (decimal_nonneg s 0 n).
Qed.

Section NumberedRows.
Hypothesis localeCompare_sign : Spec.collates localeCompare.
Hypothesis localeCompare_numerals : Spec.numeralsFirst localeCompare.

(** On rows that are plain numerals or unknown, the comparator is the
    order of the numbers with the unknown rows last. *)
Lemma compareIssues_lineOrder (a b : Issue.t) :
  Spec.plainNumeral (Issue.rowId a) = true \/ Issue.rowId a = "n/a" ->
  Spec.plainNumeral (Issue.rowId b) = true \/ Issue.rowId b = "n/a" ->
  compareIssues localeCompare a b <= 0 <->
  Spec.lineOrder (Js.parseInt (Issue.rowId a)) (Js.parseInt (Issue.rowId b)).
Proof.
  unfold compareIssues.
  intros [Ha | Ha] [Hb | Hb].
  - destruct (parseInt_plain _ Ha) as (_ & x & ->).
    destruct (parseInt_plain _ Hb) as (_ & y & ->).
    simpl. lia.
  - destruct (parseInt_plain _ Ha) as (_ & x & ->).
    pose proof (localeCompare_numerals _ Ha) as H.
    rewrite Hb in *. change (Js.parseInt "n/a") with (@None Z).
    cbv iota beta. simpl. split; [trivial | lia].
  - destruct (parseInt_plain _ Hb) as (_ & y & ->).
    pose proof (localeCompare_numerals _ Hb) as H.
    apply localeCompare_sign in H.
    rewrite Ha in *. change (Js.parseInt "n/a") with (@None Z).
    cbv iota beta. simpl. split; [lia | tauto].
  - rewrite Ha, Hb. change (Js.parseInt "n/a") with (@None Z).
    cbv iota beta.
    pose proof (localeCompare_sign "n/a" "n/a").
    simpl. split; [trivial | lia].
Qed.
End NumberedRows.

Lemma lineOrder_trans (a b c : option Z) :
  Spec.lineOrder a b -> Spec.lineOrder b c -> Spec.lineOrder a c.
Proof.
  destruct a, b, c; simpl; try tauto; lia.
Qed.

Lemma issues_line (report : AuditReport.t) (i : Issue.t) :
  In i (issues report) ->
  exists sample : Row,
    In sample (Spec.sampleRows report) /\ Issue.rowId i = lineOf sample.
Proof.
  unfold issues, Spec.sampleRows.
  rewrite !in_app_iff, !in_flat_map.
  intros [(rule & Hin & Hi) | [(mv & Hin & Hi) | Hi]].
  - apply ruleIssues_In in Hi as (_ & rows & sample & Hrows & Hs & ->).
    exists sample. split; [|reflexivity].
    apply in_or_app; left. apply in_flat_map.
    exists rule. split; [assumption|]. now rewrite Hrows.
  - apply missingIssues_In in Hi as (_ & rows & sample & Hrows & Hs & ->).
    exists sample. split; [|reflexivity].
    apply in_or_app; right. apply in_or_app; left. apply in_flat_map.
    exists mv. split; [assumption|]. now rewrite Hrows.
  - unfold pkIssues in Hi.
    destruct (AuditReport.primary_key_result report) as [pk|];
      [|contradiction].
    apply in_map_iff in Hi as (sample & <- & Hs).
    exists sample. split; [|reflexivity].
    apply in_or_app; right. now apply in_or_app; right.
Qed.

Lemma issues_safe (report : AuditReport.t) (i : Issue.t) :
  Forall Spec.safeLine (Spec.sampleRows report) ->
  In i (issues report) ->
  Spec.safeNumeral (Issue.rowId i) = true \/ Issue.rowId i = "n/a".
Proof.
  intros Hsafe Hin.
  destruct (issues_line report i Hin) as (sample & Hs & ->).
  rewrite Forall_forall in Hsafe. specialize (Hsafe sample Hs).
  unfold Spec.safeLine in Hsafe. unfold lineOf.
  destruct (get "__line__" sample); auto.
Qed.

Lemma consistentOn_intro (l : list Issue.t) :
  (forall a b c, In a l -> In b l -> In c l ->
     compareIssues localeCompare a b <= 0 ->
     compareIssues localeCompare b c <= 0 ->
     compareIssues localeCompare a c <= 0) ->
  Spec.consistentOn localeCompare l = true.
Proof.
  intros H. unfold Spec.consistentOn.
  apply forallb_forall; intros a Ha.
  apply forallb_forall; intros b Hb.
  apply forallb_forall; intros c Hc.
  destruct (compareIssues localeCompare a b <=? 0) eqn:Hab;
    [|reflexivity].
  destruct (compareIssues localeCompare b c <=? 0) eqn:Hbc;
    [|reflexivity].
  simpl. apply Z.leb_le. apply Z.leb_le in Hab, Hbc.
  now apply (H a b c).
Qed.

(** On an engine whose collation reverses its sign with its arguments
    and puts the plain numerals before [n/a], when every sample row of
    the report that has a row number has a plain numeral below [2^53]
    for it, the whole log is in the order of these numbers, every
    earlier issue with every later one, and the issues of unknown row
    come after all the numbered ones; the number read from a row id is
    its decimal value; and the comparator orders the emitted issues
    consistently, on numbers of size below [2^53]. *)
Theorem allIssues_numbered_rows (report : AuditReport.t) :
  Spec.collates localeCompare ->
  Spec.numeralsFirst localeCompare ->
  Forall Spec.safeLine (Spec.sampleRows report) ->
  StronglySorted
    (fun a b => Spec.lineOrder (Js.parseInt (Issue.rowId a))
                               (Js.parseInt (Issue.rowId b)))
    (allIssues localeCompare (Some report))
  /\ (forall i : Issue.t,
        In i (allIssues localeCompare (Some report)) ->
        (Issue.rowId i = "n/a" /\ Js.parseInt (Issue.rowId i) = None)
        \/ (Spec.safeNumeral (Issue.rowId i) = true
            /\ Js.parseInt (Issue.rowId i)
               = Spec.decimal (Issue.rowId i) 0))
  /\ Spec.safeNumbers (issues report) = true
  /\ Spec.consistentOn localeCompare (issues report) = true.
Proof.
  intros Hsign Hfirst Hsafe.
  assert (HS : forall i, In i (issues report) ->
    Spec.safeNumeral (Issue.rowId i) = true \/ Issue.rowId i = "n/a").
  { intros i Hi. now apply (issues_safe report). }
  assert (HP : forall i, In i (issues report) ->
    Spec.plainNumeral (Issue.rowId i) = true \/ Issue.rowId i = "n/a").
  { intros i Hi. destruct (HS i Hi) as [H | H]; [left | now right].
    now apply parseInt_safe. }
  assert (Htrans : forall a b c,
    In a (issues report) -> In b (issues report) -> In c (issues report) ->
    compareIssues localeCompare a b <= 0 ->
    compareIssues localeCompare b c <= 0 ->
    compareIssues localeCompare a c <= 0).
  { intros a b c Ha Hb Hc Hab Hbc.
    apply (compareIssues_lineOrder Hsign Hfirst); try now apply HP.
    eapply lineOrder_trans;
      apply (compareIssues_lineOrder Hsign Hfirst);
      try eassumption; now apply HP. }
  split; [|split; [|split]].
  - apply StronglySorted_impl_on
      with (R := fun a b => compareIssues localeCompare a b <= 0).
    + intros a b Ha Hb.
      apply (compareIssues_lineOrder Hsign Hfirst);
        apply HP; now apply In_allIssues in Ha, Hb.
    + apply Sorted_StronglySorted_on.
      * intros a b c Ha Hb Hc.
        apply Htrans; now apply (In_allIssues localeCompare).
      * apply sort_Sorted. exact (compareIssues_flip _ Hsign).
  - intros i Hi. apply In_allIssues in Hi.
    destruct (HS i Hi) as [H | H].
    + right. split; [assumption|]. now apply parseInt_safe.
    + left. split; [assumption|]. now rewrite H.
  - unfold Spec.safeNumbers. apply forallb_forall. intros i Hi.
    destruct (HS i Hi) as [H | H].
    + destruct (parseInt_safe _ H) as (_ & _ & n & -> & Hn).
      apply Z.ltb_lt. lia.
    + now rewrite H.
  - now apply consistentOn_intro.
Qed.

Lemma schemaIndicators_fields (item : SchemaResult.t) (ind : Indicator.t) :
  In ind (schemaIndicators item) ->
  (Indicator.label ind = "Missing column" /\ Indicator.severity ind = Error)
  \/ (Indicator.label ind = "Type mismatch"
      /\ Indicator.severity ind = Warning).
Proof.
  unfold schemaIndicators.
  destruct (SchemaResult.status item); simpl; intros H;
    try contradiction; destruct H as [<- | H]; try contradiction; auto.
Qed.

(** Every indicator is of one of six kinds: a missing column is an
    [error] and a type mismatch a [warning], missing data is never of
    severity [info], and a primary-key indicator is an [error]; so an
    indicator of severity [info] can only be a failed rule. *)
Theorem issueIndicators_fields (report : AuditReport.t)
    (ind : Indicator.t) :
  In ind (issueIndicators (Some report)) ->
  ((Indicator.label ind = "Missing column" /\ Indicator.severity ind = Error)
   \/ (Indicator.label ind = "Type mismatch"
       /\ Indicator.severity ind = Warning)
   \/ (Indicator.label ind = "Missing data"
       /\ Indicator.severity ind <> Info)
   \/ Indicator.label ind = "Rule failed"
   \/ ((Indicator.label ind = "PK duplicate"
        \/ Indicator.label ind = "PK null")
       /\ Indicator.severity ind = Error))
  /\ (Indicator.severity ind = Info -> Indicator.label ind = "Rule failed").
Proof.
  intros Hin.
  assert (H :
    (Indicator.label ind = "Missing column"
     /\ Indicator.severity ind = Error)
    \/ (Indicator.label ind = "Type mismatch"
        /\ Indicator.severity ind = Warning)
    \/ (Indicator.label ind = "Missing data"
        /\ Indicator.severity ind <> Info)
    \/ Indicator.label ind = "Rule failed"
    \/ ((Indicator.label ind = "PK duplicate"
         \/ Indicator.label ind = "PK null")
        /\ Indicator.severity ind = Error)).
  { simpl in Hin. rewrite !in_app_iff, !in_flat_map in Hin.
    destruct Hin as [(item & _ & Hi) | [(mv & _ & Hi) | [(rule & _ & Hi) | Hi]]].
    - apply schemaIndicators_fields in Hi. tauto.
    - unfold missingIndicators in Hi.
      destruct (0 <? MissingValueStat.missing_count mv);
        simpl in Hi; [|contradiction].
      destruct Hi as [<- | Hi]; [|contradiction].
      right; right; left. simpl. split; [reflexivity|].
      unfold missingSeverity. now destruct (Js.gt _ _).
    - unfold ruleIndicators in Hi.
      destruct (negb (RuleResult.passed rule));
        simpl in Hi; [|contradiction].
      destruct Hi as [<- | Hi]; [|contradiction].
      tauto.
    - unfold pkIndicators in Hi.
      destruct (AuditReport.primary_key_result report) as [pk|];
        [|contradiction].
      apply in_app_iff in Hi.
      destruct (0 <? PrimaryKeyResult.duplicate_count pk),
               (0 <? PrimaryKeyResult.null_count pk);
        simpl in Hi; destruct Hi as [Hi | Hi];
        try contradiction; destruct Hi as [<- | Hi];
        try contradiction; simpl; tauto. }
  split; [exact H|].
  intros Hinfo.
  destruct H as [(_ & H) | [(_ & H) | [(_ & H) | [H | (_ & H)]]]];
    trivial; congruence.
Qed.

Lemma issueIndicators_fields_witness :
  In (Indicator.mk "Missing data" "age: 15.0%" Error)
     (issueIndicators (Some Examples.mixed))
  /\ (Indicator.severity (Indicator.mk "Missing data" "age: 15.0%" Error)
      = Info ->
      Indicator.label (Indicator.mk "Missing data" "age: 15.0%" Error)
      = "Rule failed").
Proof.
  assert (Hin : In (Indicator.mk "Missing data" "age: 15.0%" Error)
                   (issueIndicators (Some Examples.mixed)))
    by (vm_compute; auto).
  split; [exact Hin|].
  apply (issueIndicators_fields Examples.mixed _ Hin).
Defined.

Lemma length_flat_map_filter {A B : Type} (f : A -> list B)
    (p : A -> bool) (l : list A) :
  (forall x, length (f x) = if p x then 1%nat else 0%nat) ->
  length (flat_map f l) = length (filter p l).
Proof.
  intros Hf. induction l as [|x l IH]; simpl; [reflexivity|].
  rewrite length_app, Hf, IH. now destruct (p x).
Qed.

(** The number of indicators, the "alerts" of the scorecard: the schema
    results that are not [ok], the missing-value entries with a positive
    count, the rule results that did not pass, and one each for a
    positive count of duplicate and of null primary keys. *)
Theorem issueIndicators_length (report : AuditReport.t) :
  length (issueIndicators (Some report))
  = (length (filter (fun item =>
                       match SchemaResult.status item with
                       | StatusOk => false
                       | _ => true
                       end)
                    (AuditReport.schema_results report))
     + length (filter (fun mv => (0 <? MissingValueStat.missing_count mv)%Z)
                      (AuditReport.missing_values report))
     + length (filter (fun rule => negb (RuleResult.passed rule))
                      (AuditReport.rule_results report))
     + match AuditReport.primary_key_result report with
       | Some pk =>
           (if (0 <? PrimaryKeyResult.duplicate_count pk)%Z then 1 else 0)
           + (if (0 <? PrimaryKeyResult.null_count pk)%Z then 1 else 0)
       | None => 0
       end)%nat.
Proof.
  simpl issueIndicators. rewrite !length_app.
  rewrite (length_flat_map_filter schemaIndicators
             (fun item => match SchemaResult.status item with
                          | StatusOk => false
                          | _ => true
                          end)).
  2: { intros item. unfold schemaIndicators.
       now destruct (SchemaResult.status item). }
  rewrite (length_flat_map_filter missingIndicators
             (fun mv => 0 <? MissingValueStat.missing_count mv)).
  2: { intros mv. unfold missingIndicators.
       now destruct (0 <? MissingValueStat.missing_count mv). }
  rewrite (length_flat_map_filter ruleIndicators
             (fun rule => negb (RuleResult.passed rule))).
  2: { intros rule. unfold ruleIndicators.
       now destruct (negb (RuleResult.passed rule)). }
  rewrite !Nat.add_assoc. f_equal.
  unfold pkIndicators.
  destruct (AuditReport.primary_key_result report) as [pk|];
    [|reflexivity].
  rewrite length_app.
  now destruct (0 <? PrimaryKeyResult.duplicate_count pk),
               (0 <? PrimaryKeyResult.null_count pk).
Qed.

End IssueLogMore.

Lemma collation_numeralsFirst : Spec.numeralsFirst Examples.collation.
Proof.
  intros s. unfold Spec.plainNumeral. destruct s as [|c s]; [discriminate|].
  simpl. intros H. apply andb_true_iff in H as [Hc _].
  apply digit_cases in Hc. simpl in Hc.
  unfold Examples.collation.
  repeat (destruct Hc as [<- | Hc]; [reflexivity|]).
  contradiction.
Qed.

Lemma allIssues_fields_witness :
  In (AuditReportView.Issue.mk "n/a" "NULL / Empty" "Missing Value" "age"
        Error)
     (AuditReportView.allIssues Examples.collation (Some Examples.mixed))
  /\ (AuditReportView.Issue.severity
        (AuditReportView.Issue.mk "n/a" "NULL / Empty" "Missing Value" "age"
           Error) = Info ->
      AuditReportView.Issue.errorType
        (AuditReportView.Issue.mk "n/a" "NULL / Empty" "Missing Value" "age"
           Error) = "Rule Failed").
Proof.
  assert (Hin : In (AuditReportView.Issue.mk "n/a" "NULL / Empty"
                      "Missing Value" "age" Error)
                   (AuditReportView.allIssues Examples.collation
                      (Some Examples.mixed)))
    by (simpl; auto 10).
  split; [exact Hin|].
  apply (allIssues_fields Examples.collation Examples.mixed _ Hin).
Defined.

Lemma allIssues_numbered_rows_witness :
  Spec.collates Examples.collation
  /\ Spec.numeralsFirst Examples.collation
  /\ Forall Spec.safeLine (Spec.sampleRows Examples.mixed)
  /\ StronglySorted
       (fun a b =>
          Spec.lineOrder (Js.parseInt (AuditReportView.Issue.rowId a))
                         (Js.parseInt (AuditReportView.Issue.rowId b)))
       (AuditReportView.allIssues Examples.collation (Some Examples.mixed)).
Proof.
  assert (H1 : Spec.collates Examples.collation)
    by exact collation_collates.
  assert (H2 : Spec.numeralsFirst Examples.collation)
    by exact collation_numeralsFirst.
  assert (H3 : Forall Spec.safeLine (Spec.sampleRows Examples.mixed))
    by (repeat constructor).
  split; [exact H1 | split; [exact H2 | split; [exact H3|]]].
  apply (allIssues_numbered_rows Examples.collation Examples.mixed H1 H2 H3).
Defined.


(** ** More on the comparison *)

Section ComparisonMore.
Import ComparisonView.

(** With two different reports chosen, when the gateway fails to deliver
    either of them the comparison is not made: the choice and the
    comparison shown before stay as they were, and the message reports
    the failure with the gateway's own words. *)
Theorem handleCompare_failure
    (fetchJSON : string -> string + AuditReport.t) (st : State)
    (a b : string) :
  compareIds_a st = Some a -> compareIds_b st = Some b ->
  a <> EmptyString -> b <> EmptyString -> a <> b ->
  (exists error, fetchJSON ("/reports/" ++ a)%string = inl error)
  \/ (exists error, fetchJSON ("/reports/" ++ b)%string = inl error) ->
  exists error : string,
    (fetchJSON ("/reports/" ++ a)%string = inl error
     \/ fetchJSON ("/reports/" ++ b)%string = inl error)
    /\ handleCompare fetchJSON st
       = mkState (Some a) (Some b) (comparison st)
                 ("Comparison failed: " ++ error).
Proof.
  intros Ha Hb Hna Hnb Hab Hfail.
  unfold handleCompare, reportPath. rewrite Ha, Hb.
  rewrite !unselected_Some by assumption.
  apply String.eqb_neq in Hab. unfold sameId. rewrite Hab. simpl orb.
  cbv iota.
  destruct (fetchJSON ("/reports/" ++ a)%string) as [ea | ra] eqn:HA.
  - exists ea. split; [now left | reflexivity].
  - destruct (fetchJSON ("/reports/" ++ b)%string) as [eb | rb] eqn:HB.
    + exists eb. split; [now right | reflexivity].
    + destruct Hfail as [(e & He) | (e & He)]; discriminate.
Qed.

Lemma handleCompare_failure_witness :
  exists error : string,
    (Examples.gateway "/reports/a" = inl error
     \/ Examples.gateway "/reports/zz" = inl error)
    /\ handleCompare Examples.gateway
         (mkState (Some "a") (Some "zz") None EmptyString)
       = mkState (Some "a") (Some "zz") None
                 ("Comparison failed: " ++ error).
Proof.
  apply (handleCompare_failure Examples.gateway
           (mkState (Some "a") (Some "zz") None EmptyString) "a" "zz");
    try reflexivity; try discriminate.
  right. now exists "Not Found".
Defined.

(** Choosing one report in both selects, or the blank entry in either,
    and pressing Compare is refused, whatever was chosen before and
    whatever the gateway would answer. *)
Theorem select_then_compare
    (fetchJSON : string -> string + AuditReport.t) (st : State)
    (value : string) :
  handleCompare fetchJSON (selectB value (selectA value st))
  = mkState (compareIds_a (selectA value st))
            (compareIds_b (selectB value st))
            (comparison st) "Choose two different reports to compare."
  /\ handleCompare fetchJSON (selectA EmptyString st)
     = mkState None (compareIds_b st) (comparison st)
               "Choose two different reports to compare."
  /\ handleCompare fetchJSON (selectB EmptyString st)
     = mkState (compareIds_a st) None (comparison st)
               "Choose two different reports to compare.".
Proof.
  split; [|split].
  - unfold handleCompare, selectA, selectB. simpl.
    destruct (Js.truthy value); simpl.
    + now rewrite String.eqb_refl, orb_true_r.
    + reflexivity.
  - reflexivity.
  - unfold handleCompare, selectB. simpl. now rewrite orb_true_r.
Qed.

(** The delta is shown in rose exactly when report B has more issues
    than report A, in emerald exactly when it has fewer and in slate
    exactly when they have as many; comparing the two reports the other
    way round negates the delta and exchanges rose and emerald. *)
Theorem delta_tone (reportA reportB : AuditReport.t) :
  (tone (delta (reportA, reportB)) = "text-rose-200"
   <-> AuditSummary.issues_found (AuditReport.summary reportA)
       < AuditSummary.issues_found (AuditReport.summary reportB))
  /\ (tone (delta (reportA, reportB)) = "text-emerald-200"
      <-> AuditSummary.issues_found (AuditReport.summary reportB)
          < AuditSummary.issues_found (AuditReport.summary reportA))
  /\ (tone (delta (reportA, reportB)) = "text-slate-200"
      <-> AuditSummary.issues_found (AuditReport.summary reportA)
          = AuditSummary.issues_found (AuditReport.summary reportB))
  /\ delta (reportB, reportA) = - delta (reportA, reportB)
  /\ (tone (delta (reportA, reportB)) = "text-rose-200"
      <-> tone (delta (reportB, reportA)) = "text-emerald-200").
Proof.
  unfold tone, delta. simpl.
  set (x := AuditSummary.issues_found (AuditReport.summary reportA)).
  set (y := AuditSummary.issues_found (AuditReport.summary reportB)).
  destruct (0 <? y - x) eqn:H1; destruct (y - x <? 0) eqn:H2;
    destruct (0 <? x - y) eqn:H3; destruct (x - y <? 0) eqn:H4;
    try apply Z.ltb_lt in H1; try apply Z.ltb_ge in H1;
    try apply Z.ltb_lt in H2; try apply Z.ltb_ge in H2;
    try apply Z.ltb_lt in H3; try apply Z.ltb_ge in H3;
    try apply Z.ltb_lt in H4; try apply Z.ltb_ge in H4;
    try lia;
    repeat split; intros; try reflexivity; try discriminate; try lia.
Qed.

End ComparisonMore.


(** ** The gateway and the page *)

Section HomeFacts.
Import Home.
Variable env : option string.
Variable fetch : Api.Request -> string + Api.Response.
Variable jsonConfig : string -> string + AuditConfig.t.
Variable jsonReports : string -> string + list StoredReportMetadata.t.
Variable jsonReport : string -> string + AuditReport.t.
Variable jsonColumns : string -> string + list string.
Variable stringifyConfig : AuditConfig.t -> string.

(** [fetchJSON] gives a value only when the server answered with a
    success status and the body reads as that value; an answer with
    another status is an error whose message is the body as it is, or
    "Request failed" when the body is empty. *)
Theorem fetchJSON_answers {T : Type} (json : string -> string + T)
    (path : string) :
  (forall v : T,
      Api.fetchJSON env fetch json path = inr v <->
      exists response : Api.Response,
        fetch (Api.mkRequest (Api.apiUrl env path) Api.GET [])
        = inr response
        /\ Api.ok response = true
        /\ json (Api.text response) = inr v)
  /\ (forall response : Api.Response,
        fetch (Api.mkRequest (Api.apiUrl env path) Api.GET [])
        = inr response ->
        Api.ok response = false ->
        (Api.text response <> EmptyString ->
         Api.fetchJSON env fetch json path = inl (Api.text response))
        /\ (Api.text response = EmptyString ->
            Api.fetchJSON env fetch json path = inl "Request failed")).
Proof.
  unfold Api.fetchJSON. split.
  - intros v.
    destruct (fetch _) as [e | response]; split.
    + discriminate.
    + intros (response & H & _). discriminate.
    + destruct (Api.ok response) eqn:Hok; simpl; [|discriminate].
      intros Hv. now exists response.
    + intros (response' & H & Hok & Hv).
      injection H as <-. now rewrite Hok.
  - intros response -> ->. simpl. split.
    + intros Hne. now destruct (Api.text response).
    + now intros ->.
Qed.

(** When the audit request does not give a report (the network fails,
    the server answers with an error status, or the body does not read
    as a report) [runAudit] ends with the page as it was but for the
    message: the report shown, the history and the configuration are
    kept, the page is no longer running, and the message is "Audit
    failed: " with the error, the server's body, or "Audit failed" again
    for an empty body. *)
Theorem runAudit_failure (st : State) (f : Api.File) (reason : string) :
  file st = Some f ->
  fetch (auditRequest env stringifyConfig f (config st)) = inl reason
  \/ (exists response : Api.Response,
        fetch (auditRequest env stringifyConfig f (config st)) = inr response
        /\ Api.ok response = false
        /\ reason = if Js.truthy (Api.text response)
                    then Api.text response else "Audit failed")
  \/ (exists response : Api.Response,
        fetch (auditRequest env stringifyConfig f (config st)) = inr response
        /\ Api.ok response = true
        /\ jsonReport (Api.text response) = inl reason) ->
  runAudit env fetch jsonReports jsonReport stringifyConfig st
  = mkState (config st) (file st) (report st) (reports st) false
            ("Audit failed: " ++ reason)
            (loadingTemplate st) (availableColumns st).
Proof.
  intros Hfile Hfail.
  match goal with |- _ = ?rhs => set (expected := rhs) end.
  unfold runAudit. rewrite Hfile.
  change (config (setMessage "Running audit..." (setIsRunning true st)))
    with (config st).
  destruct Hfail as [-> | [(response & -> & Hok & ->)
                          | (response & -> & Hok & Hjson)]].
  - reflexivity.
  - now rewrite Hok.
  - now rewrite Hok, Hjson.
Qed.

(** When the audit request gives a report, [runAudit] shows it and
    reloads the history.  If the history loads, it is replaced and the
    message says the audit completed; if it does not, the history is
    kept and the message is the failure to load the reports, in place of
    the one that says the audit completed.  Either way the page is no
    longer running and the configuration is untouched. *)
Theorem runAudit_success (st : State) (f : Api.File)
    (response : Api.Response) (auditReport : AuditReport.t) :
  file st = Some f ->
  fetch (auditRequest env stringifyConfig f (config st)) = inr response ->
  Api.ok response = true ->
  jsonReport (Api.text response) = inr auditReport ->
  (forall data : list StoredReportMetadata.t,
      Api.fetchJSON env fetch jsonReports "/reports" = inr data ->
      runAudit env fetch jsonReports jsonReport stringifyConfig st
      = mkState (config st) (file st) (Some auditReport) data false
                "Audit completed successfully."
                (loadingTemplate st) (availableColumns st))
  /\ (forall error : string,
        Api.fetchJSON env fetch jsonReports "/reports" = inl error ->
        runAudit env fetch jsonReports jsonReport stringifyConfig st
        = mkState (config st) (file st) (Some auditReport) (reports st)
                  false ("Unable to load reports: " ++ error)
                  (loadingTemplate st) (availableColumns st)).
Proof.
  intros Hfile Hfetch Hok Hjson.
  split; intros x Hx;
    match goal with |- _ = ?rhs => set (expected := rhs) end;
    unfold runAudit, refreshReports; rewrite Hfile;
    change (config (setMessage "Running audit..." (setIsRunning true st)))
      with (config st);
    now rewrite Hfetch, Hok, Hjson, Hx.
Qed.

(** A deletion the operator does not confirm changes nothing and sends
    nothing.  A confirmed deletion the server accepts ends with the
    message "Report deleted." whether the history reloads or not; the
    report on show is cleared when it is the deleted one and kept when it
    is another; the history is replaced if it reloads and kept if it does
    not. *)
Theorem deleteReport_done (st : State) (reportId : string)
    (response : Api.Response) :
  fetch (deleteRequest env reportId) = inr response ->
  Api.ok response = true ->
  deleteReport env fetch jsonReports false reportId st = st
  /\ message (deleteReport env fetch jsonReports true reportId st)
     = "Report deleted."
  /\ report (deleteReport env fetch jsonReports true reportId st)
     = (if isReport (report st) reportId then None else report st)
  /\ (forall data : list StoredReportMetadata.t,
        Api.fetchJSON env fetch jsonReports "/reports" = inr data ->
        reports (deleteReport env fetch jsonReports true reportId st)
        = data)
  /\ (forall error : string,
        Api.fetchJSON env fetch jsonReports "/reports" = inl error ->
        reports (deleteReport env fetch jsonReports true reportId st)
        = reports st)
  /\ config (deleteReport env fetch jsonReports true reportId st)
     = config st.
Proof.
  intros Hfetch Hok.
  unfold deleteReport, refreshReports. simpl negb. cbv iota.
  rewrite Hfetch, Hok. simpl negb. cbv iota.
  split; [reflexivity|].
  destruct (Api.fetchJSON env fetch jsonReports "/reports")
    as [e | data];
    destruct (isReport (report st) reportId); simpl;
    repeat split; intros; simpl; congruence.
Qed.

(** A confirmed deletion that the network or the server refuses leaves
    the report on show and the history as they were; the message is
    "Unable to delete report: " with the error or with the server's body
    as it is, nothing after the colon for an empty body. *)
Theorem deleteReport_refused (st : State) (reportId reason : string) :
  fetch (deleteRequest env reportId) = inl reason
  \/ fetch (deleteRequest env reportId)
     = inr (Api.mkResponse false reason) ->
  deleteReport env fetch jsonReports true reportId st
  = setMessage ("Unable to delete report: " ++ reason) st.
Proof.
  unfold deleteReport. simpl negb. cbv iota.
  now intros [-> | ->].
Qed.

(** [fetchTemplate] always ends with the loading flag down.  A template
    that loads replaces the whole configuration, whatever had been edited
    in it, and leaves the message; one that does not load leaves the
    configuration and says so in the message. *)
Theorem fetchTemplate_replaces (st : State) :
  loadingTemplate (fetchTemplate env fetch jsonConfig st) = false
  /\ (forall template : AuditConfig.t,
        Api.fetchJSON env fetch jsonConfig "/config/template"
        = inr template ->
        config (fetchTemplate env fetch jsonConfig st) = template
        /\ message (fetchTemplate env fetch jsonConfig st) = message st)
  /\ (forall error : string,
        Api.fetchJSON env fetch jsonConfig "/config/template"
        = inl error ->
        config (fetchTemplate env fetch jsonConfig st) = config st
        /\ message (fetchTemplate env fetch jsonConfig st)
           = ("Unable to load template: " ++ error)%string)
  /\ report (fetchTemplate env fetch jsonConfig st) = report st
  /\ reports (fetchTemplate env fetch jsonConfig st) = reports st.
Proof.
  unfold fetchTemplate.
  destruct (Api.fetchJSON env fetch jsonConfig "/config/template")
    as [e | template]; simpl;
    repeat split; intros; simpl; congruence.
Qed.

(** With no file chosen the effect on the file empties the list of
    columns.  With a file chosen, a request that fails in any way (the
    network, an error status, a body that does not read) leaves the whole
    page as it was: the columns of the file chosen before stay, and no
    message is set. *)
Theorem fetchColumns_failure (st : State) :
  (file st = None ->
   fetchColumns env fetch jsonColumns st = setAvailableColumns [] st)
  /\ (forall f : Api.File,
        file st = Some f ->
        (exists error, fetch (schemaRequest env f) = inl error)
        \/ (exists response,
              fetch (schemaRequest env f) = inr response
              /\ (Api.ok response = false
                  \/ exists error,
                       jsonColumns (Api.text response) = inl error)) ->
        fetchColumns env fetch jsonColumns st = st)
  /\ (forall (f : Api.File) (response : Api.Response)
             (cols : list string),
        file st = Some f ->
        fetch (schemaRequest env f) = inr response ->
        Api.ok response = true ->
        jsonColumns (Api.text response) = inr cols ->
        fetchColumns env fetch jsonColumns st = setAvailableColumns cols st).
Proof.
  unfold fetchColumns. split; [|split].
  - now intros ->.
  - intros f -> [(e & ->) | (response & -> & [-> | (e & ->)])];
      trivial. now destruct (Api.ok response).
  - intros f response cols -> -> -> ->. reflexivity.
Qed.

End HomeFacts.

Lemma runAudit_failure_witness :
  Home.runAudit None Examples.refusing Examples.readsNone
                Examples.readsReport (fun _ => "{}") Examples.page
  = Home.mkState Examples.config2 (Some "id,name")
      (Some (Examples.report "a" 5 [] [] [] None))
      [StoredReportMetadata.mk "a" "uploaded_dataset"
         "2024-01-01T00:00:00" 5 None]
      false "Audit failed: Audit failed" false ["id"; "name"].
Proof.
  apply (runAudit_failure None Examples.refusing Examples.readsNone
           Examples.readsReport (fun _ => "{}") Examples.page "id,name"
           "Audit failed" eq_refl).
  right; left. exists (Api.mkResponse false EmptyString).
  repeat split.
Defined.

Lemma runAudit_success_witness :
  Home.runAudit None Examples.accepting Examples.unreadable
                Examples.readsReport (fun _ => "{}") Examples.page
  = Home.mkState Examples.config2 (Some "id,name")
      (Some (Examples.report "a" 5 [] [] [] None))
      [StoredReportMetadata.mk "a" "uploaded_dataset"
         "2024-01-01T00:00:00" 5 None]
      false "Unable to load reports: Unexpected end of JSON input" false
      ["id"; "name"].
Proof.
  destruct (runAudit_success None Examples.accepting Examples.unreadable
              Examples.readsReport (fun _ => "{}") Examples.page "id,name"
              (Api.mkResponse true "{}")
              (Examples.report "a" 5 [] [] [] None)
              eq_refl eq_refl eq_refl eq_refl) as [_ Hrefresh].
  exact (Hrefresh "Unexpected end of JSON input" eq_refl).
Defined.

Lemma deleteReport_done_witness :
  Home.report
    (Home.deleteReport None Examples.accepting Examples.unreadable true "a"
                       Examples.page)
  = None
  /\ Home.message
       (Home.deleteReport None Examples.accepting Examples.unreadable true
                          "a" Examples.page)
     = "Report deleted.".
Proof.
  destruct (deleteReport_done None Examples.accepting Examples.unreadable
              Examples.page "a" (Api.mkResponse true "{}")
              eq_refl eq_refl) as (_ & Hmessage & Hreport & _).
  split; [exact Hreport | exact Hmessage].
Defined.

Lemma deleteReport_refused_witness :
  Home.deleteReport None Examples.refusing Examples.readsNone true "a"
                    Examples.page
  = Home.setMessage "Unable to delete report: " Examples.page.
Proof.
  apply (deleteReport_refused None Examples.refusing Examples.readsNone
           Examples.page "a" EmptyString).
  now right.
Defined.
